(** * CoreNVR: retention, recovery and playback indexing

    A shallow embedding of the parts of CoreNVR that decide its testable
    properties: the storage cleaner ([internal/storage]), the recorder's
    last-segment probe ([internal/recorder]), the recovery manager
    ([internal/recovery]) and the recording routes of the web UI
    ([internal/webui/server.go]).

    Conventions.
    - A [time.Time] is a [Z]: nanoseconds since 0001-01-01 00:00:00 UTC, so
      that Go's zero [Time] is [0].  A [time.Duration] is a [Z] number of
      nanoseconds.
    - A Go [string] is a [string] of bytes; slicing is by byte index.
    - The local zone is a fixed offset [tz] (seconds east of UTC); under a
      fixed offset [AddDate(0,0,n)] and [Add(n*24h)] coincide.
    - Byte counts are [Z]; the two [float64] threshold tests of the cleaner
      are taken over the exact quotients (the rounded tests can differ
      from these only when a quotient lies within a few units in the last
      place of its threshold). *)

From Stdlib Require Import ZArith List String Ascii Bool Lia.
From Stdlib Require Import Sorting.Sorted Sorting.Permutation.
Import ListNotations.

Local Open Scope string_scope.
Local Open Scope list_scope.
Local Open Scope Z_scope.

(* ------------------------------------------------------------------ *)
(** ** Go strings *)

Module GoString.

(** [s[i]]: [None] stands for the run-time panic "index out of range". *)
Definition at_ (s : string) (i : nat) : option ascii := String.get i s.

(** [s[lo:hi]]: panics unless [lo <= hi <= len(s)]. *)
Definition slice (s : string) (lo hi : nat) : option string :=
  if (Nat.leb lo hi && Nat.leb hi (String.length s))%bool
  then Some (substring lo (hi - lo) s)
  else None.

(** [s[lo:]] *)
Definition slice_from (s : string) (lo : nat) : option string :=
  slice s lo (String.length s).

(** [strings.HasPrefix(s, p)] *)
Definition HasPrefix (s p : string) : bool := prefix p s.

Definition is_digit (c : ascii) : bool :=
  let n := nat_of_ascii c in (Nat.leb 48 n && Nat.leb n 57)%bool.

Definition digit_val (c : ascii) : Z := Z.of_nat (nat_of_ascii c) - 48.

(** Value of a string made of decimal digits only. *)
Fixpoint atoi_acc (acc : Z) (s : string) : option Z :=
  match s with
  | EmptyString => Some acc
  | String c s' =>
      if is_digit c then atoi_acc (10 * acc + digit_val c) s' else None
  end.

(** A field of exactly [w] decimal digits. *)
Definition fixed_num (w : nat) (s : string) : option Z :=
  if Nat.eqb (String.length s) w then
    match s with EmptyString => None | _ => atoi_acc 0 s end
  else None.

Definition digit_char (d : Z) : ascii := ascii_of_nat (48 + Z.to_nat d).

(** The [w] low decimal digits of [n], most significant first. *)
Fixpoint pad_digits (w : nat) (n : Z) : string :=
  match w with
  | O => EmptyString
  | S w' =>
      (pad_digits w' (n / 10) ++ String (digit_char (n mod 10)) EmptyString)%string
  end.

Fixpoint split_on (sep : ascii) (cur : string) (s : string) : list string :=
  match s with
  | EmptyString => [cur]
  | String c s' =>
      if Ascii.eqb c sep then cur :: split_on sep EmptyString s'
      else split_on sep (cur ++ String c EmptyString)%string s'
  end.

Fixpoint join (sep : string) (l : list string) : string :=
  match l with
  | [] => EmptyString
  | [x] => x
  | x :: l' => (x ++ sep ++ join sep l')%string
  end.

End GoString.

(* ------------------------------------------------------------------ *)
(** ** Package [time] *)

Module GoTime.

Definition Time := Z.
Definition Duration := Z.

Definition Second : Duration := 1000000000.
Definition Minute : Duration := 60 * Second.
Definition Hour : Duration := 60 * Minute.
(** Not a Go constant: the length of a civil day under a fixed offset. *)
Definition Day : Duration := 24 * Hour.

Definition zero : Time := 0.
Definition IsZero (t : Time) : bool := t =? 0.
Definition Before (t u : Time) : bool := t <? u.
Definition After (t u : Time) : bool := u <? t.
Definition Add (t : Time) (d : Duration) : Time := t + d.
Definition Sub (t u : Time) : Duration := t - u.

(** [t.AddDate(0, 0, n)] in a fixed-offset zone. *)
Definition AddDate_days (t : Time) (n : Z) : Time := t + n * Day.

(** Civil calendar (proleptic Gregorian).  Day number [0] is 0001-01-01. *)
Definition is_leap (y : Z) : bool :=
  ((y mod 4 =? 0) && (negb (y mod 100 =? 0) || (y mod 400 =? 0)))%bool.

Definition daysIn (m y : Z) : Z :=
  if m =? 2 then (if is_leap y then 29 else 28)
  else if ((m =? 4) || (m =? 6) || (m =? 9) || (m =? 11))%bool then 30
  else 31.

Definition day_number (y m d : Z) : Z :=
  let y' := if m <=? 2 then y - 1 else y in
  let era := y' / 400 in
  let yoe := y' - era * 400 in
  let mp := if 2 <? m then m - 3 else m + 9 in
  let doy := (153 * mp + 2) / 5 + d - 1 in
  let doe := yoe * 365 + yoe / 4 - yoe / 100 + doy in
  era * 146097 + doe - 306.

Definition civil_of_day (n : Z) : Z * Z * Z :=
  let z := n + 306 in
  let era := z / 146097 in
  let doe := z - era * 146097 in
  let yoe := (doe - doe / 1460 + doe / 36524 - doe / 146096) / 365 in
  let doy := doe - (365 * yoe + yoe / 4 - yoe / 100) in
  let mp := (5 * doy + 2) / 153 in
  let d := doy - (153 * mp + 2) / 5 + 1 in
  let m := if mp <? 10 then mp + 3 else mp - 9 in
  let y := yoe + era * 400 + (if m <=? 2 then 1 else 0) in
  (y, m, d).

(** The instant 00:00:00 UTC of day [n]. *)
Definition midnight_utc (n : Z) : Time := n * Day.

(** The civil day on which [t] falls for a clock [tz] seconds east of UTC. *)
Definition local_day (tz : Z) (t : Time) : Z := (t + tz * Second) / Day.

(** [time.Parse("2006-01-02", s)]: the day number, [None] for an error.
    The result of [Parse] is midnight UTC of that day. *)
Definition parse_date (s : string) : option Z :=
  match GoString.slice s 0 4, GoString.at_ s 4, GoString.slice s 5 7,
        GoString.at_ s 7, GoString.slice s 8 10 with
  | Some ys, Some c1, Some ms, Some c2, Some ds =>
      if (Nat.eqb (String.length s) 10 && Ascii.eqb c1 "-" && Ascii.eqb c2 "-")%bool
      then
        match GoString.fixed_num 4 ys, GoString.fixed_num 2 ms,
              GoString.fixed_num 2 ds with
        | Some y, Some m, Some d =>
            if ((1 <=? m) && (m <=? 12) && (1 <=? d) && (d <=? daysIn m y))%bool
            then Some (day_number y m d) else None
        | _, _, _ => None
        end
      else None
  | _, _, _, _, _ => None
  end.

(** [t.Format("2006-01-02")] for the day number of [t] (years 0..9999). *)
Definition format_date (n : Z) : string :=
  let '(y, m, d) := civil_of_day n in
  (GoString.pad_digits 4 y ++ "-" ++ GoString.pad_digits 2 m ++ "-"
     ++ GoString.pad_digits 2 d)%string.

End GoTime.

(* ------------------------------------------------------------------ *)
(** ** The hand-written sort

    Both [emergencyCleanup] and [handleRecordingsTimeline] sort a slice in
    place with the same two nested loops:
<<
    for i := 0; i < len(a)-1; i++ {
        for j := i + 1; j < len(a); j++ {
            if a[i] > a[j] { a[i], a[j] = a[j], a[i] }
        }
    }
>>
    [gt x y] is the comparison of the inner test. *)

Module ExchangeSort.
Section Sort.
Context {A : Type}.
Variable gt : A -> A -> bool.

(** [a[i] = x] *)
Fixpoint store (a : list A) (i : nat) (x : A) : list A :=
match a, i with
| [], _ => []
| _ :: a', O => x :: a'
| y :: a', S i' => y :: store a' i' x
end.

(** One execution of the inner loop's body. *)
Definition step (a : list A) (i j : nat) : list A :=
match nth_error a i, nth_error a j with
| Some x, Some y => if gt x y then store (store a i y) j x else a
| _, _ => a
end.

(** The inner loop, for the [n] indices [j, j+1, ..., j+n-1]. *)
Fixpoint inner (n : nat) (a : list A) (i j : nat) : list A :=
match n with
| O => a
| S n' => inner n' (step a i j) i (S j)
end.

(** The outer loop, for the [n] indices [i, i+1, ..., i+n-1]. *)
Fixpoint outer (n : nat) (a : list A) (i : nat) : list A :=
match n with
| O => a
| S n' => outer n' (inner (List.length a - S i) a i (S i)) (S i)
end.

Definition sort (a : list A) : list A := outer (List.length a - 1) a 0.

(** The same computation on the part of the slice that is still being
  worked on: [sweep x l] carries [a[i] = x] along [l = a[j:]]. *)
Fixpoint sweep (x : A) (l : list A) : A * list A :=
match l with
| [] => (x, [])
| y :: l' =>
    if gt x y
    then let (m, r) := sweep y l' in (m, x :: r)
    else let (m, r) := sweep x l' in (m, y :: r)
end.

Fixpoint passes (n : nat) (l : list A) : list A :=
match n, l with
| S n', x :: l' => let (m, r) := sweep x l' in m :: passes n' r
| _, _ => l
end.

End Sort.

Section ByKey.
Context {A : Type}.
Variable key : A -> Z.

(** The comparison of both call sites: the key of [a[i]] is strictly
  greater than that of [a[j]]. *)
Definition key_gt (x y : A) : bool := key y <? key x.

Definition key_le (x y : A) : Prop := key x <= key y.
End ByKey.
End ExchangeSort.

(* ------------------------------------------------------------------ *)
(** ** The recordings tree below [storage.base_path] *)

Module FS.

#[warnings="-register-all"]
Inductive node : Type :=
| File (name : string) (size : Z)
| Dir (name : string) (kids : list node).

(** A path below the base directory, as its list of elements. *)
Definition path := list string.

Definition name_of (n : node) : string :=
  match n with File nm _ => nm | Dir nm _ => nm end.

(** [getDirSize]: the sizes of all regular files below a directory. *)
Fixpoint node_size (n : node) : Z :=
  match n with
  | File _ sz => sz
  | Dir _ ks => fold_right (fun k acc => node_size k + acc) 0 ks
  end.

Definition getDirSize (ks : list node) : Z :=
  fold_right (fun k acc => node_size k + acc) 0 ks.

(** [os.RemoveAll(p)] on the children of the base directory. *)
Fixpoint remove_node (p : path) (n : node) : list node :=
  match p with
  | [] => [n]
  | x :: p' =>
      if String.eqb (name_of n) x then
        match p', n with
        | [], _ => []
        | _ :: _, Dir nm ks => [Dir nm (flat_map (remove_node p') ks)]
        | _ :: _, File _ _ => [n]
        end
      else [n]
  end.

Definition RemoveAll (p : path) (tree : list node) : list node :=
  flat_map (remove_node p) tree.

(** All directories of the tree, by path. *)
Fixpoint dirs_of (pre : path) (n : node) : list path :=
  match n with
  | File _ _ => []
  | Dir nm ks =>
      (pre ++ [nm]) :: flat_map (dirs_of (pre ++ [nm])) ks
  end.

Definition all_dirs (pre : path) (tree : list node) : list path :=
  flat_map (dirs_of pre) tree.

Definition path_eqb (p q : path) : bool :=
  if list_eq_dec string_dec p q then true else false.

End FS.

(* ------------------------------------------------------------------ *)
(** ** Package [storage]: the cleaner *)

Module Storage.
Import GoTime FS.

Definition DiskAlertNone : Z := 0.
Definition DiskAlertWarning : Z := 1.
Definition DiskAlertCritical : Z := 2.
Definition DiskAlertEmergency : Z := 3.

Record StorageConfig := {
  BasePath : string;
  SegmentDuration : Z;
  RetentionDays : Z
}.

Record Cleaner := {
  config : StorageConfig;
  lastAlertLevel : Z;
  lastAlertTime : Time
}.

Definition NewCleaner (cfg : StorageConfig) : Cleaner :=
  {| config := cfg; lastAlertLevel := DiskAlertNone; lastAlertTime := zero |}.

(** [len(dirName) == 10 && dirName[4] == '-' && dirName[7] == '-'] *)
Definition is_date_name (dirName : string) : bool :=
  (Nat.eqb (String.length dirName) 10 &&
   match GoString.at_ dirName 4, GoString.at_ dirName 7 with
   | Some a, Some b => Ascii.eqb a "-" && Ascii.eqb b "-"
   | _, _ => false
   end)%bool.

(** The date of a directory that both walks treat as a date directory:
    the name has the shape above and [time.Parse] accepts it. *)
Definition dir_date (dirName : string) : option Time :=
  if is_date_name dirName then
    match parse_date dirName with
    | Some d => Some (midnight_utc d)
    | None => None
    end
  else None.

Record DirInfo := { path : FS.path; date : Time; size : Z }.

Section World.
(** Whether [os.RemoveAll] of a directory succeeds. *)
Variable rm_ok : FS.path -> bool.

(** What a pass of [cleanup] leaves and what it deleted, in order. *)
Record swept := { remaining : list node; deleted : list DirInfo }.

Definition deletedDirs (r : swept) : Z := Z.of_nat (List.length (deleted r)).

(** The callback of [filepath.Walk] in [cleanup], together with the
    walk below the node: the node as the walk leaves it, and the
    directories deleted on the way. *)
Fixpoint cleanup_visit (cutoffTime : Time) (pre : FS.path) (n : node)
  : list node * list DirInfo :=
  match n with
  | File _ _ => ([n], [])
  | Dir nm ks =>
      let p := pre ++ [nm] in
      let below :=
        ([Dir nm (flat_map (fun k => fst (cleanup_visit cutoffTime p k)) ks)],
         flat_map (fun k => snd (cleanup_visit cutoffTime p k)) ks) in
      match dir_date nm with
      | Some dirDate =>
          if Before dirDate cutoffTime then
            if rm_ok p
            then ([], [{| path := p; date := dirDate; size := getDirSize ks |}])
            else ([n], [])
          else below
      | None => below
      end
  end.

Definition cleanup_walk (cutoffTime : Time) (tree : list node) : swept :=
  {| remaining := flat_map (fun k => fst (cleanup_visit cutoffTime [] k)) tree;
     deleted := flat_map (fun k => snd (cleanup_visit cutoffTime [] k)) tree |}.

(** [Cleaner.cleanup], run at instant [now]. *)
Definition cleanup (c : Cleaner) (now : Time) (tree : list node) : swept :=
  let cutoffTime := AddDate_days now (- RetentionDays (config c)) in
  cleanup_walk cutoffTime tree.

(** [syscall.Statfs_t], the three fields that are read. *)
Record Statfs_t := { Blocks : Z; Bavail : Z; Bsize : Z }.

Definition uint64 (x : Z) : Z := x mod 2 ^ 64.
Definition total_bytes (st : Statfs_t) : Z := uint64 (Blocks st * uint64 (Bsize st)).
Definition avail_bytes (st : Statfs_t) : Z := uint64 (Bavail st * uint64 (Bsize st)).
Definition used_bytes (st : Statfs_t) : Z := uint64 (total_bytes st - avail_bytes st).

(** [syscall.Statfs] on the base path: the readings depend on what is
    on the volume; [None] is a failed call. *)
Variable statfs : list node -> option Statfs_t.

(** [percentUsed >= k] for [percentUsed = 100.0 * used / total]; with
    [total = 0] the quotient is NaN (no test holds) or +Inf. *)
Definition percent_ge (st : Statfs_t) (k : Z) : bool :=
  if total_bytes st =? 0 then 0 <? used_bytes st
  else k * total_bytes st <=? 100 * used_bytes st.

Definition alert_level (st : Statfs_t) : Z :=
  if percent_ge st 95 then DiskAlertEmergency
  else if percent_ge st 90 then DiskAlertCritical
  else if percent_ge st 80 then DiskAlertWarning
  else DiskAlertNone.

(** The walk of [emergencyCleanup] that finds the date directories. *)
Fixpoint collect_visit (pre : FS.path) (n : node) : list DirInfo :=
  match n with
  | File _ _ => []
  | Dir nm ks =>
      let p := pre ++ [nm] in
      match dir_date nm with
      | Some dirDate => [{| path := p; date := dirDate; size := getDirSize ks |}]
      | None => flat_map (collect_visit p) ks
      end
  end.

Definition collect_dirs (tree : list node) : list DirInfo :=
  flat_map (collect_visit []) tree.

(** [dirs[i].date.After(dirs[j].date)] *)
Definition dir_after (a b : DirInfo) : bool := After (date a) (date b).

(** The shape of the path of a collected directory: a date directory
    reached through directories that are not date directories. *)
Fixpoint is_partition_path (p : FS.path) : bool :=
  match p with
  | [] => false
  | nm :: p' =>
      match p', dir_date nm with
      | [], Some _ => true
      | _ :: _, None => is_partition_path p'
      | _, _ => false
      end
  end.

(** [currentFree >= targetFree] with [targetFree = total * 0.10]. *)
Definition floor_reached (total : Z) (st : Statfs_t) : bool :=
  total <=? 10 * avail_bytes st.

(** [dir.date.After(time.Now().AddDate(0, 0, -2))] *)
Definition is_recent (now : Time) (dir : DirInfo) : bool :=
  After (date dir) (AddDate_days now (-2)).

Record pruning := {
  p_tree : list node;
  p_stat : Statfs_t;
  p_deleted : list DirInfo;
  p_stopped : bool
}.

(** The deletion loop of [emergencyCleanup]; [now_at i] is the reading
    of [time.Now()] in iteration [i]. *)
Fixpoint prune_loop (now_at : nat -> Time) (total : Z) (i : nat)
  (dirs : list DirInfo) (st : pruning) : pruning :=
  match dirs with
  | [] => st
  | dir :: rest =>
      let stat := match statfs (p_tree st) with
                  | Some s => s
                  | None => p_stat st
                  end in
      if floor_reached total stat then
        {| p_tree := p_tree st; p_stat := stat;
           p_deleted := p_deleted st; p_stopped := true |}
      else if is_recent (now_at i) dir then
        prune_loop now_at total (S i) rest
          {| p_tree := p_tree st; p_stat := stat;
             p_deleted := p_deleted st; p_stopped := false |}
      else if rm_ok (path dir) then
        prune_loop now_at total (S i) rest
          {| p_tree := RemoveAll (path dir) (p_tree st); p_stat := stat;
             p_deleted := p_deleted st ++ [dir]; p_stopped := false |}
      else
        prune_loop now_at total (S i) rest
          {| p_tree := p_tree st; p_stat := stat;
             p_deleted := p_deleted st; p_stopped := false |}
  end.

(** [Cleaner.emergencyCleanup]; [None] when the first [Statfs] fails
    and the function returns before touching anything. *)
Definition emergencyCleanup (now_at : nat -> Time) (tree : list node)
  : option pruning :=
  match statfs tree with
  | None => None
  | Some stat =>
      let total := total_bytes stat in
      let dirs := ExchangeSort.sort dir_after (collect_dirs tree) in
      Some (prune_loop now_at total 0 dirs
              {| p_tree := tree; p_stat := stat;
                 p_deleted := []; p_stopped := false |})
  end.

(** What one call of [MonitorDiskUsage] did after the alert. *)
Inductive escalation :=
| NoCleanup
| RanCleanup (r : swept)
| RanEmergency (r : option pruning).

Record monitored := {
  m_cleaner : Cleaner;
  m_alert : option Z;
  m_escalation : escalation;
  m_tree : list node
}.

(** [Cleaner.MonitorDiskUsage].  [now] is the clock for the alert
    bookkeeping, [now_at] the clock handed to the cleanup it starts. *)
Definition MonitorDiskUsage (c : Cleaner) (now : Time) (now_at : nat -> Time)
  (tree : list node) : monitored :=
  match statfs tree with
  | None =>
      {| m_cleaner := c; m_alert := None; m_escalation := NoCleanup;
         m_tree := tree |}
  | Some st =>
      let currentAlertLevel := alert_level st in
      let timeSinceLastAlert := Sub now (lastAlertTime c) in
      let send :=
        ((lastAlertLevel c <? currentAlertLevel) ||
         ((DiskAlertNone <? currentAlertLevel) && (1 * Hour <? timeSinceLastAlert)))%bool in
      let c' := if send
                then {| config := config c; lastAlertLevel := currentAlertLevel;
                        lastAlertTime := now |}
                else c in
      let alert := if send then Some currentAlertLevel else None in
      if currentAlertLevel =? DiskAlertEmergency then
        let r := emergencyCleanup now_at tree in
        {| m_cleaner := c'; m_alert := alert; m_escalation := RanEmergency r;
           m_tree := match r with Some pr => p_tree pr | None => tree end |}
      else if currentAlertLevel =? DiskAlertCritical then
        let r := cleanup c (now_at O) tree in
        {| m_cleaner := c'; m_alert := alert; m_escalation := RanCleanup r;
           m_tree := remaining r |}
      else
        {| m_cleaner := c'; m_alert := alert; m_escalation := NoCleanup;
           m_tree := tree |}
  end.

(** One round of the loop in [Cleaner.Start]: the monitor, then the
    regular cleanup when retention is enabled. *)
Definition round (c : Cleaner) (now : Time) (now_at : nat -> Time)
  (now' : Time) (tree : list node) : Cleaner * list node :=
  let m := MonitorDiskUsage c now now_at tree in
  if 0 <? RetentionDays (config c)
  then (m_cleaner m, remaining (cleanup c now' (m_tree m)))
  else (m_cleaner m, m_tree m).

End World.
End Storage.

(* ------------------------------------------------------------------ *)
(** ** Package [path/filepath] (Unix) *)

Module Filepath.

Definition sep : ascii := "/"%char.

Fixpoint has_sep_or_dot (s : string) : bool :=
  match s with
  | EmptyString => false
  | String c s' => (Ascii.eqb c sep || Ascii.eqb c "." || has_sep_or_dot s')%bool
  end.

(** [filepath.Ext]: the suffix from the last dot of the last element. *)
Fixpoint Ext (path : string) : string :=
  match path with
  | EmptyString => EmptyString
  | String c s' =>
      if has_sep_or_dot s' then Ext s'
      else if Ascii.eqb c "." then path else EmptyString
  end.

Definition IsAbs (path : string) : bool :=
  match path with String c _ => Ascii.eqb c sep | EmptyString => false end.

(** One element of the path against the elements kept so far (last
    first), as [Clean] treats it. *)
Definition clean_step (rooted : bool) (stk : list string) (e : string) : list string :=
  if (String.eqb e "" || String.eqb e ".")%bool then stk
  else if String.eqb e ".." then
    match stk with
    | top :: rest => if String.eqb top ".." then e :: stk else rest
    | [] => if rooted then [] else [e]
    end
  else e :: stk.

(** [filepath.Clean] *)
Definition Clean (path : string) : string :=
  let rooted := IsAbs path in
  let stk := fold_left (clean_step rooted) (GoString.split_on sep "" path) [] in
  let body := GoString.join "/" (rev stk) in
  if rooted then ("/" ++ body)%string
  else if String.eqb body "" then "." else body.

Fixpoint skip_empty (elem : list string) : list string :=
  match elem with
  | e :: elem' => if String.eqb e "" then skip_empty elem' else elem
  | [] => []
  end.

(** [filepath.Join]: the elements from the first non-empty one on,
    joined and cleaned. *)
Definition Join (elem : list string) : string :=
  match skip_empty elem with
  | [] => ""
  | es => Clean (GoString.join "/" es)
  end.

(** [filepath.Abs], in working directory [wd]. *)
Definition Abs (wd path : string) : string :=
  if IsAbs path then Clean path else Join [wd; path].

(** [filepath.HasPrefix]: a plain string prefix test. *)
Definition HasPrefix (p prefix : string) : bool := GoString.HasPrefix p prefix.

(** [filepath.Base]: the last element, trailing separators dropped. *)
Definition Base (path : string) : string :=
  if String.eqb path "" then "."
  else
    match filter (fun e => negb (String.eqb e "")) (GoString.split_on sep "" path) with
    | [] => "/"
    | e :: es => last es e
    end.

End Filepath.

(* ------------------------------------------------------------------ *)
(** ** Directory listings *)

Module Dirent.
Import GoTime.

Record FileInfo := { ModTime : Time; Size : Z }.

(** An entry of [os.ReadDir]; [Info] is [None] when [entry.Info()] or
    [os.Stat] on the entry fails. *)
Record DirEntry := { Name : string; IsDir : bool; Info : option FileInfo }.

End Dirent.

(* ------------------------------------------------------------------ *)
(** ** Package [recorder]: the last-segment probe *)

Module Recorder.
Import GoTime Dirent.

Record Recorder := { camera_Name : string; storage_BasePath : string }.

(** The loop over the entries: newest modification time of a [.ts] file. *)
Definition newer (latestTime : Time) (entry : DirEntry) : Time :=
  if (negb (IsDir entry) && String.eqb (Filepath.Ext (Name entry)) ".ts")%bool then
    match Info entry with
    | Some info => if After (ModTime info) latestTime then ModTime info else latestTime
    | None => latestTime
    end
  else latestTime.

Definition latest_ts (entries : list DirEntry) : Time := fold_left newer entries zero.

Definition recordDir (r : Recorder) (dateStr : string) : string :=
  Filepath.Join [storage_BasePath r; camera_Name r; "recordings"; dateStr].

Section Probe.
(** [os.ReadDir]: [None] when the directory cannot be read. *)
Variable ReadDir : string -> option (list DirEntry).
(** The local zone, in seconds east of UTC. *)
Variable tz : Z.

Definition today_str (now : Time) : string := format_date (local_day tz now).
Definition yesterday_str (now : Time) : string :=
  format_date (local_day tz (Add now (-24 * Hour))).

(** [Recorder.GetLastRecordingTime]; [now] and [now'] are its two
    readings of the clock. *)
Definition GetLastRecordingTime (r : Recorder) (now now' : Time) : Time :=
  match ReadDir (recordDir r (today_str now)) with
  | Some entries => latest_ts entries
  | None =>
      match ReadDir (recordDir r (yesterday_str now')) with
      | Some entries => latest_ts entries
      | None => zero
      end
  end.
End Probe.

End Recorder.

(* ------------------------------------------------------------------ *)
(** ** Package [recovery]: the recovery manager *)

Module Recovery.
Import GoTime.

Record RecoveryConfig := {
  StaleThreshold : Z;
  VerificationDelay : Z;
  HealthCheckInterval : Z;
  MaxPowerCyclesPer30Min : Z;
  ServiceRestartTimeout : Z;
  PowerCycleRecoveryTimeout : Z
}.

Record RecoveryAttempt := { Timestamp : Time; Action : string; Success : bool }.

Record CameraRecoveryState := {
  failureDetectedAt : Time;
  recoveryAttempts : list RecoveryAttempt
}.

(** The state [NewRecoveryManager] gives every camera. *)
Definition initial : CameraRecoveryState :=
  {| failureDetectedAt := zero; recoveryAttempts := [] |}.

(** [hasAttempted] *)
Definition hasAttempted (state : CameraRecoveryState) (action : string) : bool :=
  existsb (fun attempt => String.eqb (Action attempt) action) (recoveryAttempts state).

(** [countRecentAttempts], with [now] its reading of the clock. *)
Definition countRecentAttempts (state : CameraRecoveryState) (action : string)
    (window : Duration) (now : Time) : Z :=
  let cutoff := Add now (- window) in
  Z.of_nat (List.length
    (filter (fun attempt =>
               (String.eqb (Action attempt) action && After (Timestamp attempt) cutoff)%bool)
            (recoveryAttempts state))).

(** What one health check of a camera did. *)
Inductive outcome :=
| NoRecordings                       (* no segment found: warning only *)
| Fresh                              (* healthy, nothing to reset *)
| Recovered                          (* healthy again: alert, state reset *)
| Detected                           (* first stale observation *)
| Verifying                          (* stale, inside the verification delay *)
| Performed (a : RecoveryAttempt)    (* a recovery action was started *)
| ManualIntervention                 (* power-cycle cap reached: critical alert *)
| Exhausted.                         (* all three actions already tried *)

Definition attempt (state : CameraRecoveryState) (action : string) (now : Time)
  : CameraRecoveryState * outcome :=
  let a := {| Timestamp := now; Action := action; Success := false |} in
  ({| failureDetectedAt := failureDetectedAt state;
      recoveryAttempts := recoveryAttempts state ++ [a] |},
   Performed a).

Section Manager.
Variable config : RecoveryConfig.

(** [recoverCamera]; [now_count] is the clock read by
    [countRecentAttempts], [now_stamp] the one stamped on the attempt. *)
Definition recoverCamera (state : CameraRecoveryState) (now_count now_stamp : Time)
  : CameraRecoveryState * outcome :=
  let recentPowerCycles :=
    countRecentAttempts state "power_cycle" (30 * Minute) now_count in
  if MaxPowerCyclesPer30Min config <=? recentPowerCycles then
    (state, ManualIntervention)
  else if negb (hasAttempted state "goroutine_restart") then
    attempt state "goroutine_restart" now_stamp
  else if negb (hasAttempted state "service_restart") then
    attempt state "service_restart" now_stamp
  else if negb (hasAttempted state "power_cycle") then
    attempt state "power_cycle" now_stamp
  else (state, Exhausted).

(** [checkCamera].  [lastRecording] is what the probe returned and
    [clk k] the [k]-th reading of the clock during the check. *)
Definition checkCamera (state : CameraRecoveryState) (lastRecording : Time)
    (clk : nat -> Time) : CameraRecoveryState * outcome :=
  if IsZero lastRecording then (state, NoRecordings)
  else
    let age := Sub (clk 0%nat) lastRecording in
    let staleThreshold := StaleThreshold config * Second in
    if age <? staleThreshold then
      if negb (IsZero (failureDetectedAt state))
      then ({| failureDetectedAt := zero; recoveryAttempts := [] |}, Recovered)
      else (state, Fresh)
    else if IsZero (failureDetectedAt state) then
      ({| failureDetectedAt := clk 1%nat;
          recoveryAttempts := recoveryAttempts state |}, Detected)
    else
      let timeSinceDetection := Sub (clk 1%nat) (failureDetectedAt state) in
      let verificationDelay := VerificationDelay config * Second in
      if timeSinceDetection <? verificationDelay then (state, Verifying)
      else recoverCamera state (clk 2%nat) (clk 3%nat).

(** One tick of the monitor for one camera. *)
Record tick := { lastRecording : Time; clock : nat -> Time }.

(** The checks of a camera over successive ticks, with their outcomes. *)
Fixpoint run (state : CameraRecoveryState) (ticks : list tick)
  : CameraRecoveryState * list outcome :=
  match ticks with
  | [] => (state, [])
  | t :: ticks' =>
      let (state', o) := checkCamera state (lastRecording t) (clock t) in
      let (final, os) := run state' ticks' in
      (final, o :: os)
  end.
End Manager.

End Recovery.

(* ------------------------------------------------------------------ *)
(** ** Package [webui]: the recording routes *)

Module WebUI.
Import GoTime Dirent.

(** What a handler does with a request: it writes a reply, or it panics
    (an out-of-range slice). *)
Inductive result (A : Type) : Type :=
| Panicked
| Returned (a : A).
Arguments Panicked {A}.
Arguments Returned {A} a.

Record Recording := {
  r_Filename : string;
  r_StartTime : string;
  r_Size : Z;
  r_Duration : Z;
  r_URL : string;
  r_PlaylistURL : string
}.

Record Segment := { StartTime : string; EndTime : string; Filename : string }.

Record Gap := { g_StartTime : string; g_EndTime : string; DurationMins : Z }.

Inductive reply :=
| Error (msg : string) (code : Z)
| RecordingsList (camera date : string) (recordings : list Recording)
| Timeline (camera date : string) (segments : list Segment) (gaps : list Gap)
    (recordedMinutes : Z)
| ServeFile (filePath : string)
| Manifest (recordingURL : string).

Definition StatusBadRequest : Z := 400.
Definition StatusForbidden : Z := 403.
Definition StatusNotFound : Z := 404.
Definition StatusInternalServerError : Z := 500.

(** Seconds since midnight of the clock reading of [t]. *)
Definition clock_secs (t : Time) : Z := (t / Second) mod 86400.

(** The clock reading [c] seconds after midnight, as ["15:04:05"] prints it. *)
Definition render_clock (c : Z) : string :=
  (GoString.pad_digits 2 (c / 3600) ++ ":" ++ GoString.pad_digits 2 ((c / 60) mod 60)
     ++ ":" ++ GoString.pad_digits 2 (c mod 60))%string.

(** [t.Format("15:04:05")] *)
Definition format_clock (t : Time) : string := render_clock (clock_secs t).

(** [t.Day()], the day of the month. *)
Definition day_of_month (t : Time) : Z :=
  let '(_, _, d) := civil_of_day (t / Day) in d.

(** The clock part of a successful [time.Parse]: two-digit hour, minute
    and second within range, as seconds since midnight. *)
Definition parse_hms (hh mm ss : string) : option Z :=
  match GoString.fixed_num 2 hh, GoString.fixed_num 2 mm, GoString.fixed_num 2 ss with
  | Some h, Some m, Some sec =>
      if ((h <? 24) && (m <? 60) && (sec <? 60))%bool
      then Some (h * 3600 + m * 60 + sec) else None
  | _, _, _ => None
  end.

(** [t, _ := time.Parse("15:04:05", s)] followed by [t.Hour()],
    [t.Minute()], [t.Second()]: the seconds since midnight, [0] when the
    parse fails and [t] is the zero time. *)
Definition clock_of (s : string) : Z :=
  match GoString.slice s 0 2, GoString.at_ s 2, GoString.slice s 3 5,
        GoString.at_ s 5, GoString.slice s 6 8 with
  | Some hh, Some c1, Some mm, Some c2, Some ss =>
      if (Nat.eqb (String.length s) 8 && Ascii.eqb c1 ":" && Ascii.eqb c2 ":")%bool
      then match parse_hms hh mm ss with Some c => c | None => 0 end
      else 0
  | _, _, _, _, _ => 0
  end.

(** [time.Date(dateObj.Year(), dateObj.Month(), dateObj.Day(), h, m, s, 0,
    time.UTC)] for [dateObj] the midnight that [Parse] returned and the
    clock [c = 3600 h + 60 m + s]. *)
Definition on_day (dateObj : Time) (c : Z) : Time := dateObj + c * Second.

(** [int(d.Minutes())] for a positive duration. *)
Definition whole_minutes (d : Duration) : Z := Z.quot d Minute.

(** [a > b] on strings. *)
Definition str_gt (a b : string) : bool :=
  match String.compare a b with Gt => true | _ => false end.

(** [segments[i].StartTime > segments[j].StartTime] *)
Definition starts_later (a b : Segment) : bool := str_gt (StartTime a) (StartTime b).

Section Handlers.
(** [config.Storage.BasePath] and the working directory of the process. *)
Variable BasePath : string.
Variable wd : string.
(** [filepath.Glob]: the matches in lexical order, [None] for a bad pattern. *)
Variable Glob : string -> option (list string).
(** [os.Stat]: [None] when it fails. *)
Variable Stat : string -> option FileInfo.

(** The body of the loop of [handleRecordingsList] for a file that
    [os.Stat] found. *)
Definition list_entry (camera date file : string) (info : FileInfo) : result Recording :=
  let filename := Filepath.Base file in
  match GoString.slice filename 0 8 with
  | None => Panicked
  | Some timeStr =>
      match GoString.slice timeStr 0 2, GoString.slice timeStr 3 5,
            GoString.slice timeStr 6 8 with
      | Some hh, Some mm, Some ss =>
          Returned
            {| r_Filename := filename;
               r_StartTime := (date ++ " " ++ hh ++ ":" ++ mm ++ ":" ++ ss)%string;
               r_Size := Size info;
               r_Duration := 1800;
               r_URL := ("/recordings/" ++ camera ++ "/" ++ date ++ "/" ++ filename)%string;
               r_PlaylistURL :=
                 ("/api/recordings/playlist/" ++ camera ++ "/" ++ date ++ "/"
                    ++ filename)%string |}
      | _, _, _ => Panicked
      end
  end.

Fixpoint list_loop (camera date : string) (files : list string)
  : result (list Recording) :=
  match files with
  | [] => Returned []
  | file :: files' =>
      match Stat file with
      | None => list_loop camera date files'
      | Some info =>
          match list_entry camera date file info with
          | Panicked => Panicked
          | Returned rec =>
              match list_loop camera date files' with
              | Panicked => Panicked
              | Returned recs => Returned (rec :: recs)
              end
          end
      end
  end.

(** [Server.handleRecordingsList], on the [camera] and [date] parameters
    of the query. *)
Definition handleRecordingsList (camera date : string) : result reply :=
  if (String.eqb camera "" || String.eqb date "")%bool then
    Returned (Error "camera and date parameters required" StatusBadRequest)
  else
    match parse_date date with
    | None => Returned (Error "invalid date format, use YYYY-MM-DD" StatusBadRequest)
    | Some _ =>
        let datePath := Filepath.Join [BasePath; camera; "recordings"; date] in
        match Glob (Filepath.Join [datePath; "*.ts"]) with
        | None => Returned (Error "Failed to list recordings" StatusInternalServerError)
        | Some files =>
            match list_loop camera date files with
            | Panicked => Panicked
            | Returned recordings => Returned (RecordingsList camera date recordings)
            end
        end
    end.

(** The segment that the first loop of [handleRecordingsTimeline] builds
    once it has the start time. *)
Definition segment_at (startTime : Time) (filename : string) : Segment :=
  let endTime := Add startTime (30 * Minute) in
  let endTimeStr :=
    if negb (day_of_month endTime =? day_of_month startTime)
    then "23:59:59" else format_clock endTime in
  {| StartTime := format_clock startTime; EndTime := endTimeStr; Filename := filename |}.

(** [startTime, _ := time.Parse("2006-01-02 15:04:05", ...)]: the zero time
    when the parse fails. *)
Definition start_time (dateObj : Time) (hh mm ss : string) : Time :=
  match parse_hms hh mm ss with
  | Some c => on_day dateObj c
  | None => zero
  end.

(** The body of the first loop of [handleRecordingsTimeline]. *)
Definition timeline_entry (dateObj : Time) (file : string) : result Segment :=
  let filename := Filepath.Base file in
  match GoString.slice filename 0 8 with
  | None => Panicked
  | Some timeStr =>
      match GoString.slice timeStr 0 2, GoString.slice timeStr 3 5,
            GoString.slice timeStr 6 8 with
      | Some hh, Some mm, Some ss =>
          Returned (segment_at (start_time dateObj hh mm ss) filename)
      | _, _, _ => Panicked
      end
  end.

Fixpoint timeline_loop (dateObj : Time) (files : list string) : result (list Segment) :=
  match files with
  | [] => Returned []
  | file :: files' =>
      match Stat file with
      | None => timeline_loop dateObj files'
      | Some _ =>
          match timeline_entry dateObj file with
          | Panicked => Panicked
          | Returned seg =>
              match timeline_loop dateObj files' with
              | Panicked => Panicked
              | Returned segs => Returned (seg :: segs)
              end
          end
      end
  end.

(** The loop over consecutive segments, for the [n] indices from [i] on. *)
Fixpoint between_loop (dateObj : Time) (segments : list Segment) (n i : nat)
    (gaps : list Gap) : list Gap :=
  match n with
  | O => gaps
  | S n' =>
      match nth_error segments i, nth_error segments (S i) with
      | Some cur, Some next =>
          let currentEnd := on_day dateObj (clock_of (EndTime cur)) in
          let nextStart := on_day dateObj (clock_of (StartTime next)) in
          let gapDuration := Sub nextStart currentEnd in
          let gaps' :=
            if 2 * Minute <? gapDuration
            then gaps ++ [{| g_StartTime := EndTime cur; g_EndTime := StartTime next;
                             DurationMins := whole_minutes gapDuration |}]
            else gaps in
          between_loop dateObj segments n' (S i) gaps'
      | _, _ => gaps
      end
  end.

(** The gap detection of [handleRecordingsTimeline] on the sorted segments. *)
Definition detect_gaps (dateObj : Time) (segments : list Segment) : list Gap :=
  match segments with
  | [] => [{| g_StartTime := "00:00:00"; g_EndTime := "23:59:59"; DurationMins := 1440 |}]
  | first :: _ =>
      let dayStart := on_day dateObj 0 in
      let firstStart := on_day dateObj (clock_of (StartTime first)) in
      let startGapDuration := Sub firstStart dayStart in
      let gaps1 :=
        if 2 * Minute <? startGapDuration
        then [{| g_StartTime := "00:00:00"; g_EndTime := StartTime first;
                 DurationMins := whole_minutes startGapDuration |}]
        else [] in
      let gaps2 := between_loop dateObj segments (List.length segments - 1) 0 gaps1 in
      let dayEnd := on_day dateObj (23 * 3600 + 59 * 60 + 59) in
      let final := last segments first in
      let lastEnd := on_day dateObj (clock_of (EndTime final)) in
      let endGapDuration := Sub dayEnd lastEnd in
      if 2 * Minute <? endGapDuration
      then gaps2 ++ [{| g_StartTime := EndTime final; g_EndTime := "23:59:59";
                        DurationMins := whole_minutes endGapDuration |}]
      else gaps2
  end.

Definition recorded_minutes (segments : list Segment) (gaps : list Gap) : Z :=
  match segments with
  | [] => 0
  | _ => 24 * 60 - fold_left (fun acc g => acc + DurationMins g) gaps 0
  end.

(** [Server.handleRecordingsTimeline] *)
Definition handleRecordingsTimeline (camera date : string) : result reply :=
  if (String.eqb camera "" || String.eqb date "")%bool then
    Returned (Error "camera and date parameters required" StatusBadRequest)
  else
    match parse_date date with
    | None => Returned (Error "invalid date format, use YYYY-MM-DD" StatusBadRequest)
    | Some day =>
        let dateObj := midnight_utc day in
        let datePath := Filepath.Join [BasePath; camera; "recordings"; date] in
        match Glob (Filepath.Join [datePath; "*.ts"]) with
        | None => Returned (Error "Failed to list recordings" StatusInternalServerError)
        | Some files =>
            match timeline_loop dateObj files with
            | Panicked => Panicked
            | Returned parsed =>
                let segments := ExchangeSort.sort starts_later parsed in
                let gaps := detect_gaps dateObj segments in
                Returned (Timeline camera date segments gaps
                            (recorded_minutes segments gaps))
            end
        end
    end.

(** The index of the first ['/'] of a string. *)
Fixpoint first_slash (s : string) (i : nat) : option nat :=
  match s with
  | EmptyString => None
  | String c s' => if Ascii.eqb c "/" then Some i else first_slash s' (S i)
  end.

(** The traversal check shared by both file routes. *)
Definition escapes (camera filePath : string) : bool :=
  let baseDir := Filepath.Join [BasePath; camera; "recordings"] in
  let absBase := Filepath.Abs wd baseDir in
  let absPath := Filepath.Abs wd filePath in
  negb (Filepath.HasPrefix absPath absBase).

(** [Server.handleRecordingPlayback], on [r.URL.Path]. *)
Definition handleRecordingPlayback (urlPath : string) : result reply :=
  match GoString.slice_from urlPath (String.length "/recordings/") with
  | None => Panicked
  | Some trimmed =>
      match first_slash trimmed 0 with
      | None => Returned (Error "Invalid path: camera not found" StatusBadRequest)
      | Some i =>
          let camera := substring 0 i trimmed in
          let idx1 := S i in
          if String.eqb camera "" then
            Returned (Error "Invalid path: camera not found" StatusBadRequest)
          else if (Nat.ltb (idx1 + 10) (String.length trimmed) &&
                   match GoString.at_ trimmed (idx1 + 10) with
                   | Some c => Ascii.eqb c "/"
                   | None => false
                   end)%bool then
            let date := substring idx1 10 trimmed in
            let filename := substring (idx1 + 11) (String.length trimmed - (idx1 + 11)) trimmed in
            if (String.eqb date "" || String.eqb filename "")%bool then
              Returned (Error "Invalid recording path" StatusBadRequest)
            else
              match parse_date date with
              | None => Returned (Error "Invalid date format" StatusBadRequest)
              | Some _ =>
                  if negb (String.eqb (Filepath.Ext filename) ".ts") then
                    Returned (Error "Invalid file type" StatusBadRequest)
                  else
                    let filePath :=
                      Filepath.Join [BasePath; camera; "recordings"; date; filename] in
                    if escapes camera filePath then
                      Returned (Error "Forbidden" StatusForbidden)
                    else Returned (ServeFile filePath)
              end
          else Returned (Error "Invalid path: date not found" StatusBadRequest)
      end
  end.

(** [Server.handleRecordingPlaylist], on [r.URL.Path] (ASCII). *)
Definition handleRecordingPlaylist (urlPath : string) : result reply :=
  match GoString.slice_from urlPath (String.length "/api/recordings/playlist/") with
  | None => Panicked
  | Some trimmed =>
      let parts := filter (fun e => negb (String.eqb e ""))
                          (GoString.split_on "/" "" trimmed) in
      match parts with
      | [camera; date; filename] =>
          let filePath :=
            Filepath.Join [BasePath; camera; "recordings"; date; filename] in
          if escapes camera filePath then
            Returned (Error "Forbidden" StatusForbidden)
          else
            match Stat filePath with
            | None => Returned (Error "Recording not found" StatusNotFound)
            | Some _ =>
                Returned (Manifest
                  ("/recordings/" ++ camera ++ "/" ++ date ++ "/" ++ filename)%string)
            end
      | _ => Returned (Error "Invalid URL format" StatusBadRequest)
      end
  end.

End Handlers.
End WebUI.

(* ------------------------------------------------------------------ *)
(** ** Checking a property on a range of integers *)

(** The day of the month, from the day within the 400-year cycle. *)
Definition day_in_cycle (doe : Z) : Z :=
  let yoe := (doe - doe / 1460 + doe / 36524 - doe / 146096) / 365 in
  let doy := doe - (365 * yoe + yoe / 4 - yoe / 100) in
  let mp := (5 * doy + 2) / 153 in
  doy - (153 * mp + 2) / 5 + 1.

(** The same computation in three steps: the first day of year [y] of the
    cycle, the year of a day of the cycle, and the day of the month of a
    day of a year that starts on 1 March. *)
Definition year_start (y : Z) : Z := 365 * y + y / 4 - y / 100.

Definition year_in_cycle (doe : Z) : Z :=
  (doe - doe / 1460 + doe / 36524 - doe / 146096) / 365.

Definition day_in_year (doy : Z) : Z :=
  let mp := (5 * doy + 2) / 153 in doy - (153 * mp + 2) / 5 + 1.

(** [f] holds on the [n] integers from [lo] on. *)
Fixpoint holds_from (f : Z -> bool) (lo : Z) (n : nat) : bool :=
  match n with
  | O => true
  | S n' => (f lo && holds_from f (lo + 1) n')%bool
  end.

Definition cmp_eqb (a b : comparison) : bool :=
  match a, b with Eq, Eq | Lt, Lt | Gt, Gt => true | _, _ => false end.

(* ------------------------------------------------------------------ *)
(** ** Induction over the recordings tree *)

Section NodeInduction.
Import FS.
Variable P : node -> Prop.
Hypothesis HFile : forall nm sz, P (File nm sz).
Hypothesis HDir : forall nm ks, Forall P ks -> P (Dir nm ks).

Fixpoint node_forall_ind (n : node) : P n :=
  match n with
  | File nm sz => HFile nm sz
  | Dir nm ks =>
      HDir nm ks
        ((fix all (l : list node) : Forall P l :=
            match l with
            | [] => Forall_nil P
            | k :: l' => Forall_cons k (node_forall_ind k) (all l')
            end) ks)
  end.
End NodeInduction.

(* ------------------------------------------------------------------ *)
(** ** Statements about the cleaner *)

Module StorageSpec.
Import GoTime FS Storage.

Definition always_ok : FS.path -> bool := fun _ => true.

Definition cleaner_with (R : Z) : Cleaner :=
  NewCleaner {| BasePath := "/recordings"; SegmentDuration := 1800;
                RetentionDays := R |}.

(** The date directory is strictly before the cutoff instant. *)
Definition is_old (cutoff : Time) (d : DirInfo) : bool := Before (date d) cutoff.

(** The paths of the date directories of a tree. *)
Definition partitions (tree : list node) : list FS.path :=
  map path (collect_dirs tree).

(** Retention as the specification words it, by calendar day: with
    [today] the local date, the partitions dated before [today - R] are
    gone and those dated [today - R] or later are still there. *)
Definition retention_by_day (tz : Z) (now : Time) (R : Z) (tree : list node) : Prop :=
  let today := local_day tz now in
  let r := cleanup always_ok (cleaner_with R) now tree in
  forall d D, In d (collect_dirs tree) -> date d = midnight_utc D ->
    (D < today - R -> ~ In (path d) (partitions (remaining r))) /\
    (today - R <= D -> In (path d) (partitions (remaining r))).

(** One camera with a partition for each of the given dates, each
    holding one segment of [sz] bytes. *)
Definition one_camera_sized (sz : Z) (dates : list string) : list node :=
  [Dir "cam1" [Dir "recordings"
     (map (fun d => Dir d [File "10-00-00.ts" sz]) dates)]].

Definition one_camera : list string -> list node := one_camera_sized 1000.

(** 2025-01-10 15:00:00 UTC. *)
Definition jan10_3pm : Time := day_number 2025 1 10 * Day + 15 * Hour.

(** A directory is left in the tree. *)
Definition kept (tree : list node) (d : DirInfo) : Prop := In d (collect_dirs tree).


Definition seen_not_recent (now_at : nat -> Time) (d : DirInfo) : Prop :=
  exists i, is_recent (now_at i) d = false.

(** The tree after [os.RemoveAll] of each of the directories in turn. *)
Definition remove_each (del : list DirInfo) (tree : list node) : list node :=
  fold_left (fun t d => RemoveAll (path d) t) del tree.

Definition six_days : list node :=
  one_camera ["2025-01-05"; "2025-01-06"; "2025-01-07";
              "2025-01-08"; "2025-01-09"; "2025-01-10"].

Definition GiB : Z := 2 ^ 30.

(** Ten daily partitions of 10 GiB on a 100 GiB volume with 3 GiB free:
    what is free grows by what is deleted. *)
Definition ten_days : list node :=
  one_camera_sized (10 * GiB)
    ["2025-01-01"; "2025-01-02"; "2025-01-03"; "2025-01-04"; "2025-01-05";
     "2025-01-06"; "2025-01-07"; "2025-01-08"; "2025-01-09"; "2025-01-10"].

Definition volume_100GiB (tree : list node) : option Statfs_t :=
  Some {| Blocks := 100 * GiB / 4096;
          Bavail := (103 * GiB - getDirSize tree) / 4096;
          Bsize := 4096 |}.

(** A volume that reads 92% used whatever is on it. *)
Definition volume_92_percent (tree : list node) : option Statfs_t :=
  Some {| Blocks := 100; Bavail := 8; Bsize := 4096 |}.

(** 2025-01-10 23:59:30 UTC, after the recorder has created the folder
    of the next day. *)
Definition jan10_before_midnight : Time :=
  day_number 2025 1 10 * Day + 23 * Hour + 59 * Minute + 30 * Second.

Definition around_midnight : list node := one_camera ["2025-01-10"; "2025-01-11"].

(** The disk-pressure sweep with retention disabled, as worded: at the
    critical level no directory whose name parses as a date is left. *)
Definition critical_sweep_leaves_nothing
    (statfs : list node -> option Statfs_t) (now : Time) (tree : list node) : Prop :=
  forall st, statfs tree = Some st -> alert_level st = DiskAlertCritical ->
    partitions
      (m_tree (MonitorDiskUsage always_ok statfs (cleaner_with 0) now
                 (fun _ => now) tree)) = [].

End StorageSpec.

(* ------------------------------------------------------------------ *)
(** ** Statements about the probe and the recovery manager *)

Module RecorderSpec.
Import GoTime Dirent Recorder.

(** An entry the probe looks at: a regular [.ts] file. *)
Definition is_segment (e : DirEntry) : bool :=
  (negb (IsDir e) && String.eqb (Filepath.Ext (Name e)) ".ts")%bool.

(** [t] is the newest modification time among the segments of a
    listing, and the zero time when there is none. *)
Definition newest_of (es : list DirEntry) (t : Time) : Prop :=
  zero <= t
  /\ (forall e i, In e es -> is_segment e = true -> Info e = Some i -> ModTime i <= t)
  /\ (t = zero \/
      exists e i, In e es /\ is_segment e = true /\ Info e = Some i /\ ModTime i = t).

(** The fallback as the specification words it: when today's partition
    holds no [.ts] file the probe answers from yesterday's. *)
Definition falls_back_when_no_segment
    (ReadDir : string -> option (list DirEntry)) (tz : Z) (r : Recorder.Recorder)
    (now : Time) : Prop :=
  forall es ys,
    ReadDir (recordDir r (today_str tz now)) = Some es ->
    (forall e, In e es -> is_segment e = false) ->
    ReadDir (recordDir r (yesterday_str tz now)) = Some ys ->
    GetLastRecordingTime ReadDir tz r now now = latest_ts ys.

Definition cam1 : Recorder.Recorder :=
  {| camera_Name := "cam1"; storage_BasePath := "/recordings" |}.

(** 2025-01-11 00:00:05 UTC. *)
Definition jan11_just_after_midnight : Time := day_number 2025 1 11 * Day + 5 * Second.

(** The last write of the previous day, at 23:59:58. *)
Definition jan10_last_write : Time :=
  day_number 2025 1 10 * Day + 23 * Hour + 59 * Minute + 58 * Second.

(** Just after midnight: the folder of the new day exists (the recorder
    made it a minute before midnight) and is still empty. *)
Definition after_midnight (dir : string) : option (list DirEntry) :=
  if String.eqb dir "/recordings/cam1/recordings/2025-01-11" then Some []
  else if String.eqb dir "/recordings/cam1/recordings/2025-01-10" then
    Some [ {| Name := "23-30-00.ts"; IsDir := false;
              Info := Some {| ModTime := jan10_last_write; Size := 4096 |} |} ]
  else None.

(** The same, had the folder of the new day not been created. *)
Definition no_folder_yet (dir : string) : option (list DirEntry) :=
  if String.eqb dir "/recordings/cam1/recordings/2025-01-11" then None
  else after_midnight dir.

End RecorderSpec.

Module RecoverySpec.
Import GoTime Recovery.

(** The three tiers, in the order [recoverCamera] tries them. *)
Definition ladder : list string :=
  ["goroutine_restart"; "service_restart"; "power_cycle"].

(** The actions started since the camera was last seen healthy. *)
Definition episode_step (acc : list string) (o : outcome) : list string :=
  match o with
  | Fresh | Recovered => []
  | Performed a => acc ++ [Action a]
  | _ => acc
  end.



Definition actions_of (st : CameraRecoveryState) : list string :=
  map Action (recoveryAttempts st).

(** What holds of the state of a camera between checks: its history is
    the start of the ladder climbed in the current episode, and it is
    empty while no failure is recorded. *)
Definition ladder_inv (st : CameraRecoveryState) (acc : list string) : Prop :=
  actions_of st = acc
  /\ (exists rest, acc ++ rest = ladder)
  /\ (failureDetectedAt st = zero -> recoveryAttempts st = []).

(** The instants at which a power cycle was started. *)
Definition power_cycle_stamps (tr : list outcome) : list Time :=
  flat_map (fun o =>
              match o with
              | Performed a =>
                  if String.eqb (Action a) "power_cycle" then [Timestamp a] else []
              | _ => []
              end) tr.

(** The stamps in the 30 minutes that end at [t]. *)
Definition in_window (t : Time) (stamps : list Time) : list Time :=
  filter (fun s => ((t - 30 * Minute <? s) && (s <=? t))%bool) stamps.

(** The rate cap as the specification words it. *)
Definition rate_cap_holds (cfg : RecoveryConfig) (ticks : list tick) : Prop :=
  forall t,
    Z.of_nat (List.length (in_window t (power_cycle_stamps (snd (run cfg initial ticks)))))
    <= MaxPowerCyclesPer30Min cfg.

(** The defaults of the configuration, with the given cap. *)
Definition defaults (cap : Z) : RecoveryConfig :=
  {| StaleThreshold := 600; VerificationDelay := 120; HealthCheckInterval := 60;
     MaxPowerCyclesPer30Min := cap; ServiceRestartTimeout := 30;
     PowerCycleRecoveryTimeout := 60 |}.

(** 2025-01-10 12:00:00 UTC. *)
Definition noon : Time := day_number 2025 1 10 * Day + 12 * Hour.

(** A check [s] seconds after noon that finds the newest segment
    written [w] seconds after noon. *)
Definition check_at (s w : Z) : tick :=
  {| lastRecording := noon + w * Second; clock := fun _ => noon + s * Second |}.

(** [n] checks a minute apart from second [s] on. *)
Fixpoint minutely (n : nat) (s w : Z) : list tick :=
  match n with
  | O => []
  | S n' => check_at s w :: minutely n' (s + 60) w
  end.

(** Two failures a quarter of an hour apart.  The camera is stale from
    noon on and climbs the ladder to a power cycle at 12:04:00; a segment
    written at 12:05 makes it healthy, nothing is written after that, and
    it climbs the ladder again to a power cycle at 12:19:00. *)
Definition two_failures : list tick :=
  minutely 5 0 (-700) ++ [check_at 310 300] ++ minutely 9 360 300
    ++ minutely 5 900 300.

End RecoverySpec.

(* ------------------------------------------------------------------ *)
(** ** Statements about the timeline *)

Module WebUISpec.
Import GoTime Dirent WebUI.

(** The last second of the day, 23:59:59. *)
Definition day_end : Z := 86399.

(** A segment as the timeline reports it, in seconds since midnight:
    its start and its end. *)
Definition span_of (seg : Segment) : Z * Z :=
  (clock_of (StartTime seg), clock_of (EndTime seg)).

(** The periods between each segment and the next, for segments in start
    order: from the end of one to the start of the next. *)
Fixpoint between (spans : list (Z * Z)) : list (Z * Z) :=
  match spans with
  | a :: (b :: _) as rest => (snd a, fst b) :: between rest
  | _ => []
  end.

(** The periods of the day to look at: midnight to the first start, the
    periods between consecutive segments, the last end to 23:59:59. *)
Definition candidate_periods (spans : list (Z * Z)) : list (Z * Z) :=
  match spans with
  | [] => []
  | first :: _ => (0, fst first) :: between spans ++ [(snd (last spans first), day_end)]
  end.

Definition longer_than_two_minutes (p : Z * Z) : bool := 120 <? snd p - fst p.

Definition gap_of (p : Z * Z) : Gap :=
  {| g_StartTime := render_clock (fst p); g_EndTime := render_clock (snd p);
     DurationMins := (snd p - fst p) / 60 |}.

Definition whole_day : Gap :=
  {| g_StartTime := "00:00:00"; g_EndTime := "23:59:59"; DurationMins := 1440 |}.

(** The gaps as the specification lists them. *)
Definition gaps_spec (spans : list (Z * Z)) : list Gap :=
  match spans with
  | [] => [whole_day]
  | _ => map gap_of (filter longer_than_two_minutes (candidate_periods spans))
  end.

(** The end of the segment that starts [c] seconds after midnight and
    lasts [d] seconds, clamped to the day. *)
Definition clamped_end (c d : Z) : Z := if 86400 <=? c + d then day_end else c + d.

(** The start of a segment, from the name of its file: the clock the
    first eight bytes spell, midnight when they spell none. *)
Definition start_clock (filename : string) : Z :=
  let timeStr := substring 0 8 filename in
  match parse_hms (substring 0 2 timeStr) (substring 3 2 timeStr)
                  (substring 6 2 timeStr) with
  | Some c => c
  | None => 0
  end.

(** An instant given by its day and its clock. *)
Definition at_clock (t : Time) (D c : Z) : Prop :=
  t = D * Day + c * Second /\ 0 <= c < 86400.

(** A file that [os.Stat] finds, with the start time read off its name. *)
Definition segment_of (p : Time * string) : Segment := segment_at (fst p) (snd p).

Definition by_clock (p : Time * string) : Z := clock_secs (fst p).

(** Segments are well formed: both times are printed clocks. *)
Definition well_formed (seg : Segment) : Prop :=
  exists a b, 0 <= a < 86400 /\ 0 <= b < 86400
              /\ StartTime seg = render_clock a /\ EndTime seg = render_clock b.

(** The start order of the timeline. *)
Definition starts_le (a b : Segment) : Prop :=
  clock_of (StartTime a) <= clock_of (StartTime b).

(** The end of a segment as the specification words it: the start plus the
    configured archive segment duration, clamped to the day. *)
Definition ends_after_configured (segment_duration : Z) (seg : Segment) : Prop :=
  EndTime seg
  = render_clock (clamped_end (clock_of (StartTime seg)) segment_duration).

(** A partition as [Glob] and [Stat] show it: the given files, each of
    4096 bytes, in one directory. *)
Definition glob_of (dir : string) (names : list string) (pattern : string)
  : option (list string) :=
  if String.eqb pattern (Filepath.Join [dir; "*.ts"])
  then Some (map (fun n => Filepath.Join [dir; n]) names) else Some [].

Definition stat_of (dir : string) (names : list string) (file : string)
  : option FileInfo :=
  if existsb (fun n => String.eqb file (Filepath.Join [dir; n])) names
  then Some {| ModTime := 0; Size := 4096 |} else None.

Definition jan10_dir : string := "/recordings/cam1/recordings/2025-01-10".

Definition two_segments : list string := ["08-45-00.ts"; "08-00-00.ts"].

(** The pattern both handlers hand to [Glob]. *)
Definition ts_pattern (BasePath camera date : string) : string :=
  Filepath.Join [Filepath.Join [BasePath; camera; "recordings"; date]; "*.ts"].

(** [os.Stat] finds the file. *)
Definition found (Stat : string -> option FileInfo) (file : string) : Prop :=
  Stat file <> None.

(** The end of every segment of the timeline as the specification words
    it, for a configured segment duration. *)
Definition timeline_ends_as_configured (segment_duration : Z)
    (Glob : string -> option (list string)) (Stat : string -> option FileInfo)
    (camera date : string) : Prop :=
  forall segs gaps mins,
    handleRecordingsTimeline "/recordings" Glob Stat camera date
    = Returned (Timeline camera date segs gaps mins) ->
    Forall (ends_after_configured segment_duration) segs.


End WebUISpec.

(* ------------------------------------------------------------------ *)
(** ** Package [config]: validation *)

Module Config.

Record CameraConfig := {
  Name : string;
  URL : string;
  Enabled : bool;
  RetryDelay : Z;
  MaxRetries : Z
}.

Record Config := {
  Storage : Storage.StorageConfig;
  Cameras : list CameraConfig
}.

(** The loop of [Validate] over the cameras: the error it returns, or
    the number of enabled cameras. *)
Fixpoint count_enabled (cams : list CameraConfig) (enabledCameras : Z) : string + Z :=
  match cams with
  | [] => inr enabledCameras
  | cam :: cams' =>
      if Enabled cam then
        if String.eqb (URL cam) ""
        then inl ("camera " ++ Name cam ++ ": URL is required")%string
        else count_enabled cams' (enabledCameras + 1)
      else count_enabled cams' enabledCameras
  end.

(** [Config.Validate]: [None] is the [nil] error. *)
Definition Validate (c : Config) : option string :=
  if String.eqb (Storage.BasePath (Storage c)) "" then
    Some "storage.base_path is required"
  else if Storage.SegmentDuration (Storage c) <? 60 then
    Some "segment_duration must be at least 60 seconds"
  else
    match count_enabled (Cameras c) 0 with
    | inl err => Some err
    | inr enabledCameras =>
        if enabledCameras =? 0
        then Some "at least one camera must be enabled"
        else None
    end.

(** The loop of [main] that starts the recorders: the cameras it starts
    one for, in order. *)
Fixpoint start_recorders (cams recorders : list CameraConfig) : list CameraConfig :=
  match cams with
  | [] => recorders
  | cam :: cams' =>
      if negb (Enabled cam) then start_recorders cams' recorders
      else start_recorders cams' (recorders ++ [cam])
  end.

End Config.

Module ConfigSpec.
Import Config.

(** Two cameras, the second one disabled and without a URL. *)
Definition front_door : CameraConfig :=
  {| Name := "front"; URL := "rtsp://10.0.0.5/stream"; Enabled := true;
     RetryDelay := 5; MaxRetries := -1 |}.

Definition spare : CameraConfig :=
  {| Name := "spare"; URL := ""; Enabled := false; RetryDelay := 5; MaxRetries := 3 |}.

Definition two_cameras : Config :=
  {| Storage := {| Storage.BasePath := "/recordings"; Storage.SegmentDuration := 1800;
                   Storage.RetentionDays := 7 |};
     Cameras := [front_door; spare] |}.

End ConfigSpec.

(* ------------------------------------------------------------------ *)
(** ** Package [auth]: sessions *)

Module Auth.
Import GoTime.

Record Session := { Username : string; CreatedAt : Time; ExpiresAt : Time }.

(** [map[string]*Session], by session id. *)
Definition sessions_map := string -> option Session.

Definition no_sessions : sessions_map := fun _ => None.

(** [m[id] = s] *)
Definition put (m : sessions_map) (id : string) (s : Session) : sessions_map :=
  fun k => if String.eqb k id then Some s else m k.

(** [delete(m, id)] *)
Definition delete (m : sessions_map) (id : string) : sessions_map :=
  fun k => if String.eqb k id then None else m k.

Record SessionManager := {
  sessions : sessions_map;
  timeout : Duration;
  username : string;
  passwordHash : string;
  secretKey : string
}.

Definition with_sessions (sm : SessionManager) (m : sessions_map) : SessionManager :=
  {| sessions := m; timeout := timeout sm; username := username sm;
     passwordHash := passwordHash sm; secretKey := secretKey sm |}.

(** [NewSessionManager] *)
Definition NewSessionManager (username passwordHash secretKey : string)
    (timeoutMinutes : Z) : SessionManager :=
  let timeoutMinutes := if timeoutMinutes <=? 0 then 60 else timeoutMinutes in
  {| sessions := no_sessions; timeout := timeoutMinutes * Minute;
     username := username; passwordHash := passwordHash; secretKey := secretKey |}.

Section Sessions.
(** [bcrypt.CompareHashAndPassword(hash, password) == nil] *)
Variable CompareHashAndPassword : string -> string -> bool.

(** [SessionManager.Authenticate] *)
Definition Authenticate (sm : SessionManager) (username password : string) : bool :=
  if negb (String.eqb username (Auth.username sm)) then false
  else CompareHashAndPassword (passwordHash sm) password.

(** [SessionManager.CreateSession]; [sessionID] is what
    [generateSessionID] returned, [None] for its error, and [now], [now']
    are the two readings of the clock. *)
Definition CreateSession (sm : SessionManager) (sessionID : option string)
    (username : string) (now now' : Time) : SessionManager * option string :=
  match sessionID with
  | None => (sm, None)
  | Some id =>
      let session := {| Username := username; CreatedAt := now;
                        ExpiresAt := Add now' (timeout sm) |} in
      (with_sessions sm (put (sessions sm) id session), Some id)
  end.

(** [SessionManager.ValidateSession] *)
Definition ValidateSession (sm : SessionManager) (sessionID : string) (now : Time) : bool :=
  match sessions sm sessionID with
  | None => false
  | Some session => if After now (ExpiresAt session) then false else true
  end.

(** [SessionManager.RefreshSession] *)
Definition RefreshSession (sm : SessionManager) (sessionID : string) (now : Time)
  : SessionManager :=
  match sessions sm sessionID with
  | Some session =>
      with_sessions sm
        (put (sessions sm) sessionID
           {| Username := Username session; CreatedAt := CreatedAt session;
              ExpiresAt := Add now (timeout sm) |})
  | None => sm
  end.

(** [SessionManager.DestroySession] *)
Definition DestroySession (sm : SessionManager) (sessionID : string) : SessionManager :=
  with_sessions sm (delete (sessions sm) sessionID).

(** One tick of [cleanupExpiredSessions]: every expired session is
    deleted from the map. *)
Definition cleanupExpiredSessions (sm : SessionManager) (now : Time) : SessionManager :=
  with_sessions sm
    (fun id => match sessions sm id with
               | Some session => if After now (ExpiresAt session) then None else Some session
               | None => None
               end).

(** What the middleware does with a request. *)
Inductive passage := RedirectToLogin | Next.

(** [SessionManager.AuthMiddleware], on the [session_id] cookie of the
    request ([None] when there is none); [now] is the clock read by
    [ValidateSession], [now'] the one read by [RefreshSession]. *)
Definition AuthMiddleware (sm : SessionManager) (cookie : option string)
    (now now' : Time) : SessionManager * passage :=
  match cookie with
  | None => (sm, RedirectToLogin)
  | Some id =>
      if negb (ValidateSession sm id now) then (sm, RedirectToLogin)
      else (RefreshSession sm id now', Next)
  end.

(** A request as the middleware sees it. *)
Record request := { cookie : option string; at_validate : Time; at_refresh : Time }.

(** The middleware over successive requests. *)
Fixpoint serve (sm : SessionManager) (reqs : list request)
  : SessionManager * list passage :=
  match reqs with
  | [] => (sm, [])
  | r :: reqs' =>
      let (sm', p) := AuthMiddleware sm (cookie r) (at_validate r) (at_refresh r) in
      let (final, ps) := serve sm' reqs' in
      (final, p :: ps)
  end.

(** The replies of [Server.handleLogin] to a POST. *)
Inductive login_reply :=
| Unauthorized
| SessionFailed
| LoggedIn (sessionID : string) (maxAge : Z).

(** [Server.handleLogin] for a POST whose form parses. *)
Definition handleLogin (sm : SessionManager) (username password : string)
    (remember : bool) (sessionID : option string) (now now' : Time)
  : SessionManager * login_reply :=
  if negb (Authenticate sm username password) then (sm, Unauthorized)
  else
    match CreateSession sm sessionID username now now' with
    | (sm', None) => (sm', SessionFailed)
    | (sm', Some id) =>
        let maxAge := if remember then 30 * 24 * 60 * 60 else 0 in
        (sm', LoggedIn id maxAge)
    end.

(** [Server.handleLogout]: the session of the cookie is destroyed. *)
Definition handleLogout (sm : SessionManager) (cookie : option string) : SessionManager :=
  match cookie with
  | Some id => DestroySession sm id
  | None => sm
  end.

End Sessions.
End Auth.

Module AuthSpec.
Import GoTime Auth.

(** Successive requests with the cookie [id], each one validated no later
    than the expiry that the one before it left: [deadline] is the expiry
    before the first of them. *)
Fixpoint in_time (id : string) (timeout : Duration) (deadline : Time)
    (reqs : list request) : Prop :=
  match reqs with
  | [] => True
  | r :: reqs' =>
      cookie r = Some id /\ at_validate r <= deadline
      /\ in_time id timeout (Add (at_refresh r) timeout) reqs'
  end.

(** [sm'] is [sm] without some of the sessions that expired before [now]. *)
Definition pruned (now : Time) (sm sm' : SessionManager) : Prop :=
  timeout sm' = timeout sm
  /\ forall id,
       sessions sm' id = sessions sm id
       \/ (sessions sm' id = None
           /\ exists s, sessions sm id = Some s /\ ExpiresAt s < now).

(** A password check that accepts one password. *)
Definition only_password (good : string) (hash password : string) : bool :=
  String.eqb password good.

Definition admin : SessionManager := NewSessionManager "admin" "$2a$10$hash" "key" 0.

(** 2025-01-10 12:00:00 UTC and the minutes after it. *)
Definition minutes_after_noon (m : Z) : Time := RecoverySpec.noon + m * Minute.

Definition request_at (id : string) (m : Z) : request :=
  {| cookie := Some id; at_validate := minutes_after_noon m;
     at_refresh := minutes_after_noon m |}.

End AuthSpec.

(* ------------------------------------------------------------------ *)
(** ** Package [recorder]: the retry loops and the next-day folder *)

Module RecorderLoops.
Import GoTime.

(** How a retry loop has ended; [Running] when it has not. *)
Inductive ending := ContextDone | MaxRetriesReached | Running.

(** One pass of the loop of [startRecording] and [startLiveStream]:
    whether the context is done when the pass starts, whether [record]
    (or [liveStream]) returns an error, and whether the context is done
    before the retry delay is over. *)
Record pass := { done_at_start : bool; fails : bool; done_in_wait : bool }.

(** The loop from a given [retryCount]: whether each call of [record]
    failed, in order, and how the loop ended. *)
Fixpoint retry_loop (camera : Config.CameraConfig) (retryCount : Z)
    (script : list pass) : list bool * ending :=
  match script with
  | [] => ([], Running)
  | p :: script' =>
      if done_at_start p then ([], ContextDone)
      else if ((0 <=? Config.MaxRetries camera)
               && (Config.MaxRetries camera <=? retryCount))%bool
      then ([], MaxRetriesReached)
      else if fails p then
        if done_in_wait p then ([true], ContextDone)
        else
          let (calls, e) := retry_loop camera (retryCount + 1) script' in
          (true :: calls, e)
      else
        let (calls, e) := retry_loop camera retryCount script' in
        (false :: calls, e)
  end.

(** [Recorder.startRecording] (and [Recorder.startLiveStream], which is
    the same loop around [liveStream]). *)
Definition startRecording (camera : Config.CameraConfig) (script : list pass)
  : list bool * ending :=
  retry_loop camera 0 script.

Definition failures (calls : list bool) : Z :=
  Z.of_nat (List.length (filter (fun failed => failed) calls)).

(** [time.Date(now.Year(), now.Month(), now.Day()+k, 0, 0, 0, 0,
    now.Location())] on a clock [tz] seconds east of UTC: the local
    midnight [k] days after the day of [now]. *)
Definition midnight_after (tz : Z) (now : Time) (k : Z) : Time :=
  (local_day tz now + k) * Day - tz * Second.

(** The time [createNextDayFolder] sleeps, computed at [now]. *)
Definition sleepDuration (tz : Z) (now : Time) : Duration :=
  let nextMidnight := midnight_after tz now 1 in
  let wakeTime := Add nextMidnight (-1 * Minute) in
  let sleepDuration := Sub wakeTime now in
  if sleepDuration <? 0 then
    let nextMidnight := midnight_after tz now 2 in
    let wakeTime := Add nextMidnight (-1 * Minute) in
    Sub wakeTime now
  else sleepDuration.

(** The name of the folder made when the clock reads [fired]. *)
Definition tomorrowStr (tz : Z) (fired : Time) : string :=
  format_date (local_day tz (Add fired (24 * Hour))).

(** By how much the timer and the two-minute pause of one round of the
    loop are late. *)
Record lateness := { timer_late : Duration; pause_late : Duration }.

(** [Recorder.createNextDayFolder] until the context is done: the
    folders it makes, one for each round. *)
Fixpoint createNextDayFolder (tz : Z) (now : Time) (rounds : list lateness)
  : list string :=
  match rounds with
  | [] => []
  | r :: rounds' =>
      let fired := now + sleepDuration tz now + timer_late r in
      tomorrowStr tz fired
        :: createNextDayFolder tz (fired + 2 * Minute + pause_late r) rounds'
  end.

End RecorderLoops.

(* ------------------------------------------------------------------ *)
(** ** Package [storage]: the rounds of [Start] *)

Module StorageRuns.
Import GoTime FS Storage.

(** The clock readings of one round of the loop of [Cleaner.Start]: for
    the alert bookkeeping of the monitor, for the cleanup the monitor may
    start, and for the regular cleanup after it. *)
Record reading := { at_monitor : Time; at_escalation : nat -> Time; at_cleanup : Time }.

Section Rounds.
Variable rm_ok : FS.path -> bool.
Variable statfs : list node -> option Statfs_t.

(** The alerts sent over successive rounds, each with its instant. *)
Fixpoint alerts (c : Cleaner) (tree : list node) (readings : list reading)
  : list (Time * Z) :=
  match readings with
  | [] => []
  | r :: readings' =>
      let m := MonitorDiskUsage rm_ok statfs c (at_monitor r) (at_escalation r) tree in
      let (c', tree') :=
        round rm_ok statfs c (at_monitor r) (at_escalation r) (at_cleanup r) tree in
      match m_alert m with
      | Some level => (at_monitor r, level) :: alerts c' tree' readings'
      | None => alerts c' tree' readings'
      end
  end.

End Rounds.

(** The rounds are in the order of the clock. *)
Fixpoint in_order (last : Time) (readings : list reading) : Prop :=
  match readings with
  | [] => True
  | r :: readings' => last <= at_monitor r /\ in_order (at_monitor r) readings'
  end.

(** An alert sent within the hour after another is of a higher level. *)
Definition escalates (a b : Time * Z) : Prop :=
  fst b - fst a <= 1 * Hour -> snd a < snd b.

End StorageRuns.

(* ------------------------------------------------------------------ *)
(** ** Package [webui]: the recordings API *)

Module WebAPI.
Import GoTime Dirent WebUI.

(** A reply of the recordings API: one of the replies above, or the list
    of dates of [handleRecordingDates]. *)
Inductive api_reply :=
| Reply (r : reply)
| Dates (camera : string) (dates : list string).

(** The loop of [handleRecordingDates] over the directory entries. *)
Fixpoint dates_loop (entries : list DirEntry) (dates : list string) : list string :=
  match entries with
  | [] => dates
  | entry :: entries' =>
      if (IsDir entry && Nat.eqb (String.length (Name entry)) 10)%bool then
        match parse_date (Name entry) with
        | Some _ => dates_loop entries' (dates ++ [Name entry])
        | None => dates_loop entries' dates
        end
      else dates_loop entries' dates
  end.

(** The loop of [handleRecordingPlaylist] that cuts the path at its
    slashes, from byte [i] of a path of [len] bytes on.  Go's [range]
    steps over the runes of the string with [i] the byte offset of each;
    the loop is taken here over a path of one-byte (ASCII) characters,
    where runes and bytes coincide. *)
Fixpoint parts_loop (rest : string) (i len : nat) (parts : list string)
    (current : string) : list string :=
  match rest with
  | EmptyString => parts
  | String ch rest' =>
      let '(parts1, current1) :=
        if Ascii.eqb ch "/" then
          if negb (String.eqb current "") then (parts ++ [current], EmptyString)
          else (parts, current)
        else (parts, (current ++ String ch EmptyString)%string) in
      let parts2 :=
        if (Nat.eqb i (len - 1) && negb (String.eqb current1 ""))%bool
        then parts1 ++ [current1] else parts1 in
      parts_loop rest' (S i) len parts2 current1
  end.

Definition playlist_parts (trimmed : string) : list string :=
  parts_loop trimmed 0 (String.length trimmed) [] "".

Section Routes.
Variable BasePath : string.
Variable wd : string.
Variable Glob : string -> option (list string).
Variable Stat : string -> option FileInfo.
Variable ReadDir : string -> option (list DirEntry).

(** [Server.handleRecordingDates], on the [camera] parameter of the query. *)
Definition handleRecordingDates (camera : string) : api_reply :=
  if String.eqb camera "" then
    Reply (Error "camera parameter required" StatusBadRequest)
  else
    let recordingsPath := Filepath.Join [BasePath; camera; "recordings"] in
    match ReadDir recordingsPath with
    | None => Reply (Error "Failed to read recordings" StatusInternalServerError)
    | Some entries => Dates camera (dates_loop entries [])
    end.

(** The loop of [handleAPIStorage] that counts the recording days of a
    camera. *)
Fixpoint days_loop (entries : list DirEntry) (days : Z) : Z :=
  match entries with
  | [] => days
  | entry :: entries' =>
      if (IsDir entry && Nat.eqb (String.length (Name entry)) 10)%bool
      then days_loop entries' (days + 1)
      else days_loop entries' days
  end.

(** The [days_stored] that [Server.handleAPIStorage] reports for a camera. *)
Definition days_stored (camera : string) : Z :=
  let cameraBasePath := Filepath.Join [BasePath; camera; "recordings"] in
  match ReadDir cameraBasePath with
  | Some entries => days_loop entries 0
  | None => 0
  end.

Definition lift (r : result reply) : result api_reply :=
  match r with
  | Panicked => Panicked
  | Returned x => Returned (Reply x)
  end.

(** [Server.handleRecordingsAPI], on [r.URL.Path] and the [camera] and
    [date] parameters of the query. *)
Definition handleRecordingsAPI (path camera date : string) : result api_reply :=
  if GoString.HasPrefix path "/api/recordings/playlist/" then
    lift (handleRecordingPlaylist BasePath wd Stat path)
  else if GoString.HasPrefix path "/api/recordings/timeline" then
    lift (handleRecordingsTimeline BasePath Glob Stat camera date)
  else if GoString.HasPrefix path "/api/recordings/list" then
    lift (handleRecordingsList BasePath Glob Stat camera date)
  else if GoString.HasPrefix path "/api/recordings/dates" then
    Returned (handleRecordingDates camera)
  else Returned (Reply (Error "Not found" StatusNotFound)).

End Routes.


End WebAPI.

(* ------------------------------------------------------------------ *)
(** ** Scenarios *)

Module Scenarios.
Import GoTime Dirent.

(** A session opened at noon with the default timeout of an hour, and
    requests 50, 100 and 150 minutes after noon. *)
Definition logged_in : Auth.SessionManager :=
  fst (Auth.CreateSession AuthSpec.admin (Some "s1") "admin"
         RecoverySpec.noon RecoverySpec.noon).

Definition noon_session : Auth.Session :=
  {| Auth.Username := "admin"; Auth.CreatedAt := RecoverySpec.noon;
     Auth.ExpiresAt := RecoverySpec.noon + 60 * Minute |}.

Definition three_requests : list Auth.request :=
  [AuthSpec.request_at "s1" 50; AuthSpec.request_at "s1" 100;
   AuthSpec.request_at "s1" 150].

(** A second session opened at 13:30, and requests with both cookies
    after the sessions were cleaned at 13:10. *)
Definition two_sessions : Auth.SessionManager :=
  fst (Auth.CreateSession logged_in (Some "s2") "admin"
         (AuthSpec.minutes_after_noon 90) (AuthSpec.minutes_after_noon 90)).

Definition later_requests : list Auth.request :=
  [AuthSpec.request_at "s1" 100; AuthSpec.request_at "s2" 120;
   AuthSpec.request_at "s2" 170].

(** A camera that may fail twice, and a run of its loop: a failure, a
    run that ends without error, a failure, and two more passes. *)
Definition two_retries : Config.CameraConfig :=
  {| Config.Name := "yard"; Config.URL := "rtsp://10.0.0.6/stream";
     Config.Enabled := true; Config.RetryDelay := 5; Config.MaxRetries := 2 |}.

Definition failing : RecorderLoops.pass :=
  {| RecorderLoops.done_at_start := false; RecorderLoops.fails := true;
     RecorderLoops.done_in_wait := false |}.

Definition succeeding : RecorderLoops.pass :=
  {| RecorderLoops.done_at_start := false; RecorderLoops.fails := false;
     RecorderLoops.done_in_wait := false |}.

(** 2025-01-11 04:00:00 UTC, which is 20:00 on 2025-01-10 on a clock
    eight hours west of UTC. *)
Definition jan10_8pm_pacific : Time := day_number 2025 1 11 * Day + 4 * Hour.

(** A timer that fires a second late. *)
Definition a_second_late : RecorderLoops.lateness :=
  {| RecorderLoops.timer_late := 1 * Second; RecorderLoops.pause_late := 0 |}.

(** Three rounds of the storage manager, ten minutes apart from noon on. *)
Definition round_at (m : Z) : StorageRuns.reading :=
  {| StorageRuns.at_monitor := AuthSpec.minutes_after_noon m;
     StorageRuns.at_escalation := fun _ => AuthSpec.minutes_after_noon m;
     StorageRuns.at_cleanup := AuthSpec.minutes_after_noon m |}.

Definition three_rounds : list StorageRuns.reading :=
  [round_at 0; round_at 10; round_at 20].

Definition retention_7_days : Storage.StorageConfig :=
  {| Storage.BasePath := "/recordings"; Storage.SegmentDuration := 1800;
     Storage.RetentionDays := 7 |}.

(** The folder of 2025-01-10 of the six-day tree. *)
Definition jan10_folder : Storage.DirInfo :=
  {| Storage.path := ["cam1"; "recordings"; "2025-01-10"];
     Storage.date := midnight_utc (day_number 2025 1 10);
     Storage.size := 1000 |}.

(** The recordings folder of a camera: two date folders, a folder and a
    file that are not. *)
Definition cam1_folders (dir : string) : option (list DirEntry) :=
  if String.eqb dir "/recordings/cam1/recordings" then
    Some [ {| Name := "2025-01-09"; IsDir := true; Info := None |};
           {| Name := "thumbnails"; IsDir := true; Info := None |};
           {| Name := "2025-13-01"; IsDir := true; Info := None |};
           {| Name := "2025-01-11"; IsDir := false; Info := None |};
           {| Name := "2025-01-10"; IsDir := true; Info := None |} ]
  else None.

(** What the list route answers for the two segments of 2025-01-10. *)
Definition two_recordings : list WebUI.Recording :=
  Eval vm_compute in
    match WebUI.handleRecordingsList "/recordings"
            (WebUISpec.glob_of WebUISpec.jan10_dir WebUISpec.two_segments)
            (WebUISpec.stat_of WebUISpec.jan10_dir WebUISpec.two_segments)
            "cam1" "2025-01-10" with
    | WebUI.Returned (WebUI.RecordingsList _ _ recs) => recs
    | _ => []
    end.

End Scenarios.

(* ================================================================== *)
(** * Properties *)

Example parse_unix_epoch : GoTime.parse_date "1970-01-01" = Some 719162.
Proof. reflexivity. Qed.

Example parse_leap_day : GoTime.parse_date "2024-02-29" = Some 738944.
Proof. reflexivity. Qed.

Example parse_no_leap_day : GoTime.parse_date "2025-02-29" = None.
Proof. reflexivity. Qed.

Example format_some_day : GoTime.format_date 738944 = "2024-02-29".
Proof. reflexivity. Qed.

Lemma flat_map_ext_Forall {A B : Type} (f g : A -> list B) (l : list A) :
  Forall (fun x => f x = g x) l -> flat_map f l = flat_map g l.
Proof.
  induction 1 as [|x l Hx _ IH]; simpl; [reflexivity|].
  now rewrite Hx, IH.
Qed.

(* ------------------------------------------------------------------ *)
(** ** Retention cleanup *)

Section CleanupFacts.
Import GoTime FS Storage StorageSpec.
Variable rm_ok : FS.path -> bool.
Variable cutoff : Time.


(** Everything the walk deletes is a date directory before the cutoff. *)
Lemma cleanup_visit_deleted_old n : forall pre d,
  In d (snd (cleanup_visit rm_ok cutoff pre n)) -> is_old cutoff d = true.
Proof.
  induction n as [nm sz|nm ks IH] using node_forall_ind; intros pre d; simpl.
  - intros [].
  - assert (Hbelow : In d (flat_map (fun k => snd (cleanup_visit rm_ok cutoff (pre ++ [nm]) k)) ks) ->
                     is_old cutoff d = true).
    { intros Hin. apply in_flat_map in Hin.
      destruct Hin as [k [Hk Hd]]. rewrite Forall_forall in IH.
      exact (IH k Hk _ _ Hd). }
    destruct (dir_date nm) as [dd|]; [|exact Hbelow].
    destruct (Before dd cutoff) eqn:Hb; [|exact Hbelow].
    destruct (rm_ok (pre ++ [nm])); simpl.
    + intros [<-|[]]. exact Hb.
    + intros [].
Qed.

Hypothesis rm_always : forall p, rm_ok p = true.

(** A date directory found by the collecting walk and before the cutoff
    is deleted, with the size that walk computed for it. *)
Lemma cleanup_visit_deletes n : forall pre d,
  In d (collect_visit pre n) -> is_old cutoff d = true ->
  In d (snd (cleanup_visit rm_ok cutoff pre n)).
Proof.
  induction n as [nm sz|nm ks IH] using node_forall_ind; intros pre d; simpl.
  - intros [].
  - destruct (dir_date nm) as [dd|].
    + intros [<-|[]] Hold. unfold is_old in Hold. simpl in Hold.
      rewrite Hold, rm_always. now left.
    + intros Hin Hold. cbn [snd]. apply in_flat_map.
      apply in_flat_map in Hin. destruct Hin as [k [Hk Hd]].
      exists k. split; [exact Hk|]. rewrite Forall_forall in IH.
      now apply IH.
Qed.

(** The date directories left are the former ones not before the cutoff. *)
Lemma cleanup_visit_remaining n : forall pre,
  map path (flat_map (collect_visit pre) (fst (cleanup_visit rm_ok cutoff pre n)))
  = map path (filter (fun d => negb (is_old cutoff d)) (collect_visit pre n)).
Proof.
  induction n as [nm sz|nm ks IH] using node_forall_ind; intros pre; simpl.
  - reflexivity.
  - destruct (dir_date nm) as [dd|] eqn:Hd.
    + unfold is_old at 1. simpl.
      destruct (Before dd cutoff) eqn:Hb; simpl.
      * now rewrite rm_always.
      * now rewrite Hd.
    + simpl. rewrite Hd, app_nil_r.
      induction IH as [|k ks Hk _ IHks]; simpl; [reflexivity|].
      rewrite !flat_map_app, filter_app, !map_app.
      now rewrite Hk, IHks.
Qed.

End CleanupFacts.

Section RetentionDays.
Import GoTime FS Storage StorageSpec.

Lemma Day_pos : 0 < Day.
Proof. reflexivity. Qed.

(** The cutoff test in calendar terms, for a clock on UTC. *)
Lemma before_cutoff_by_day (now : Time) (R D : Z) :
  let today := local_day 0 now in
  let old := Before (midnight_utc D) (AddDate_days now (- R)) in
  (D < today - R -> old = true) /\
  (today - R < D -> old = false) /\
  (D = today - R -> (old = true <-> midnight_utc today < now)).
Proof.
  cbv zeta. unfold local_day, Before, AddDate_days, midnight_utc.
  replace (now + 0 * Second) with now by lia.
  pose proof Day_pos as Hd.
  pose proof (Z.mul_div_le now Day Hd) as Hlo.
  pose proof (Z.mul_succ_div_gt now Day Hd) as Hhi.
  set (q := now / Day) in *.
  repeat split.
  - intros H. apply Z.ltb_lt. nia.
  - intros H. apply Z.ltb_ge. nia.
  - subst D. intros H. apply Z.ltb_lt in H. nia.
  - subst D. intros H. apply Z.ltb_lt. nia.
Qed.

Lemma cleanup_walk_spec (rm_ok : FS.path -> bool) (cutoff : Time) (tree : list node) :
  (forall p, rm_ok p = true) ->
  let r := cleanup_walk rm_ok cutoff tree in
  partitions (remaining r)
    = map path (filter (fun d => negb (is_old cutoff d)) (collect_dirs tree))
  /\ (forall d, In d (collect_dirs tree) -> is_old cutoff d = true -> In d (deleted r))
  /\ (forall d, In d (deleted r) -> is_old cutoff d = true).
Proof.
  intros Hrm. cbv zeta. unfold cleanup_walk, partitions, collect_dirs. simpl.
  repeat split.
  - induction tree as [|k tree IH]; simpl; [reflexivity|].
    rewrite !flat_map_app, filter_app, !map_app, IH.
    now rewrite (cleanup_visit_remaining rm_ok cutoff Hrm).
  - intros d Hin Hold. apply in_flat_map in Hin. destruct Hin as [k [Hk Hd]].
    apply in_flat_map. exists k. split; [exact Hk|].
    now apply cleanup_visit_deletes.
  - intros d Hin. apply in_flat_map in Hin. destruct Hin as [k [Hk Hd]].
    now apply (cleanup_visit_deleted_old rm_ok cutoff k [] d).
Qed.

End RetentionDays.

Section Retention.
Import GoTime FS Storage StorageSpec.

(** C1, as amended.  After a cleanup pass at instant [now] with retention
    horizon [R] in which every removal succeeds, the date directories
    deleted are exactly those whose date, read as midnight UTC, is
    strictly before [now - R days]: the date directories left are the
    former ones not before that instant, each one before it is in the
    deletion record, and nothing else is.  By calendar day on a UTC
    clock: a partition dated before [today - R] is before the cutoff, one
    dated after [today - R] is not, and the one dated [today - R] is
    before it as soon as [now] is past midnight. *)
Theorem cleanup_deletes_before_cutoff
    (rm_ok : FS.path -> bool) (c : Cleaner) (now : Time) (tree : list node) :
  (forall p, rm_ok p = true) ->
  let R := RetentionDays (config c) in
  let cutoff := AddDate_days now (- R) in
  let today := local_day 0 now in
  let r := cleanup rm_ok c now tree in
  partitions (remaining r)
    = map path (filter (fun d => negb (is_old cutoff d)) (collect_dirs tree))
  /\ (forall d, In d (collect_dirs tree) -> is_old cutoff d = true -> In d (deleted r))
  /\ (forall d, In d (deleted r) -> is_old cutoff d = true)
  /\ (forall D,
        (D < today - R -> Before (midnight_utc D) cutoff = true) /\
        (today - R < D -> Before (midnight_utc D) cutoff = false) /\
        (D = today - R ->
           (Before (midnight_utc D) cutoff = true <-> midnight_utc today < now))).
Proof.
  intros Hrm. cbv zeta.
  destruct (cleanup_walk_spec rm_ok
              (AddDate_days now (- RetentionDays (config c))) tree Hrm)
    as [H1 [H2 H3]].
  unfold cleanup. repeat split; try assumption;
    destruct (before_cutoff_by_day now (RetentionDays (config c)) D)
      as [Ha [Hb Hc]]; auto; apply Hc; assumption.
Qed.

(** The theorem at the six-day scenario of the specification, at 15:00
    UTC with a horizon of two days: 2025-01-09 and 2025-01-10 are left. *)
Lemma cleanup_six_days_witness :
  partitions (remaining (cleanup always_ok (cleaner_with 2) jan10_3pm six_days))
  = [["cam1"; "recordings"; "2025-01-09"]; ["cam1"; "recordings"; "2025-01-10"]].
Proof.
  destruct (cleanup_deletes_before_cutoff always_ok (cleaner_with 2)
              jan10_3pm six_days (fun p => eq_refl)) as [H _].
  rewrite H. vm_compute. reflexivity.
Defined.

(** C1, counterexample.  At 15:00 UTC on 2025-01-10 with a horizon of two
    days the partition dated 2025-01-08, which is [today - 2], is deleted
    although the statement by calendar day keeps it. *)
Lemma retention_by_day_fails : ~ retention_by_day 0 jan10_3pm 2 six_days.
Proof.
  intros H.
  destruct (H {| path := ["cam1"; "recordings"; "2025-01-08"];
                 date := midnight_utc (day_number 2025 1 8);
                 size := 1000 |} (day_number 2025 1 8)) as [_ Hkeep].
  - vm_compute. tauto.
  - reflexivity.
  - assert (Hle : local_day 0 jan10_3pm - 2 <= day_number 2025 1 8)
      by (vm_compute; discriminate).
    specialize (Hkeep Hle). vm_compute in Hkeep.
    destruct Hkeep as [E|[E|[]]]; discriminate E.
Qed.

End Retention.

(* ------------------------------------------------------------------ *)
(** ** The hand-written sort sorts *)

Section SortFacts.
Import ExchangeSort.
Context {A : Type}.
Variable key : A -> Z.

Lemma nth_error_middle (pre : list A) x rest :
  nth_error (pre ++ x :: rest) (List.length pre) = Some x.
Proof. induction pre; simpl; auto. Qed.

Lemma store_middle (pre : list A) x rest y :
  store (pre ++ x :: rest) (List.length pre) y = pre ++ y :: rest.
Proof. induction pre; simpl; [reflexivity|]. now rewrite IHpre. Qed.

Lemma store_length (a : list A) i x : List.length (store a i x) = List.length a.
Proof.
  revert i; induction a as [|y a IH]; intros [|i]; simpl; auto.
Qed.

Lemma step_length gt (a : list A) i j : List.length (step gt a i j) = List.length a.
Proof.
  unfold step. destruct (nth_error a i), (nth_error a j); auto.
  destruct (gt _ _); auto. now rewrite !store_length.
Qed.

Lemma inner_length gt n : forall (a : list A) i j,
  List.length (inner gt n a i j) = List.length a.
Proof.
  induction n as [|n IH]; intros; simpl; [reflexivity|].
  now rewrite IH, step_length.
Qed.

Lemma length_middle (pre : list A) x done :
  List.length (pre ++ x :: done) = (List.length pre + 1 + List.length done)%nat.
Proof. rewrite length_app. simpl. lia. Qed.

(** The inner loop, on the slice cut at [i] and [j]. *)
Lemma inner_sweep gt : forall (todo done pre : list A) x,
  inner gt (List.length todo) (pre ++ x :: done ++ todo)
    (List.length pre) (List.length pre + 1 + List.length done)
  = pre ++ fst (sweep gt x todo) :: done ++ snd (sweep gt x todo).
Proof.
  induction todo as [|y todo IH]; intros done pre x; simpl.
  - reflexivity.
  - assert (Hj : nth_error (pre ++ x :: done ++ y :: todo)
                   (List.length pre + 1 + List.length done) = Some y).
    { rewrite <- length_middle with (x := x).
      change (pre ++ x :: done ++ y :: todo) with (pre ++ (x :: done) ++ y :: todo).
      rewrite app_assoc. apply nth_error_middle. }
    assert (Hnext : forall z : A,
               S (List.length pre + 1 + List.length done)
               = (List.length pre + 1 + List.length (done ++ [z]))%nat).
    { intros z. rewrite length_app. simpl. lia. }
    unfold step at 1. rewrite nth_error_middle, Hj.
    destruct (gt x y).
    + rewrite store_middle.
      rewrite <- length_middle with (x := y) at 1.
      change (pre ++ y :: done ++ y :: todo) with (pre ++ (y :: done) ++ y :: todo).
      rewrite app_assoc, store_middle, <- app_assoc. simpl.
      rewrite (Hnext x).
      replace (done ++ x :: todo) with ((done ++ [x]) ++ todo)
        by (rewrite <- app_assoc; reflexivity).
      rewrite IH. destruct (sweep gt y todo) as [m r]. simpl.
      now rewrite <- app_assoc.
    + rewrite (Hnext y).
      replace (done ++ y :: todo) with ((done ++ [y]) ++ todo)
        by (rewrite <- app_assoc; reflexivity).
      rewrite IH. destruct (sweep gt x todo) as [m r]. simpl.
      now rewrite <- app_assoc.
Qed.

Lemma sweep_length gt : forall (l : list A) x,
  List.length (snd (sweep gt x l)) = List.length l.
Proof.
  induction l as [|y l IH]; intros x; simpl; [reflexivity|].
  destruct (gt x y).
  - specialize (IH y). destruct (sweep gt y l); simpl in *. now rewrite IH.
  - specialize (IH x). destruct (sweep gt x l); simpl in *. now rewrite IH.
Qed.

Lemma outer_done gt : forall n (a : list A) i,
  (List.length a <= S i)%nat -> outer gt n a i = a.
Proof.
  induction n as [|n IH]; intros a i Hi; simpl; [reflexivity|].
  replace (List.length a - S i)%nat with O by lia. simpl.
  apply IH. lia.
Qed.

(** The outer loop, on the slice cut at [i]. *)
Lemma outer_passes gt : forall n (l pre : list A),
  outer gt n (pre ++ l) (List.length pre) = pre ++ passes gt n l.
Proof.
  induction n as [|n IH]; intros l pre; simpl.
  - now destruct l.
  - destruct l as [|x l].
    + replace (List.length (pre ++ []) - S (List.length pre))%nat with O
        by (rewrite app_nil_r; lia).
      simpl. apply outer_done. rewrite app_nil_r. lia.
    + replace (List.length (pre ++ x :: l) - S (List.length pre))%nat
        with (List.length l) by (rewrite length_middle; lia).
      pose proof (inner_sweep gt l [] pre x) as Hin. simpl in Hin.
      replace (List.length pre + 1 + 0)%nat with (S (List.length pre)) in Hin by lia.
      rewrite Hin. destruct (sweep gt x l) as [m r]. simpl.
      specialize (IH r (pre ++ [m])).
      rewrite length_app in IH. simpl in IH.
      replace (List.length pre + 1)%nat with (S (List.length pre)) in IH by lia.
      rewrite <- app_assoc in IH. simpl in IH. rewrite IH.
      now rewrite <- app_assoc.
Qed.

Lemma sort_passes gt (a : list A) : sort gt a = passes gt (List.length a - 1) a.
Proof. unfold sort. exact (outer_passes gt _ a []). Qed.

(** One sweep brings a least element to the front. *)
Lemma sweep_min : forall (l : list A) x,
  let (m, r) := sweep (key_gt key) x l in
  Permutation (x :: l) (m :: r) /\ key m <= key x /\ Forall ((key_le key) m) r.
Proof.
  induction l as [|y l IH]; intros x; simpl.
  - repeat split; auto. lia.
  - unfold key_gt at 1. destruct (key y <? key x) eqn:E.
    + apply Z.ltb_lt in E. specialize (IH y).
      destruct (sweep (key_gt key) y l) as [m r]. destruct IH as [Hp [Hm Hr]].
      repeat split.
      * etransitivity; [apply perm_skip; exact Hp | apply perm_swap].
      * lia.
      * constructor; [unfold key_le; lia | exact Hr].
    + apply Z.ltb_ge in E. specialize (IH x).
      destruct (sweep (key_gt key) x l) as [m r]. destruct IH as [Hp [Hm Hr]].
      repeat split.
      * etransitivity; [apply perm_swap|].
        etransitivity; [apply perm_skip; exact Hp | apply perm_swap].
      * exact Hm.
      * constructor; [unfold key_le; lia | exact Hr].
Qed.

Lemma passes_sorted : forall n (l : list A),
  (List.length l <= S n)%nat ->
  Permutation l (passes (key_gt key) n l) /\ StronglySorted (key_le key) (passes (key_gt key) n l).
Proof.
  induction n as [|n IH]; intros l Hn.
  - destruct l as [|x [|y l]]; simpl in *; try lia;
      split; auto; repeat constructor.
  - destruct l as [|x l]; simpl; [split; auto; constructor|].
    pose proof (sweep_min l x) as Hs. pose proof (sweep_length (key_gt key) l x) as Hl.
    destruct (sweep (key_gt key) x l) as [m r]. simpl in Hl.
    destruct Hs as [Hp [Hm Hr]].
    destruct (IH r) as [Hp' Hs']; [simpl in Hn; lia|].
    split.
    + rewrite Hp. now apply perm_skip.
    + constructor; [exact Hs'|].
      eapply Permutation_Forall; [exact Hp'|exact Hr].
Qed.

(** The sort returns its input rearranged in ascending key order. *)
Lemma sort_correct (a : list A) :
  Permutation a (sort (key_gt key) a) /\ StronglySorted (key_le key) (sort (key_gt key) a).
Proof.
  rewrite sort_passes. apply passes_sorted. lia.
Qed.

End SortFacts.

(* ------------------------------------------------------------------ *)
(** ** Removing a date directory from the tree *)

Section RemoveFacts.
Import GoTime FS Storage StorageSpec.

Lemma path_eqb_eq p q : path_eqb p q = true <-> p = q.
Proof.
  unfold path_eqb. destruct (list_eq_dec string_dec p q); split; congruence.
Qed.

Lemma path_eqb_refl p : path_eqb p p = true.
Proof. now apply path_eqb_eq. Qed.

(** The collecting walk reports paths below the node it starts from. *)
Lemma collect_visit_prefix n : forall pre d,
  In d (collect_visit pre n) -> exists s, path d = pre ++ name_of n :: s.
Proof.
  induction n as [nm sz|nm ks IH] using node_forall_ind; intros pre d; simpl.
  - intros [].
  - destruct (dir_date nm).
    + intros [<-|[]]. now exists [].
    + intros Hin. apply in_flat_map in Hin. destruct Hin as [k [Hk Hd]].
      rewrite Forall_forall in IH. destruct (IH k Hk _ _ Hd) as [s Hs].
      exists (name_of k :: s). now rewrite Hs, <- app_assoc.
Qed.

Lemma collect_visit_shape n : forall pre d,
  In d (collect_visit pre n) ->
  exists q, path d = pre ++ q /\ is_partition_path q = true.
Proof.
  induction n as [nm sz|nm ks IH] using node_forall_ind; intros pre d; simpl.
  - intros [].
  - destruct (dir_date nm) as [dd|] eqn:Hd.
    + intros [<-|[]]. exists [nm]. simpl. now rewrite Hd.
    + intros Hin. apply in_flat_map in Hin. destruct Hin as [k [Hk Hin]].
      rewrite Forall_forall in IH. destruct (IH k Hk _ _ Hin) as [q [Hq Hs]].
      exists (nm :: q). split; [now rewrite Hq, <- app_assoc|].
      simpl. rewrite Hd. destruct q; [discriminate Hs|exact Hs].
Qed.

Lemma collect_dirs_shape tree d :
  In d (collect_dirs tree) -> is_partition_path (path d) = true.
Proof.
  unfold collect_dirs. intros Hin. apply in_flat_map in Hin.
  destruct Hin as [k [_ Hd]]. apply collect_visit_shape in Hd.
  destruct Hd as [q [-> Hq]]. exact Hq.
Qed.

Lemma filter_all_true {A : Type} (f : A -> bool) (l : list A) :
  (forall x, In x l -> f x = true) -> filter f l = l.
Proof.
  induction l as [|x l IH]; intros H; simpl; [reflexivity|].
  rewrite (H x (or_introl eq_refl)). f_equal. apply IH.
  intros y Hy. apply H. now right.
Qed.

(** Removing the date directory at [pre ++ q] takes exactly the
    directories with that path out of what the walk collects. *)
Lemma collect_remove_node n : forall pre q,
  is_partition_path q = true ->
  flat_map (collect_visit pre) (remove_node q n)
  = filter (fun d => negb (path_eqb (path d) (pre ++ q))) (collect_visit pre n).
Proof.
  induction n as [nm sz|nm ks IH] using node_forall_ind; intros pre q Hq.
  - destruct q as [|x q]; [discriminate Hq|]. simpl.
    destruct (String.eqb nm x); [destruct q|]; reflexivity.
  - destruct q as [|x q]; [discriminate Hq|].
    cbn [remove_node name_of].
    destruct (String.eqb nm x) eqn:Hx.
    + apply String.eqb_eq in Hx. subst x.
      destruct q as [|y q].
      * simpl in Hq. simpl. destruct (dir_date nm); [|discriminate Hq].
        simpl. now rewrite path_eqb_refl.
      * simpl in Hq. cbn [flat_map collect_visit].
        destruct (dir_date nm); [discriminate Hq|].
        rewrite app_nil_r.
        replace (pre ++ nm :: y :: q) with ((pre ++ [nm]) ++ y :: q)
          by now rewrite <- app_assoc.
        induction IH as [|k ks Hk _ IHks]; cbn [flat_map]; [reflexivity|].
        rewrite flat_map_app, filter_app, IHks. f_equal.
        now apply Hk.
    + cbn [flat_map]. rewrite app_nil_r. symmetry. apply filter_all_true.
      intros d Hd. apply collect_visit_prefix in Hd. destruct Hd as [s Hs].
      apply negb_true_iff. destruct (path_eqb (path d) (pre ++ x :: q)) eqn:E; [|reflexivity].
      apply path_eqb_eq in E. rewrite Hs in E. apply app_inv_head in E.
      injection E as E _. simpl in E. subst x.
      now rewrite String.eqb_refl in Hx.
Qed.

Lemma collect_RemoveAll p tree :
  is_partition_path p = true ->
  collect_dirs (RemoveAll p tree)
  = filter (fun d => negb (path_eqb (path d) p)) (collect_dirs tree).
Proof.
  intros Hp. unfold collect_dirs, RemoveAll.
  induction tree as [|k tree IH]; cbn [flat_map]; [reflexivity|].
  rewrite flat_map_app, filter_app, IH. f_equal.
  exact (collect_remove_node k [] p Hp).
Qed.

End RemoveFacts.

(* ------------------------------------------------------------------ *)
(** ** Emergency prune *)

Section PruneFacts.
Import GoTime FS Storage StorageSpec ExchangeSort.
Variable rm_ok : FS.path -> bool.
Variable statfs : list node -> option Statfs_t.
Variable now_at : nat -> Time.
Variable total : Z.
Hypothesis rm_always : forall p, rm_ok p = true.
Hypothesis statfs_ok : forall t, statfs t <> None.


(** The date directories left after removing some of them. *)
Lemma collect_remove_each : forall del tree,
  Forall (fun d => is_partition_path (path d) = true) del ->
  collect_dirs (remove_each del tree)
  = filter (fun e => forallb (fun d => negb (path_eqb (path e) (path d))) del)
      (collect_dirs tree).
Proof.
  induction del as [|d del IH]; intros tree Hshape; simpl.
  - symmetry. now apply filter_all_true.
  - inversion Hshape as [|? ? Hd Hdel]; subst.
    unfold remove_each in IH. rewrite IH by exact Hdel.
    rewrite collect_RemoveAll by exact Hd.
    induction (collect_dirs tree) as [|e l IHl]; simpl; [reflexivity|].
    destruct (path_eqb (path e) (path d)); simpl; [exact IHl|].
    destruct (forallb _ del); [now rewrite IHl|exact IHl].
Qed.

End PruneFacts.

Section EmergencyPrune.
Import GoTime FS Storage StorageSpec ExchangeSort.

(** The date of a collected directory is the date its name spells. *)
Lemma collect_visit_date n : forall pre d,
  In d (collect_visit pre n) -> dir_date (last (path d) "") = Some (date d).
Proof.
  induction n as [nm sz|nm ks IH] using node_forall_ind; intros pre d; simpl.
  - intros [].
  - destruct (dir_date nm) as [dd|] eqn:Hd.
    + intros [<-|[]]. simpl. now rewrite last_last.
    + intros Hin. apply in_flat_map in Hin. destruct Hin as [k [Hk Hin]].
      rewrite Forall_forall in IH. exact (IH k Hk _ _ Hin).
Qed.

Lemma collect_dirs_date tree d :
  In d (collect_dirs tree) -> dir_date (last (path d) "") = Some (date d).
Proof.
  unfold collect_dirs. intros Hin. apply in_flat_map in Hin.
  destruct Hin as [k [_ Hd]]. exact (collect_visit_date k [] d Hd).
Qed.



End EmergencyPrune.

Section DiskPressure.
Import GoTime FS Storage StorageSpec ExchangeSort.

(** The prune on the 100 GiB volume: one deletion restores the floor. *)
Example prune_ten_days :
  option_map (fun r => (map path (p_deleted r), p_stopped r))
    (emergencyCleanup always_ok volume_100GiB (fun _ => jan10_3pm) ten_days)
  = Some ([["cam1"; "recordings"; "2025-01-01"]], true).
Proof. vm_compute. reflexivity. Qed.


Lemma alert_level_critical (st : Statfs_t) :
  alert_level st = DiskAlertCritical
  <-> percent_ge st 90 = true /\ percent_ge st 95 = false.
Proof.
  unfold alert_level.
  destruct (percent_ge st 95); [split; [discriminate|intros [_ H]; discriminate]|].
  destruct (percent_ge st 90); [split; auto|].
  destruct (percent_ge st 80); split; try discriminate; intros [H _]; discriminate.
Qed.

(** C9, as amended.  At the critical level (at least 90% and less than
    95% used) the monitor runs the cleanup pass whatever the retention
    horizon is.  With a horizon of 0 the cutoff is the instant of the
    pass: when every removal succeeds, the date directories left are
    exactly the former ones whose date, read as midnight UTC, is not
    strictly before that instant, and each one before it is deleted.  On
    a UTC clock that takes the partitions dated before today and, once
    past midnight, today's; a directory dated after today, as the folder
    the recorder creates for the next day, stays. *)
Theorem critical_level_runs_cleanup
    (rm_ok : FS.path -> bool) (statfs : list node -> option Statfs_t)
    (c : Cleaner) (now : Time) (now_at : nat -> Time)
    (tree : list node) (st : Statfs_t) :
  (forall p, rm_ok p = true) ->
  statfs tree = Some st ->
  percent_ge st 90 = true -> percent_ge st 95 = false ->
  let m := MonitorDiskUsage rm_ok statfs c now now_at tree in
  let r := cleanup rm_ok c (now_at 0%nat) tree in
  let today := local_day 0 (now_at 0%nat) in
  m_escalation m = RanCleanup r
  /\ m_tree m = remaining r
  /\ (RetentionDays (config c) = 0 ->
        partitions (m_tree m)
          = map path (filter (fun d => negb (is_old (now_at 0%nat) d)) (collect_dirs tree))
        /\ (forall d, In d (collect_dirs tree) -> is_old (now_at 0%nat) d = true ->
              In d (deleted r))
        /\ (forall D,
              (D < today -> Before (midnight_utc D) (now_at 0%nat) = true) /\
              (today < D -> Before (midnight_utc D) (now_at 0%nat) = false) /\
              (D = today -> (Before (midnight_utc D) (now_at 0%nat) = true
                             <-> midnight_utc today < now_at 0%nat)))).
Proof.
  intros Hrm Hst H90 H95. cbv zeta.
  assert (Hlevel : alert_level st = DiskAlertCritical)
    by (apply alert_level_critical; now split).
  unfold MonitorDiskUsage. rewrite Hst, Hlevel. simpl.
  split; [reflexivity|]. split; [reflexivity|].
  intros HR.
  assert (Hcut : AddDate_days (now_at 0%nat) (- RetentionDays (config c)) = now_at 0%nat)
    by (rewrite HR; unfold AddDate_days; lia).
  destruct (cleanup_walk_spec rm_ok (now_at 0%nat) tree Hrm) as [H1 [H2 _]].
  unfold cleanup. rewrite Hcut.
  split; [exact H1|]. split; [exact H2|].
  intros D.
  pose proof (before_cutoff_by_day (now_at 0%nat) 0 D) as H4. cbv zeta in H4.
  unfold AddDate_days in H4.
  replace (now_at 0%nat + - 0 * Day) with (now_at 0%nat) in H4 by lia.
  replace (local_day 0 (now_at 0%nat) - 0) with (local_day 0 (now_at 0%nat)) in H4 by lia.
  exact H4.
Qed.

(** The theorem half a minute before midnight, with retention disabled:
    today's partition goes, the folder for tomorrow stays. *)
Lemma critical_sweep_witness :
  partitions
    (m_tree (MonitorDiskUsage always_ok volume_92_percent (cleaner_with 0)
               jan10_before_midnight (fun _ => jan10_before_midnight)
               around_midnight))
  = [["cam1"; "recordings"; "2025-01-11"]].
Proof.
  destruct (critical_level_runs_cleanup always_ok volume_92_percent
              (cleaner_with 0) jan10_before_midnight
              (fun _ => jan10_before_midnight) around_midnight
              {| Blocks := 100; Bavail := 8; Bsize := 4096 |}
              (fun p => eq_refl) eq_refl eq_refl eq_refl) as [_ [_ H]].
  destruct (H eq_refl) as [H1 _]. rewrite H1. vm_compute. reflexivity.
Defined.

(** C9, counterexample.  Half a minute before midnight the folder that
    the recorder has created for the next day parses as a date and is
    not deleted by the sweep. *)
Lemma critical_sweep_keeps_tomorrow :
  ~ critical_sweep_leaves_nothing volume_92_percent jan10_before_midnight
      around_midnight.
Proof.
  intros H.
  specialize (H {| Blocks := 100; Bavail := 8; Bsize := 4096 |} eq_refl eq_refl).
  vm_compute in H. discriminate H.
Qed.

End DiskPressure.

(* ------------------------------------------------------------------ *)
(** ** The last-segment probe *)

Section ProbeFacts.
Import GoTime Dirent Recorder RecorderSpec.

Example ext_of_segment : Filepath.Ext "23-30-00.ts" = ".ts".
Proof. reflexivity. Qed.

Example ext_of_hidden_dir : Filepath.Ext "a.b/c" = "".
Proof. reflexivity. Qed.

Example join_cleans : Filepath.Join ["/recordings"; "cam1"; "recordings"; "2025-01-11"]
                      = "/recordings/cam1/recordings/2025-01-11".
Proof. reflexivity. Qed.

Example clean_dotdot : Filepath.Clean "/rec/../a/./b//c/.." = "/a/b".
Proof. reflexivity. Qed.

Example clean_relative : Filepath.Clean "a/../../b" = "../b".
Proof. reflexivity. Qed.

Lemma newer_fold : forall es acc,
  let t := fold_left newer es acc in
  acc <= t
  /\ (forall e i, In e es -> is_segment e = true -> Info e = Some i -> ModTime i <= t)
  /\ (t = acc \/
      exists e i, In e es /\ is_segment e = true /\ Info e = Some i /\ ModTime i = t).
Proof.
  induction es as [|e es IH]; intros acc; cbv zeta; simpl.
  - split; [lia|]. split; [intros e i []|now left].
  - destruct (IH (newer acc e)) as [Hle [Hmax Hatt]].
    assert (Hstep : acc <= newer acc e /\
              (forall i, is_segment e = true -> Info e = Some i ->
                         ModTime i <= newer acc e) /\
              (newer acc e = acc \/
               exists i, is_segment e = true /\ Info e = Some i /\
                         ModTime i = newer acc e)).
    { unfold newer, is_segment, After.
      destruct (negb (IsDir e) && String.eqb (Filepath.Ext (Name e)) ".ts")%bool.
      - destruct (Info e) as [i|].
        + destruct (acc <? ModTime i) eqn:E.
          * apply Z.ltb_lt in E. split; [lia|]. split.
            -- intros i' _ H. injection H as <-. lia.
            -- right. exists i. auto.
          * apply Z.ltb_ge in E. split; [lia|]. split.
            -- intros i' _ H. injection H as <-. exact E.
            -- now left.
        + split; [lia|]. split; [discriminate|now left].
      - split; [lia|]. split; [discriminate|now left]. }
    destruct Hstep as [H1 [H2 H3]].
    split; [lia|]. split.
    + intros e' i [<-|Hin] Hseg Hinfo.
      * specialize (H2 i Hseg Hinfo). lia.
      * eapply Hmax; eauto.
    + destruct Hatt as [Heq|[e' [i [Hin [Hseg [Hinfo Hm]]]]]].
      * destruct H3 as [H3|[i [Hseg [Hinfo Hm]]]].
        -- left. congruence.
        -- right. exists e, i. repeat split; auto. congruence.
      * right. exists e', i. auto.
Qed.

Lemma latest_ts_newest (es : list DirEntry) : newest_of es (latest_ts es).
Proof. exact (newer_fold es zero). Qed.

Lemma yesterday_is_day_before (tz : Z) (now : Time) :
  local_day tz (Add now (-24 * Hour)) = local_day tz now - 1.
Proof.
  unfold local_day, Add.
  replace (now + -24 * Hour + tz * Second) with (now + tz * Second + (-1) * Day)
    by (unfold Day; lia).
  rewrite Z.div_add by (pose proof Day_pos; lia). lia.
Qed.

(** C4, as amended.  The probe returns the newest modification time of a
    [.ts] file of today's partition whenever that directory can be read,
    and so the zero time when it is there but holds no such file; only
    when today's directory cannot be read does it answer from
    yesterday's, and with neither it returns the zero time.  "Newest" is
    the largest modification time of a regular [.ts] entry, "yesterday"
    the day before today. *)
Theorem probe_today_else_yesterday
    (ReadDir : string -> option (list DirEntry)) (tz : Z) (r : Recorder.Recorder)
    (now now' : Time) :
  let today := ReadDir (recordDir r (today_str tz now)) in
  let yesterday := ReadDir (recordDir r (yesterday_str tz now')) in
  let t := GetLastRecordingTime ReadDir tz r now now' in
  (forall es, today = Some es -> newest_of es t)
  /\ (forall es, today = None -> yesterday = Some es -> newest_of es t)
  /\ (today = None -> yesterday = None -> t = zero)
  /\ (forall es, today = Some es ->
        (forall e, In e es -> is_segment e = false) -> t = zero)
  /\ yesterday_str tz now' = format_date (local_day tz now' - 1).
Proof.
  cbv zeta. unfold GetLastRecordingTime.
  split; [|split; [|split; [|split]]].
  - intros es ->. apply latest_ts_newest.
  - intros es -> ->. apply latest_ts_newest.
  - intros -> ->. reflexivity.
  - intros es -> Hnone.
    destruct (latest_ts_newest es) as [_ [_ [Hz|[e [i [Hin [Hseg _]]]]]]]; [exact Hz|].
    rewrite (Hnone e Hin) in Hseg. discriminate.
  - unfold yesterday_str. now rewrite yesterday_is_day_before.
Qed.

(** The theorem when the folder of the new day does not exist yet: the
    probe answers with the last write of the previous day. *)
Lemma probe_witness :
  GetLastRecordingTime no_folder_yet 0 cam1
    jan11_just_after_midnight jan11_just_after_midnight = jan10_last_write.
Proof.
  destruct (probe_today_else_yesterday no_folder_yet 0 cam1
              jan11_just_after_midnight jan11_just_after_midnight)
    as [_ [H _]].
  assert (Htoday : no_folder_yet (recordDir cam1 (today_str 0 jan11_just_after_midnight))
                   = None) by (vm_compute; reflexivity).
  assert (Hyest : no_folder_yet (recordDir cam1 (yesterday_str 0 jan11_just_after_midnight))
                  = Some [ {| Name := "23-30-00.ts"; IsDir := false;
                              Info := Some {| ModTime := jan10_last_write;
                                              Size := 4096 |} |} ])
    by (vm_compute; reflexivity).
  destruct (H _ Htoday Hyest) as [_ [_ [Hz|[e [i [Hin [_ [Hinfo Hm]]]]]]]].
  - vm_compute in Hz. discriminate Hz.
  - destruct Hin as [<-|[]]. injection Hinfo as <-. symmetry. exact Hm.
Defined.

(** C4, counterexample.  Five seconds after midnight today's folder is
    there and empty; the probe returns the zero time, not the last
    write of the previous day. *)
Lemma probe_does_not_fall_back :
  ~ falls_back_when_no_segment after_midnight 0 cam1 jan11_just_after_midnight.
Proof.
  intros H.
  assert (Htoday : after_midnight (recordDir cam1 (today_str 0 jan11_just_after_midnight))
                   = Some []) by (vm_compute; reflexivity).
  assert (Hyest : after_midnight (recordDir cam1 (yesterday_str 0 jan11_just_after_midnight))
                  = Some [ {| Name := "23-30-00.ts"; IsDir := false;
                              Info := Some {| ModTime := jan10_last_write;
                                              Size := 4096 |} |} ])
    by (vm_compute; reflexivity).
  specialize (H [] _ Htoday (fun e (F : In e []) => match F with end) Hyest).
  unfold GetLastRecordingTime in H. rewrite Htoday in H.
  vm_compute in H. discriminate H.
Qed.

End ProbeFacts.

(* ------------------------------------------------------------------ *)
(** ** The recovery ladder *)

Section RecoveryFacts.
Import GoTime Recovery RecoverySpec.
Variable cfg : RecoveryConfig.

Lemma hasAttempted_In st action :
  hasAttempted st action = true <-> In action (actions_of st).
Proof.
  unfold hasAttempted, actions_of. rewrite existsb_exists, in_map_iff.
  split; intros [a [H1 H2]]; exists a.
  - apply String.eqb_eq in H2. auto.
  - split; [exact H2|]. now apply String.eqb_eq.
Qed.

Lemma ladder_prefix_cases (acc rest : list string) :
  acc ++ rest = ladder ->
  acc = [] \/ acc = ["goroutine_restart"]
  \/ acc = ["goroutine_restart"; "service_restart"] \/ acc = ladder.
Proof.
  unfold ladder. intros H.
  destruct acc as [|a [|b [|c [|d acc]]]]; simpl in H.
  - now left.
  - injection H as -> _. right. now left.
  - injection H as -> -> _. right. right. now left.
  - injection H as -> -> -> _. right. right. now right.
  - discriminate H.
Qed.

Lemma hasAttempted_false st action :
  hasAttempted st action = false <-> ~ In action (actions_of st).
Proof.
  rewrite <- hasAttempted_In. destruct (hasAttempted st action); split; congruence.
Qed.

Ltac ladder_case H :=
  apply ladder_prefix_cases in H;
  destruct H as [H|[H|[H|H]]].

(** [recoverCamera] starts the first tier not yet in the history. *)
Lemma recoverCamera_inv st acc now_count now_stamp :
  ladder_inv st acc -> failureDetectedAt st <> zero ->
  let (st', o) := recoverCamera cfg st now_count now_stamp in
  ladder_inv st' (episode_step acc o)
  /\ failureDetectedAt st' = failureDetectedAt st
  /\ (forall a, o = Performed a -> exists rest, acc ++ Action a :: rest = ladder).
Proof.
  intros [Hacc [[rest Hpre] Hzero]] Hfail. unfold recoverCamera.
  destruct (MaxPowerCyclesPer30Min cfg <=? _).
  { simpl. repeat split; auto; [now exists rest|discriminate]. }
  assert (Hstep : forall action tail,
            acc ++ action :: tail = ladder ->
            let (st', o) := attempt st action now_stamp in
            ladder_inv st' (episode_step acc o)
            /\ failureDetectedAt st' = failureDetectedAt st
            /\ (forall a, o = Performed a -> exists rest, acc ++ Action a :: rest = ladder)).
  { intros action tail Hl. simpl. repeat split.
    - unfold actions_of. simpl. rewrite map_app. simpl. now rewrite <- Hacc.
    - exists tail. now rewrite <- app_assoc.
    - simpl. intros E. now destruct Hfail.
    - intros a E. injection E as <-. simpl. now exists tail. }
  pose proof Hpre as Hcases. ladder_case Hcases; subst acc;
    rewrite Hcases in Hstep |- *.
  - destruct (hasAttempted st "goroutine_restart") eqn:E1.
    + apply hasAttempted_In in E1. rewrite Hcases in E1. destruct E1.
    + simpl. exact (Hstep _ ["service_restart"; "power_cycle"] eq_refl).
  - destruct (hasAttempted st "goroutine_restart") eqn:E1.
    2:{ apply hasAttempted_false in E1. rewrite Hcases in E1. destruct E1. now left. }
    destruct (hasAttempted st "service_restart") eqn:E2.
    + apply hasAttempted_In in E2. rewrite Hcases in E2.
      destruct E2 as [E2|[]]. discriminate E2.
    + simpl. exact (Hstep _ ["power_cycle"] eq_refl).
  - destruct (hasAttempted st "goroutine_restart") eqn:E1.
    2:{ apply hasAttempted_false in E1. rewrite Hcases in E1. destruct E1. now left. }
    destruct (hasAttempted st "service_restart") eqn:E2.
    2:{ apply hasAttempted_false in E2. rewrite Hcases in E2. destruct E2.
        right. now left. }
    destruct (hasAttempted st "power_cycle") eqn:E3.
    + apply hasAttempted_In in E3. rewrite Hcases in E3.
      destruct E3 as [E3|[E3|[]]]; discriminate.
    + simpl. exact (Hstep _ [] eq_refl).
  - destruct (hasAttempted st "goroutine_restart") eqn:E1.
    2:{ apply hasAttempted_false in E1. rewrite Hcases in E1. destruct E1. now left. }
    destruct (hasAttempted st "service_restart") eqn:E2.
    2:{ apply hasAttempted_false in E2. rewrite Hcases in E2. destruct E2.
        right. now left. }
    destruct (hasAttempted st "power_cycle") eqn:E3.
    2:{ apply hasAttempted_false in E3. rewrite Hcases in E3. destruct E3.
        right. right. now left. }
    simpl. repeat split; auto; [now exists []|discriminate].
Qed.

Lemma checkCamera_inv st acc last clk :
  ladder_inv st acc ->
  let (st', o) := checkCamera cfg st last clk in
  ladder_inv st' (episode_step acc o)
  /\ (forall a, o = Performed a -> exists rest, acc ++ Action a :: rest = ladder).
Proof.
  intros Hinv. pose proof Hinv as [Hacc [[rest Hpre] Hzero]].
  unfold checkCamera.
  destruct (IsZero last).
  { simpl. split; [exact Hinv|discriminate]. }
  destruct (Sub (clk 0%nat) last <? StaleThreshold cfg * Second).
  { destruct (IsZero (failureDetectedAt st)) eqn:Ez; simpl.
    - split; [|discriminate]. apply Z.eqb_eq in Ez.
      repeat split; auto.
      + unfold actions_of. now rewrite (Hzero Ez).
      + now exists ladder.
    - split; [|discriminate]. repeat split; auto. now exists ladder. }
  destruct (IsZero (failureDetectedAt st)) eqn:Ez.
  { simpl. split; [|discriminate]. apply Z.eqb_eq in Ez.
    split; [exact Hacc|]. split; [now exists rest|].
    intros _. exact (Hzero Ez). }
  destruct (Sub (clk 1%nat) (failureDetectedAt st) <? VerificationDelay cfg * Second).
  { simpl. split; [exact Hinv|discriminate]. }
  apply Z.eqb_neq in Ez.
  pose proof (recoverCamera_inv st acc (clk 2%nat) (clk 3%nat) Hinv Ez) as H.
  destruct (recoverCamera cfg st (clk 2%nat) (clk 3%nat)) as [st' o].
  destruct H as [H1 [_ H3]]. now split.
Qed.





Lemma recent_le_tried (l : list RecoveryAttempt) (action : string)
    (P : RecoveryAttempt -> bool) :
  (List.length (filter (fun a => (String.eqb (Action a) action && P a)%bool) l)
   <= List.length (filter (fun x => String.eqb x action) (map Action l)))%nat.
Proof.
  induction l as [|a l IH]; simpl; [lia|].
  destruct (String.eqb (Action a) action); simpl; [|exact IH].
  destruct (P a); simpl; lia.
Qed.

(** The power-cycle count that [recoverCamera] reads is at most one. *)
Lemma recent_power_cycles_le_1 st acc window now :
  ladder_inv st acc ->
  countRecentAttempts st "power_cycle" window now <= 1.
Proof.
  intros [Hacc [[rest Hpre] _]]. subst acc.
  unfold countRecentAttempts.
  pose proof (recent_le_tried (recoveryAttempts st) "power_cycle"
                (fun a => After (Timestamp a) (Add now (- window)))) as Hle.
  fold (actions_of st) in Hle.
  apply ladder_prefix_cases in Hpre.
  destruct Hpre as [H|[H|[H|H]]]; rewrite H in Hle; simpl in Hle; lia.
Qed.

Lemma cap_reached_alerts_only st now_count now_stamp :
  MaxPowerCyclesPer30Min cfg
    <= countRecentAttempts st "power_cycle" (30 * Minute) now_count ->
  recoverCamera cfg st now_count now_stamp = (st, ManualIntervention).
Proof.
  intros H. unfold recoverCamera. apply Z.leb_le in H. now rewrite H.
Qed.

(** With a cap of two or more the cap is never found reached. *)
Lemma cap_never_reached_from_two : forall ticks st acc,
  2 <= MaxPowerCyclesPer30Min cfg ->
  ladder_inv st acc ->
  ~ In ManualIntervention (snd (run cfg st ticks)).
Proof.
  induction ticks as [|t ticks IH]; intros st acc Hcap Hinv; simpl; [tauto|].
  pose proof (checkCamera_inv st acc (lastRecording t) (clock t) Hinv) as Hc.
  assert (Hno : snd (checkCamera cfg st (lastRecording t) (clock t))
                <> ManualIntervention).
  { unfold checkCamera.
    destruct (IsZero (lastRecording t)); [discriminate|].
    destruct (_ <? StaleThreshold cfg * Second).
    { destruct (negb _); discriminate. }
    destruct (IsZero (failureDetectedAt st)); [discriminate|].
    destruct (_ <? VerificationDelay cfg * Second); [discriminate|].
    unfold recoverCamera.
    pose proof (recent_power_cycles_le_1 st acc (30 * Minute)
                  (clock t 2%nat) Hinv) as Hle.
    destruct (MaxPowerCyclesPer30Min cfg <=? _) eqn:E.
    { apply Z.leb_le in E. lia. }
    destruct (negb _); [discriminate|].
    destruct (negb _); [discriminate|].
    destruct (negb _); discriminate. }
  destruct (checkCamera cfg st (lastRecording t) (clock t)) as [st1 o].
  destruct Hc as [Hinv1 _].
  specialize (IH st1 _ Hcap Hinv1).
  destruct (run cfg st1 ticks) as [st' tr]. simpl in *.
  intros [E|E]; [now apply Hno|now apply IH].
Qed.

End RecoveryFacts.

Section RecoveryClaims.
Import GoTime Recovery RecoverySpec.



(** C6, the run that breaks the cap.  With the cap set to 1 and the other
    settings at their defaults, the run with two failures starts a power
    cycle at 12:04:00 and another at 12:19:00: two within 30 minutes. *)
Theorem power_cycles_exceed_cap :
  power_cycle_stamps (snd (run (defaults 1) initial two_failures))
    = [noon + 240 * Second; noon + 1140 * Second]
  /\ ~ rate_cap_holds (defaults 1) two_failures.
Proof.
  split; [vm_compute; reflexivity|].
  intros H. specialize (H (noon + 1140 * Second)).
  vm_compute in H. apply H. reflexivity.
Qed.

End RecoveryClaims.

(* ------------------------------------------------------------------ *)
(** ** Clock strings *)

Section ClockFacts.
Import GoTime WebUI.

Example render_noon : render_clock 43200 = "12:00:00".
Proof. reflexivity. Qed.

Example clock_of_last_second : clock_of "23:59:59" = 86399.
Proof. reflexivity. Qed.

Lemma holds_from_spec (f : Z -> bool) : forall n lo,
  holds_from f lo n = true -> forall z, lo <= z < lo + Z.of_nat n -> f z = true.
Proof.
  induction n as [|n IH]; intros lo H z Hz.
  - simpl in Hz. lia.
  - simpl in H. apply andb_true_iff in H. destruct H as [H0 H1].
    destruct (Z.eq_dec z lo) as [->|Hne]; [exact H0|].
    apply (IH (lo + 1) H1). lia.
Qed.

Lemma two_digits_read_all :
  holds_from (fun n => match GoString.fixed_num 2 (GoString.pad_digits 2 n) with
                       | Some v => v =? n
                       | None => false
                       end) 0 (Z.to_nat 100) = true.
Proof. vm_compute. reflexivity. Qed.

(** A two-digit field reads back as its value. *)
Lemma fixed_num_pad2 (n : Z) :
  0 <= n < 100 -> GoString.fixed_num 2 (GoString.pad_digits 2 n) = Some n.
Proof.
  intros Hn. pose proof (holds_from_spec _ _ _ two_digits_read_all n) as H.
  rewrite Z2Nat.id in H by lia. specialize (H ltac:(lia)).
  destruct (GoString.fixed_num 2 (GoString.pad_digits 2 n)) as [v|]; [|discriminate].
  apply Z.eqb_eq in H. now subst.
Qed.

(** The three fields of an eight-byte clock are read at their offsets. *)
Lemma clock_of_fields (hh mm ss : string) :
  String.length hh = 2%nat -> String.length mm = 2%nat -> String.length ss = 2%nat ->
  clock_of (hh ++ ":" ++ mm ++ ":" ++ ss)
  = match parse_hms hh mm ss with Some c => c | None => 0 end.
Proof.
  destruct hh as [|a [|b [|? ?]]]; try discriminate.
  destruct mm as [|c [|d [|? ?]]]; try discriminate.
  destruct ss as [|e [|f [|? ?]]]; try discriminate.
  intros _ _ _. reflexivity.
Qed.

(** The hour, minute and second of a clock. *)
Lemma clock_fields (c : Z) :
  0 <= c < 86400 ->
  0 <= c / 3600 < 24 /\ 0 <= (c / 60) mod 60 < 60 /\ 0 <= c mod 60 < 60
  /\ c = 3600 * (c / 3600) + 60 * ((c / 60) mod 60) + c mod 60.
Proof. intros Hc. Z.div_mod_to_equations. lia. Qed.

(** Reading back a printed clock gives the clock. *)
Lemma clock_of_render (c : Z) : 0 <= c < 86400 -> clock_of (render_clock c) = c.
Proof.
  intros Hc. destruct (clock_fields c Hc) as [Hh [Hm [Hs E]]].
  unfold render_clock. rewrite clock_of_fields by reflexivity.
  unfold parse_hms. rewrite !fixed_num_pad2 by lia.
  assert (T1 : (c / 3600 <? 24) = true) by (apply Z.ltb_lt; lia).
  assert (T2 : ((c / 60) mod 60 <? 60) = true) by (apply Z.ltb_lt; lia).
  assert (T3 : (c mod 60 <? 60) = true) by (apply Z.ltb_lt; lia).
  rewrite T1, T2, T3. cbn [andb]. lia.
Qed.

Lemma compare_app (p1 p2 s1 s2 : string) :
  String.length p1 = String.length p2 ->
  String.compare (p1 ++ s1) (p2 ++ s2)
  = match String.compare p1 p2 with Eq => String.compare s1 s2 | c => c end.
Proof.
  revert p2. induction p1 as [|c1 p1 IH]; intros [|c2 p2] Hlen; simpl in *;
    try discriminate; [reflexivity|].
  destruct (Ascii.compare c1 c2); auto.
Qed.

Lemma two_digits_all :
  holds_from (fun m => holds_from (fun n =>
                cmp_eqb (String.compare (GoString.pad_digits 2 m) (GoString.pad_digits 2 n))
                        (m ?= n)) 0 (Z.to_nat 100)) 0 (Z.to_nat 100) = true.
Proof. vm_compute. reflexivity. Qed.

(** Two-digit fields compare as their values. *)
Lemma compare_two_digits (m n : Z) :
  0 <= m < 100 -> 0 <= n < 100 ->
  String.compare (GoString.pad_digits 2 m) (GoString.pad_digits 2 n) = (m ?= n).
Proof.
  intros Hm Hn.
  pose proof (holds_from_spec _ _ _ two_digits_all m) as H.
  rewrite Z2Nat.id in H by lia. specialize (H ltac:(lia)).
  pose proof (holds_from_spec _ _ _ H n) as H'.
  rewrite Z2Nat.id in H' by lia. specialize (H' ltac:(lia)).
  destruct (String.compare _ _), (m ?= n); simpl in H'; congruence.
Qed.

Lemma pad2_length (n : Z) : String.length (GoString.pad_digits 2 n) = 2%nat.
Proof. reflexivity. Qed.

(** Printed clocks compare as strings the way the clocks compare. *)
Lemma compare_render (a b : Z) :
  0 <= a < 86400 -> 0 <= b < 86400 ->
  String.compare (render_clock a) (render_clock b) = (a ?= b).
Proof.
  intros Ha Hb. unfold render_clock.
  assert (Hdiv : forall c, 0 <= c < 86400 ->
            0 <= c / 3600 < 100 /\ 0 <= (c / 60) mod 60 < 100 /\ 0 <= c mod 60 < 100
            /\ c = 3600 * (c / 3600) + 60 * ((c / 60) mod 60) + c mod 60
            /\ (c / 60) mod 60 < 60 /\ c mod 60 < 60).
  { intros c Hc.
    pose proof (Z.div_mod c 60 ltac:(lia)) as E1.
    pose proof (Z.mod_pos_bound c 60 ltac:(lia)) as B1.
    pose proof (Z.div_mod (c / 60) 60 ltac:(lia)) as E2.
    pose proof (Z.mod_pos_bound (c / 60) 60 ltac:(lia)) as B2.
    assert (E3 : c / 3600 = c / 60 / 60) by (rewrite Z.div_div by lia; reflexivity).
    assert (0 <= c / 60 / 60 < 24).
    { split; [apply Z.div_pos; [apply Z.div_pos|]; lia|].
      apply Z.div_lt_upper_bound; [lia|]. apply Z.div_lt_upper_bound; lia. }
    rewrite E3. repeat split; lia. }
  destruct (Hdiv a Ha) as [Ah [Am [As [Ea [Am' As']]]]].
  destruct (Hdiv b Hb) as [Bh [Bm [Bs [Eb [Bm' Bs']]]]].
  set (ha := a / 3600) in *. set (ma := (a / 60) mod 60) in *. set (sa := a mod 60) in *.
  set (hb := b / 3600) in *. set (mb := (b / 60) mod 60) in *. set (sb := b mod 60) in *.
  rewrite compare_app by (rewrite !pad2_length; reflexivity).
  rewrite compare_two_digits by lia.
  change (":" ++ GoString.pad_digits 2 ma ++ ":" ++ GoString.pad_digits 2 sa)%string
    with (String ":" (GoString.pad_digits 2 ma ++ ":" ++ GoString.pad_digits 2 sa))%string.
  change (":" ++ GoString.pad_digits 2 mb ++ ":" ++ GoString.pad_digits 2 sb)%string
    with (String ":" (GoString.pad_digits 2 mb ++ ":" ++ GoString.pad_digits 2 sb))%string.
  cbn [String.compare]. change (Ascii.compare ":" ":") with Eq. cbv iota.
  rewrite compare_app by (rewrite !pad2_length; reflexivity).
  rewrite compare_two_digits by lia.
  change (":" ++ GoString.pad_digits 2 sa)%string with (String ":" (GoString.pad_digits 2 sa)).
  change (":" ++ GoString.pad_digits 2 sb)%string with (String ":" (GoString.pad_digits 2 sb)).
  cbn [String.compare]. change (Ascii.compare ":" ":") with Eq. cbv iota.
  rewrite compare_two_digits by lia.
  symmetry.
  destruct (Z.compare_spec ha hb) as [E|L|G].
  - destruct (Z.compare_spec ma mb) as [E'|L'|G'].
    + destruct (Z.compare_spec sa sb) as [E''|L''|G''].
      * apply Z.compare_eq_iff. lia.
      * apply Z.compare_lt_iff. lia.
      * apply Z.compare_gt_iff. lia.
    + apply Z.compare_lt_iff. lia.
    + apply Z.compare_gt_iff. lia.
  - apply Z.compare_lt_iff. lia.
  - apply Z.compare_gt_iff. lia.
Qed.

Lemma clock_secs_range (t : Time) : 0 <= clock_secs t < 86400.
Proof. unfold clock_secs. apply Z.mod_pos_bound. lia. Qed.

(** The comparison of the sort, on printed clocks. *)
Lemma str_gt_render (a b : Z) :
  0 <= a < 86400 -> 0 <= b < 86400 ->
  str_gt (render_clock a) (render_clock b) = (b <? a).
Proof.
  intros Ha Hb. unfold str_gt. rewrite compare_render by assumption.
  destruct (Z.compare_spec a b) as [E|L|G]; symmetry.
  - apply Z.ltb_ge. lia.
  - apply Z.ltb_ge. lia.
  - apply Z.ltb_lt. lia.
Qed.

End ClockFacts.

(* ------------------------------------------------------------------ *)
(** ** Sorting and mapping *)

Section SortMap.
Import ExchangeSort.
Context {A B : Type}.
Variable f : B -> A.
Variable gtA : A -> A -> bool.
Variable gtB : B -> B -> bool.
Hypothesis gt_f : forall x y, gtA (f x) (f y) = gtB x y.

Lemma sweep_map : forall l x,
  sweep gtA (f x) (map f l)
  = (f (fst (sweep gtB x l)), map f (snd (sweep gtB x l))).
Proof.
  induction l as [|y l IH]; intros x; simpl; [reflexivity|].
  rewrite gt_f. destruct (gtB x y).
  - rewrite IH. destruct (sweep gtB y l). reflexivity.
  - rewrite IH. destruct (sweep gtB x l). reflexivity.
Qed.

Lemma passes_map : forall n l,
  passes gtA n (map f l) = map f (passes gtB n l).
Proof.
  induction n as [|n IH]; intros l; simpl.
  - now destruct l.
  - destruct l as [|x l]; simpl; [reflexivity|].
    rewrite sweep_map. destruct (sweep gtB x l) as [m r]. simpl.
    now rewrite IH.
Qed.

(** Sorting the images is the image of sorting, when the comparisons agree. *)
Lemma sort_map (l : list B) : sort gtA (map f l) = map f (sort gtB l).
Proof. rewrite !sort_passes, length_map. apply passes_map. Qed.

End SortMap.

(* ------------------------------------------------------------------ *)
(** ** Days of the month *)

Section DayFacts.
Import GoTime WebUI.

Lemma civil_day_in_cycle (n : Z) :
  (let '(_, _, d) := civil_of_day n in d) = day_in_cycle ((n + 306) mod 146097).
Proof.
  unfold civil_of_day, day_in_cycle.
  rewrite (Z.mod_eq (n + 306) 146097) by lia.
  replace (n + 306 - 146097 * ((n + 306) / 146097))
    with (n + 306 - (n + 306) / 146097 * 146097) by lia.
  reflexivity.
Qed.

Lemma day_in_cycle_eq (doe : Z) :
  day_in_cycle doe = day_in_year (doe - year_start (year_in_cycle doe)).
Proof. reflexivity. Qed.

Lemma year_length (y : Z) : 365 <= year_start (y + 1) - year_start y <= 366.
Proof. unfold year_start. Z.div_mod_to_equations. lia. Qed.

(** Every day before year [n] of the cycle falls in one of its years. *)
Lemma locate_year : forall n doe,
  0 <= doe < year_start (Z.of_nat n) ->
  exists y, 0 <= y < Z.of_nat n /\ year_start y <= doe < year_start (y + 1).
Proof.
  induction n as [|n IH]; intros doe Hd.
  - change (year_start (Z.of_nat 0)) with 0 in Hd. lia.
  - rewrite Nat2Z.inj_succ in Hd |- *. unfold Z.succ in *.
    destruct (Z_lt_dec doe (year_start (Z.of_nat n))) as [Hlt|Hge].
    + destruct (IH doe) as [y [Hy Hs]]; [lia|]. exists y. split; [lia|exact Hs].
    + exists (Z.of_nat n). split; lia.
Qed.

(** The year that the conversion finds for a day is the year it falls in. *)
Lemma year_of (doe y : Z) :
  0 <= y < 400 -> year_start y <= doe < year_start (y + 1) -> year_in_cycle doe = y.
Proof.
  unfold year_start, year_in_cycle. intros Hy Hd.
  assert (H : 365 * y <= doe - doe / 1460 + doe / 36524 - doe / 146096 < 365 * y + 365)
    by (Z.div_mod_to_equations; lia).
  symmetry. apply Z.div_unique with
    (r := doe - doe / 1460 + doe / 36524 - doe / 146096 - 365 * y); lia.
Qed.

Lemma next_in_year_all :
  holds_from (fun d => negb (day_in_year (d + 1) =? day_in_year d)) 0 (Z.to_nat 365) = true.
Proof. vm_compute. reflexivity. Qed.

Lemma next_in_year (d : Z) : 0 <= d < 365 -> day_in_year (d + 1) <> day_in_year d.
Proof.
  intros Hd. pose proof (holds_from_spec _ _ _ next_in_year_all d) as H.
  rewrite Z2Nat.id in H by lia. specialize (H ltac:(lia)).
  now apply negb_true_iff, Z.eqb_neq in H.
Qed.

(** Within the 400-year cycle, wrapping around at its end, the next day
    never has the same day of the month. *)
Lemma next_day_differs_cycle (e : Z) :
  0 <= e < 146097 -> day_in_cycle ((e + 1) mod 146097) <> day_in_cycle e.
Proof.
  intros He.
  destruct (Z.eq_dec e 146096) as [->|Hne]; [vm_compute; discriminate|].
  destruct (Z.eq_dec e 146095) as [->|Hne']; [vm_compute; discriminate|].
  rewrite Z.mod_small by lia.
  destruct (locate_year (Z.to_nat 400) e) as [y [Hy Hs]].
  { rewrite Z2Nat.id by lia. change (year_start 400) with 146096. lia. }
  rewrite Z2Nat.id in Hy by lia.
  pose proof (year_length y) as Hlen.
  rewrite (day_in_cycle_eq e), (year_of e y Hy Hs).
  destruct (Z_lt_dec (e + 1) (year_start (y + 1))) as [Hin|Hout].
  - rewrite day_in_cycle_eq, (year_of (e + 1) y Hy) by lia.
    replace (e + 1 - year_start y) with (e - year_start y + 1) by lia.
    apply next_in_year. lia.
  - assert (Hnext : e + 1 = year_start (y + 1)) by lia.
    assert (Hmore : y + 1 < 400).
    { destruct (Z.eq_dec (y + 1) 400) as [E|E]; [|lia].
      rewrite E in Hnext. change (year_start 400) with 146096 in Hnext. lia. }
    pose proof (year_length (y + 1)) as Hlen'.
    rewrite day_in_cycle_eq, (year_of (e + 1) (y + 1)) by lia.
    rewrite Hnext, Z.sub_diag.
    assert (Hd : e - year_start y = 364 \/ e - year_start y = 365) by lia.
    destruct Hd as [-> | ->]; vm_compute; discriminate.
Qed.

(** Consecutive days never have the same day of the month. *)
Lemma next_day_differs (n : Z) :
  (let '(_, _, d) := civil_of_day (n + 1) in d) <> (let '(_, _, d) := civil_of_day n in d).
Proof.
  rewrite !civil_day_in_cycle.
  replace (n + 1 + 306) with (n + 306 + 1) by lia.
  rewrite <- Z.add_mod_idemp_l by lia.
  set (e := (n + 306) mod 146097).
  assert (He : 0 <= e < 146097) by (apply Z.mod_pos_bound; lia).
  exact (next_day_differs_cycle e He).
Qed.

End DayFacts.

(* ------------------------------------------------------------------ *)
(** ** Timeline segments *)

Section SegmentFacts.
Import GoTime Dirent WebUI WebUISpec.

Lemma atoi_acc_nonneg : forall s acc v,
  GoString.atoi_acc acc s = Some v -> 0 <= acc -> 0 <= v.
Proof.
  induction s as [|c s IH]; intros acc v H Hacc; cbn [GoString.atoi_acc] in H.
  - injection H as <-. exact Hacc.
  - destruct (GoString.is_digit c) eqn:Hd; [|discriminate].
    apply (IH _ _ H). unfold GoString.is_digit in Hd.
    apply andb_true_iff in Hd. destruct Hd as [Hlo _].
    apply Nat.leb_le in Hlo. unfold GoString.digit_val. lia.
Qed.

Lemma fixed_num_nonneg w s v : GoString.fixed_num w s = Some v -> 0 <= v.
Proof.
  unfold GoString.fixed_num. destruct (Nat.eqb _ _); [|discriminate].
  destruct s; [discriminate|]. intros H. apply (atoi_acc_nonneg _ _ _ H). lia.
Qed.

Lemma parse_hms_range hh mm ss c :
  parse_hms hh mm ss = Some c -> 0 <= c < 86400.
Proof.
  unfold parse_hms.
  destruct (GoString.fixed_num 2 hh) as [h|] eqn:Eh; [|discriminate].
  destruct (GoString.fixed_num 2 mm) as [m|] eqn:Em; [|discriminate].
  destruct (GoString.fixed_num 2 ss) as [s|] eqn:Es; [|discriminate].
  apply fixed_num_nonneg in Eh, Em, Es.
  destruct ((h <? 24) && (m <? 60) && (s <? 60))%bool eqn:E; [|discriminate].
  apply andb_true_iff in E. destruct E as [E E3].
  apply andb_true_iff in E. destruct E as [E1 E2].
  apply Z.ltb_lt in E1, E2, E3. intros H. injection H as <-. lia.
Qed.

Lemma start_time_at_clock day hh mm ss :
  exists D c, at_clock (start_time (midnight_utc day) hh mm ss) D c
              /\ c = match parse_hms hh mm ss with Some c => c | None => 0 end.
Proof.
  unfold start_time, at_clock, on_day, midnight_utc.
  destruct (parse_hms hh mm ss) as [c|] eqn:E.
  - exists day, c. apply parse_hms_range in E. auto.
  - exists 0, 0. unfold zero. repeat split; lia.
Qed.

Lemma clock_secs_at t D c : at_clock t D c -> clock_secs t = c.
Proof.
  intros [-> Hc]. unfold clock_secs, Day, Hour, Minute.
  replace (D * (24 * (60 * (60 * Second))) + c * Second)
    with ((D * 86400 + c) * Second) by lia.
  rewrite Z.div_mul by (unfold Second; lia).
  rewrite Z.add_comm, Z.mod_add by lia. apply Z.mod_small. lia.
Qed.

Lemma day_at t D c : at_clock t D c -> t / Day = D.
Proof.
  intros [-> Hc]. rewrite Z.add_comm, Z.div_add by (pose proof Day_pos; lia).
  rewrite Z.div_small; [lia|]. unfold Day, Hour, Minute, Second. lia.
Qed.

Lemma render_day_end : render_clock day_end = "23:59:59".
Proof. reflexivity. Qed.

(** The segment built for an instant: it ends 30 minutes after it starts,
    at 23:59:59 when that crosses midnight. *)
Lemma segment_at_spec t D c fn :
  at_clock t D c ->
  segment_at t fn
  = {| StartTime := render_clock c;
       EndTime := render_clock (clamped_end c 1800);
       Filename := fn |}.
Proof.
  intros Ht. unfold segment_at, format_clock.
  rewrite (clock_secs_at t D c Ht). f_equal.
  unfold clamped_end, day_of_month, Add.
  rewrite (day_at t D c Ht).
  destruct Ht as [-> Hc].
  destruct (86400 <=? c + 1800) eqn:E.
  - apply Z.leb_le in E.
    assert (Hnext : at_clock (D * Day + c * Second + 30 * Minute) (D + 1) (c + 1800 - 86400)).
    { split; [unfold Day, Hour, Minute, Second; lia|lia]. }
    rewrite (day_at _ _ _ Hnext).
    pose proof (next_day_differs D) as Hne.
    apply Z.eqb_neq in Hne. rewrite Hne. reflexivity.
  - apply Z.leb_gt in E.
    assert (Hsame : at_clock (D * Day + c * Second + 30 * Minute) D (c + 1800)).
    { split; [unfold Day, Hour, Minute, Second; lia|lia]. }
    rewrite (day_at _ _ _ Hsame), Z.eqb_refl. cbn [negb].
    now rewrite (clock_secs_at _ _ _ Hsame).
Qed.

End SegmentFacts.

(* ------------------------------------------------------------------ *)
(** ** The timeline *)

Section TimelineFacts.
Import GoTime Dirent WebUI WebUISpec ExchangeSort.
Variable Stat : string -> option FileInfo.

Lemma slice_substring s lo hi x :
  GoString.slice s lo hi = Some x -> x = substring lo (hi - lo) s.
Proof.
  unfold GoString.slice. destruct (_ && _)%bool; [|discriminate].
  intros H. now injection H.
Qed.

Lemma timeline_entry_inv day file seg :
  timeline_entry (midnight_utc day) file = Returned seg ->
  exists t D,
    seg = segment_at t (Filepath.Base file)
    /\ at_clock t D (start_clock (Filepath.Base file)).
Proof.
  unfold timeline_entry, start_clock.
  destruct (GoString.slice (Filepath.Base file) 0 8) as [timeStr|] eqn:E0; [|discriminate].
  destruct (GoString.slice timeStr 0 2) as [hh|] eqn:E1; [|discriminate].
  destruct (GoString.slice timeStr 3 5) as [mm|] eqn:E2; [|discriminate].
  destruct (GoString.slice timeStr 6 8) as [ss|] eqn:E3; [|discriminate].
  apply slice_substring in E0, E1, E2, E3. simpl in E0, E1, E2, E3.
  subst timeStr hh mm ss. intros H. injection H as <-.
  destruct (start_time_at_clock day
              (substring 0 2 (substring 0 8 (Filepath.Base file)))
              (substring 3 2 (substring 0 8 (Filepath.Base file)))
              (substring 6 2 (substring 0 8 (Filepath.Base file))))
    as [D [c [Hat Hc]]].
  eexists. exists D. split; [reflexivity|]. now rewrite <- Hc.
Qed.

(** What the first loop returns: one segment for each file that
    [os.Stat] finds, in the order of the files. *)
Lemma timeline_loop_inv day : forall files parsed,
  timeline_loop Stat (midnight_utc day) files = Returned parsed ->
  exists starts,
    parsed = map segment_of starts
    /\ map snd starts
       = map Filepath.Base
           (filter (fun f => match Stat f with Some _ => true | None => false end) files)
    /\ Forall (fun p => exists D, at_clock (fst p) D (start_clock (snd p))) starts.
Proof.
  induction files as [|file files IH]; intros parsed; simpl.
  - intros H. injection H as <-. exists []. repeat split; constructor.
  - destruct (Stat file) as [info|]; [|exact (IH parsed)].
    destruct (timeline_entry (midnight_utc day) file) as [|seg] eqn:E; [discriminate|].
    destruct (timeline_loop Stat (midnight_utc day) files) as [|segs]; [discriminate|].
    intros H. injection H as <-.
    destruct (IH segs eq_refl) as [starts [H1 [H2 H3]]].
    destruct (timeline_entry_inv day file seg E) as [t [D [Hs Hat]]].
    exists ((t, Filepath.Base file) :: starts). simpl.
    split; [now rewrite Hs, H1|]. split; [now rewrite H2|].
    constructor; [now exists D|exact H3].
Qed.

Lemma starts_later_by_clock (x y : Time * string) :
  starts_later (segment_of x) (segment_of y) = key_gt by_clock x y.
Proof.
  unfold starts_later, segment_of, segment_at, key_gt, by_clock, format_clock. simpl.
  apply str_gt_render; apply clock_secs_range.
Qed.

Lemma segment_of_spec (p : Time * string) D :
  at_clock (fst p) D (start_clock (snd p)) ->
  segment_of p
  = {| StartTime := render_clock (start_clock (snd p));
       EndTime := render_clock (clamped_end (start_clock (snd p)) 1800);
       Filename := snd p |}.
Proof. intros H. unfold segment_of. now apply segment_at_spec with (D := D). Qed.

Lemma clamped_end_range c d : 0 <= c < 86400 -> 0 <= d -> 0 <= clamped_end c d < 86400.
Proof.
  intros Hc Hd. unfold clamped_end, day_end.
  destruct (86400 <=? c + d) eqn:E; [lia|]. apply Z.leb_gt in E. lia.
Qed.

Lemma segment_of_well_formed (p : Time * string) D :
  at_clock (fst p) D (start_clock (snd p)) -> well_formed (segment_of p).
Proof.
  intros H. rewrite (segment_of_spec p D H). destruct H as [_ Hc].
  exists (start_clock (snd p)), (clamped_end (start_clock (snd p)) 1800).
  repeat split; try lia; apply clamped_end_range; lia.
Qed.

(** The sorted segments: the parsed ones rearranged in start order. *)
Lemma sorted_segments (starts : list (Time * string)) :
  Forall (fun p => exists D, at_clock (fst p) D (start_clock (snd p))) starts ->
  let segs := sort starts_later (map segment_of starts) in
  Permutation (map segment_of starts) segs
  /\ StronglySorted starts_le segs
  /\ Forall well_formed segs
  /\ Forall (fun seg => ends_after_configured 1800 seg) segs.
Proof.
  intros Hat. cbv zeta.
  rewrite (sort_map segment_of starts_later (key_gt by_clock) starts_later_by_clock).
  destruct (sort_correct by_clock starts) as [Hperm Hsorted].
  set (sorted := sort (key_gt by_clock) starts) in *.
  assert (Hat' : Forall (fun p => exists D, at_clock (fst p) D (start_clock (snd p))) sorted).
  { eapply Permutation_Forall; eassumption. }
  assert (Hclock : forall p, In p sorted ->
            clock_of (StartTime (segment_of p)) = by_clock p
            /\ by_clock p = start_clock (snd p)).
  { intros p Hp. rewrite Forall_forall in Hat'. destruct (Hat' p Hp) as [D HD].
    rewrite (segment_of_spec p D HD). simpl. unfold by_clock.
    rewrite (clock_secs_at _ _ _ HD). split; [|reflexivity].
    apply clock_of_render. now destruct HD. }
  split; [now apply Permutation_map|]. split; [|split].
  - clear Hperm Hat'. induction Hsorted as [|p l Hl IH Hle]; simpl; constructor.
    + apply IH. intros q Hq. apply Hclock. now right.
    + rewrite Forall_forall in Hle |- *. intros seg Hseg.
      apply in_map_iff in Hseg. destruct Hseg as [q [<- Hq]].
      unfold starts_le.
      rewrite (proj1 (Hclock p (or_introl eq_refl))).
      rewrite (proj1 (Hclock q (or_intror Hq))).
      exact (Hle q Hq).
  - apply Forall_forall. intros seg Hseg. apply in_map_iff in Hseg.
    destruct Hseg as [p [<- Hp]]. rewrite Forall_forall in Hat'.
    destruct (Hat' p Hp) as [D HD]. exact (segment_of_well_formed p D HD).
  - apply Forall_forall. intros seg Hseg. apply in_map_iff in Hseg.
    destruct Hseg as [p [<- Hp]]. rewrite Forall_forall in Hat'.
    destruct (Hat' p Hp) as [D HD]. unfold ends_after_configured.
    rewrite (segment_of_spec p D HD). simpl.
    rewrite clock_of_render by (now destruct HD). reflexivity.
Qed.

End TimelineFacts.

(* ------------------------------------------------------------------ *)
(** ** Gaps *)

Section GapFacts.
Import GoTime Dirent WebUI WebUISpec ExchangeSort.

Lemma duration_on_day d a b : Sub (on_day d b) (on_day d a) = (b - a) * Second.
Proof. unfold Sub, on_day. lia. Qed.

Lemma longer_test a b : (2 * Minute <? (b - a) * Second) = (120 <? b - a).
Proof.
  unfold Minute, Second.
  destruct (120 <? b - a) eqn:E.
  - apply Z.ltb_lt in E. apply Z.ltb_lt. lia.
  - apply Z.ltb_ge in E. apply Z.ltb_ge. lia.
Qed.

Lemma minutes_of_gap a b : 120 < b - a -> whole_minutes ((b - a) * Second) = (b - a) / 60.
Proof.
  intros H. unfold whole_minutes, Minute.
  rewrite Z.quot_div_nonneg by (unfold Second; lia).
  apply Z.div_mul_cancel_r; unfold Second; lia.
Qed.

Lemma well_formed_times seg :
  well_formed seg ->
  StartTime seg = render_clock (fst (span_of seg))
  /\ EndTime seg = render_clock (snd (span_of seg)).
Proof.
  intros [a [b [Ha [Hb [Hs He]]]]]. unfold span_of. simpl.
  now rewrite Hs, He, !clock_of_render.
Qed.

(** One test of the gap detection against one candidate period. *)
Lemma one_gap d (x y : string) (gaps : list Gap) :
  x = render_clock (clock_of x) -> y = render_clock (clock_of y) ->
  (if 2 * Minute <? Sub (on_day d (clock_of y)) (on_day d (clock_of x))
   then gaps ++ [{| g_StartTime := x; g_EndTime := y;
                    DurationMins :=
                      whole_minutes (Sub (on_day d (clock_of y)) (on_day d (clock_of x))) |}]
   else gaps)
  = gaps ++ map gap_of (filter longer_than_two_minutes [(clock_of x, clock_of y)]).
Proof.
  intros Hx Hy. rewrite duration_on_day, longer_test.
  unfold longer_than_two_minutes. simpl.
  destruct (120 <? clock_of y - clock_of x) eqn:E; simpl.
  - apply Z.ltb_lt in E. rewrite minutes_of_gap by exact E.
    unfold gap_of. simpl. now rewrite <- Hx, <- Hy.
  - now rewrite app_nil_r.
Qed.

(** The loop over consecutive segments, on the slice cut at [i]. *)
Lemma between_loop_spec d : forall rest pre gaps,
  Forall well_formed rest ->
  between_loop d (pre ++ rest) (List.length rest - 1) (List.length pre) gaps
  = gaps ++ map gap_of (filter longer_than_two_minutes (between (map span_of rest))).
Proof.
  induction rest as [|a rest IH]; intros pre gaps Hwf.
  - simpl. now rewrite app_nil_r.
  - destruct rest as [|b rest].
    + simpl. now rewrite app_nil_r.
    + inversion Hwf as [|? ? Ha Hrest]; subst.
      inversion Hrest as [|? ? Hb _]; subst.
      replace (List.length (a :: b :: rest) - 1)%nat with (S (List.length rest))
        by (simpl; lia).
      cbn [between_loop].
      rewrite nth_error_middle.
      replace (pre ++ a :: b :: rest) with ((pre ++ [a]) ++ b :: rest)
        by (rewrite <- app_assoc; reflexivity).
      replace (S (List.length pre)) with (List.length (pre ++ [a]))
        by (rewrite length_app; simpl; lia).
      rewrite nth_error_middle.
      destruct (well_formed_times a Ha) as [_ Hea].
      destruct (well_formed_times b Hb) as [Hsb _].
      unfold span_of in Hea, Hsb. simpl in Hea, Hsb.
      rewrite (one_gap d (EndTime a) (StartTime b) gaps Hea Hsb).
      replace (List.length rest) with (List.length (b :: rest) - 1)%nat
        by (simpl; lia).
      rewrite (IH (pre ++ [a]) _ Hrest).
      assert (Hcons : between (map span_of (a :: b :: rest))
                      = [(clock_of (EndTime a), clock_of (StartTime b))]
                          ++ between (map span_of (b :: rest))) by reflexivity.
      rewrite Hcons, filter_app, map_app, app_assoc. reflexivity.
Qed.

Lemma last_map {A B : Type} (f : A -> B) (l : list A) (d : A) :
  last (map f l) (f d) = f (last l d).
Proof.
  induction l as [|x l IH]; simpl; [reflexivity|].
  destruct l; simpl in *; [reflexivity|exact IH].
Qed.

Lemma last_cons_In {A : Type} : forall (l : list A) (x d : A),
  In (last (x :: l) d) (x :: l).
Proof.
  induction l as [|y l IH]; intros x d; [now left|].
  right. exact (IH y d).
Qed.

Lemma gaps_spec_cons (first : Segment) (segs : list Segment) :
  gaps_spec (map span_of (first :: segs))
  = map gap_of
      (filter longer_than_two_minutes
         ((0, clock_of (StartTime first))
            :: between (map span_of (first :: segs))
            ++ [(clock_of (EndTime (last (first :: segs) first)), day_end)])).
Proof.
  pose proof (last_map span_of (first :: segs) first) as H.
  unfold gaps_spec, candidate_periods. cbn [map] in H |- *. now rewrite H.
Qed.

(** The gap detection computes the gaps of the specification. *)
Lemma detect_gaps_spec d (segs : list Segment) :
  Forall well_formed segs ->
  detect_gaps d segs = gaps_spec (map span_of segs).
Proof.
  intros Hwf. destruct segs as [|first segs]; [reflexivity|].
  rewrite gaps_spec_cons. unfold detect_gaps.
  assert (Hfirst : well_formed first) by (inversion Hwf; assumption).
  assert (Hlast : well_formed (last (first :: segs) first)).
  { rewrite Forall_forall in Hwf. apply Hwf. apply last_cons_In. }
  destruct (well_formed_times first Hfirst) as [Hsf _].
  destruct (well_formed_times _ Hlast) as [_ Hel].
  unfold span_of in Hsf, Hel. cbn [fst snd] in Hsf, Hel.
  pose proof (between_loop_spec d (first :: segs) [] 
                (if 2 * Minute <? Sub (on_day d (clock_of (StartTime first))) (on_day d 0)
                 then [{| g_StartTime := "00:00:00"; g_EndTime := StartTime first;
                          DurationMins :=
                            whole_minutes (Sub (on_day d (clock_of (StartTime first)))
                                               (on_day d 0)) |}]
                 else []) Hwf) as Hloop.
  cbn [app] in Hloop. change (List.length (@nil Segment)) with 0%nat in Hloop.
  cbv zeta. rewrite Hloop. clear Hloop.
  set (final := last (first :: segs) first) in *.
  change ((0, clock_of (StartTime first))
            :: between (map span_of (first :: segs)) ++ [(clock_of (EndTime final), day_end)])
    with ([(0, clock_of (StartTime first))]
            ++ between (map span_of (first :: segs)) ++ [(clock_of (EndTime final), day_end)]).
  rewrite !filter_app, !map_app.
  pose proof (one_gap d "00:00:00" (StartTime first) [] eq_refl Hsf) as H0.
  change (clock_of "00:00:00") with 0 in H0. cbn [app] in H0.
  pose proof (one_gap d (EndTime final) "23:59:59"
                (map gap_of (filter longer_than_two_minutes [(0, clock_of (StartTime first))])
                 ++ map gap_of (filter longer_than_two_minutes
                                  (between (map span_of (first :: segs)))))
                Hel eq_refl) as H1.
  change (clock_of "23:59:59") with (23 * 3600 + 59 * 60 + 59) in H1.
  rewrite H0. rewrite H1. clear H0 H1.
  change (23 * 3600 + 59 * 60 + 59) with day_end.
  now rewrite <- app_assoc.
Qed.

End GapFacts.

(* ------------------------------------------------------------------ *)
(** ** The recordings list and the timeline *)

Section TimelineClaims.
Import GoTime Dirent WebUI WebUISpec ExchangeSort.
Variable BasePath : string.
Variable Glob : string -> option (list string).
Variable Stat : string -> option FileInfo.

Lemma parse_date_nonempty date day : parse_date date = Some day -> String.eqb date "" = false.
Proof. destruct date; [discriminate|reflexivity]. Qed.

(** The reply of the timeline to a well-formed request. *)
Lemma timeline_reply camera date day files parsed :
  camera <> "" ->
  parse_date date = Some day ->
  Glob (ts_pattern BasePath camera date) = Some files ->
  timeline_loop Stat (midnight_utc day) files = Returned parsed ->
  handleRecordingsTimeline BasePath Glob Stat camera date
  = Returned
      (let segments := sort starts_later parsed in
       let gaps := detect_gaps (midnight_utc day) segments in
       Timeline camera date segments gaps (recorded_minutes segments gaps)).
Proof.
  intros Hcam Hdate Hglob Hloop. unfold handleRecordingsTimeline.
  apply String.eqb_neq in Hcam. rewrite Hcam, (parse_date_nonempty date day Hdate).
  cbn [orb]. rewrite Hdate. fold (ts_pattern BasePath camera date).
  now rewrite Hglob, Hloop.
Qed.

(** C7.  For a request that names a camera and a valid date, the timeline
    reports the segments of the files found, rearranged in start order,
    and its gaps are exactly the periods longer than two minutes among:
    midnight to the first start, the end of each segment to the start of
    the next, and the last end to 23:59:59; with no segment it reports the
    single gap 00:00:00-23:59:59 of 1440 minutes. *)
Theorem timeline_gaps_as_specified camera date day files parsed :
  camera <> "" ->
  parse_date date = Some day ->
  Glob (ts_pattern BasePath camera date) = Some files ->
  timeline_loop Stat (midnight_utc day) files = Returned parsed ->
  exists segs gaps mins,
    handleRecordingsTimeline BasePath Glob Stat camera date
    = Returned (Timeline camera date segs gaps mins)
    /\ Permutation parsed segs
    /\ StronglySorted starts_le segs
    /\ gaps = gaps_spec (map span_of segs)
    /\ (parsed = [] -> gaps = [whole_day]).
Proof.
  intros Hcam Hdate Hglob Hloop.
  rewrite (timeline_reply camera date day files parsed Hcam Hdate Hglob Hloop).
  cbv zeta. do 3 eexists. split; [reflexivity|].
  destruct (timeline_loop_inv Stat day files parsed Hloop) as [starts [-> [_ Hat]]].
  destruct (sorted_segments starts Hat) as [Hperm [Hsorted [Hwf _]]].
  split; [exact Hperm|]. split; [exact Hsorted|]. split.
  - now apply detect_gaps_spec.
  - intros Hnil. now rewrite Hnil.
Qed.

(** C8, as amended.  Every segment of a timeline ends 30 minutes after it
    starts, whatever segment duration is configured, and at 23:59:59 when
    that would cross midnight; a segment that starts at 23:45:00 ends at
    23:59:59. *)
Theorem timeline_segments_end_after_30_minutes camera date day files parsed :
  camera <> "" ->
  parse_date date = Some day ->
  Glob (ts_pattern BasePath camera date) = Some files ->
  timeline_loop Stat (midnight_utc day) files = Returned parsed ->
  exists segs gaps mins,
    handleRecordingsTimeline BasePath Glob Stat camera date
    = Returned (Timeline camera date segs gaps mins)
    /\ Forall (fun seg =>
                 0 <= clock_of (StartTime seg) < 86400
                 /\ EndTime seg
                    = render_clock (clamped_end (clock_of (StartTime seg)) 1800)) segs
    /\ render_clock (clamped_end (clock_of "23:45:00") 1800) = "23:59:59".
Proof.
  intros Hcam Hdate Hglob Hloop.
  rewrite (timeline_reply camera date day files parsed Hcam Hdate Hglob Hloop).
  cbv zeta. do 3 eexists. split; [reflexivity|]. split; [|reflexivity].
  destruct (timeline_loop_inv Stat day files parsed Hloop) as [starts [-> [_ Hat]]].
  destruct (sorted_segments starts Hat) as [_ [_ [Hwf Hend]]].
  rewrite Forall_forall in Hwf, Hend |- *. intros seg Hseg. split.
  - destruct (Hwf seg Hseg) as [a [b [Ha [_ [Hs _]]]]].
    rewrite Hs, clock_of_render; assumption.
  - exact (Hend seg Hseg).
Qed.

End TimelineClaims.

Section ShortNames.
Import GoTime Dirent WebUI WebUISpec ExchangeSort.
Variable BasePath : string.
Variable Glob : string -> option (list string).
Variable Stat : string -> option FileInfo.

Lemma substring_length : forall s n m,
  (n + m <= String.length s)%nat -> String.length (substring n m s) = m.
Proof.
  induction s as [|c s IH]; intros [|n] [|m] H; simpl in *; try lia; auto.
  - rewrite IH; lia.
  - apply IH. lia.
  - apply IH. lia.
Qed.

Lemma slice_in_range s lo hi :
  (lo <= hi)%nat -> (hi <= String.length s)%nat ->
  GoString.slice s lo hi = Some (substring lo (hi - lo) s).
Proof.
  intros H1 H2. unfold GoString.slice.
  apply Nat.leb_le in H1, H2. now rewrite H1, H2.
Qed.

Lemma slice_out_of_range s lo hi :
  (String.length s < hi)%nat -> GoString.slice s lo hi = None.
Proof.
  intros H. unfold GoString.slice. apply Nat.leb_gt in H. rewrite H.
  now rewrite andb_false_r.
Qed.

(** With eight bytes or more in the name, neither loop body panics. *)
Lemma entries_return camera date d file info :
  (8 <= String.length (Filepath.Base file))%nat ->
  (exists r, list_entry camera date file info = Returned r)
  /\ (exists seg, timeline_entry d file = Returned seg).
Proof.
  intros Hlen. unfold list_entry, timeline_entry.
  rewrite (slice_in_range (Filepath.Base file) 0 8) by lia.
  set (timeStr := substring 0 (8 - 0) (Filepath.Base file)).
  assert (Ht : String.length timeStr = 8%nat) by (apply substring_length; simpl; lia).
  rewrite (slice_in_range timeStr 0 2), (slice_in_range timeStr 3 5),
    (slice_in_range timeStr 6 8) by lia.
  split; eexists; reflexivity.
Qed.

(** With fewer than eight bytes in the name, both loop bodies panic. *)
Lemma entries_panic camera date d file info :
  (String.length (Filepath.Base file) < 8)%nat ->
  list_entry camera date file info = Panicked
  /\ timeline_entry d file = Panicked.
Proof.
  intros Hlen. unfold list_entry, timeline_entry.
  now rewrite (slice_out_of_range (Filepath.Base file) 0 8 Hlen).
Qed.

Lemma loops_return camera date d : forall files,
  (forall f, In f files -> found Stat f -> (8 <= String.length (Filepath.Base f))%nat) ->
  (exists recs, list_loop Stat camera date files = Returned recs)
  /\ (exists segs, timeline_loop Stat d files = Returned segs).
Proof.
  induction files as [|file files IH]; intros Hall; simpl.
  - split; eexists; reflexivity.
  - destruct IH as [[recs Hr] [segs Hs]].
    { intros f Hf. apply Hall. now right. }
    destruct (Stat file) as [info|] eqn:E.
    + destruct (entries_return camera date d file info) as [[r Er] [seg Eseg]].
      { apply Hall; [now left|]. unfold found. now rewrite E. }
      rewrite Er, Eseg, Hr, Hs. split; eexists; reflexivity.
    + rewrite Hr, Hs. split; eexists; reflexivity.
Qed.

Lemma loops_panic camera date d : forall files f,
  In f files -> found Stat f -> (String.length (Filepath.Base f) < 8)%nat ->
  list_loop Stat camera date files = Panicked
  /\ timeline_loop Stat d files = Panicked.
Proof.
  induction files as [|file files IH]; intros f Hin Hfound Hshort; [destruct Hin|].
  simpl. destruct Hin as [->|Hin].
  - unfold found in Hfound. destruct (Stat f) as [info|]; [|now destruct Hfound].
    destruct (entries_panic camera date d f info Hshort) as [-> ->]. now split.
  - destruct (IH f Hin Hfound Hshort) as [Hl Ht]. rewrite Hl, Ht.
    destruct (Stat file) as [info|]; [|now split].
    destruct (list_entry camera date file info), (timeline_entry d file); now split.
Qed.

(** C10.  The list and the timeline handlers take the first eight bytes of
    the name of every file that [Glob] matched and [Stat] found, without
    looking at its length.  When all those names have eight bytes or
    more, both handlers return a reply; a request for a camera and a
    valid date whose partition holds a matched file with a shorter name,
    as [a.ts], makes both panic. *)
Theorem short_name_panics (camera date : string) :
  ((forall files f, Glob (ts_pattern BasePath camera date) = Some files ->
      In f files -> found Stat f -> (8 <= String.length (Filepath.Base f))%nat) ->
   handleRecordingsList BasePath Glob Stat camera date <> Panicked
   /\ handleRecordingsTimeline BasePath Glob Stat camera date <> Panicked)
  /\ (forall day files f,
        camera <> "" -> parse_date date = Some day ->
        Glob (ts_pattern BasePath camera date) = Some files ->
        In f files -> found Stat f -> (String.length (Filepath.Base f) < 8)%nat ->
        handleRecordingsList BasePath Glob Stat camera date = Panicked
        /\ handleRecordingsTimeline BasePath Glob Stat camera date = Panicked).
Proof.
  split.
  - intros Hall. unfold handleRecordingsList, handleRecordingsTimeline.
    destruct (String.eqb camera "" || String.eqb date "")%bool; [split; discriminate|].
    destruct (parse_date date) as [day|]; [|split; discriminate].
    fold (ts_pattern BasePath camera date).
    destruct (Glob (ts_pattern BasePath camera date)) as [files|] eqn:Eg;
      [|split; discriminate].
    destruct (loops_return camera date (midnight_utc day) files) as [[recs Hr] [segs Hs]].
    { intros f. now apply Hall. }
    rewrite Hr, Hs. split; discriminate.
  - intros day files f Hcam Hdate Hglob Hin Hfound Hshort.
    unfold handleRecordingsList, handleRecordingsTimeline.
    apply String.eqb_neq in Hcam.
    rewrite Hcam, (parse_date_nonempty date day Hdate). cbn [orb]. rewrite Hdate.
    fold (ts_pattern BasePath camera date). rewrite Hglob.
    destruct (loops_panic camera date (midnight_utc day) files f Hin Hfound Hshort)
      as [-> ->].
    now split.
Qed.

End ShortNames.

Section TimelineExamples.
Import GoTime Dirent WebUI WebUISpec ExchangeSort.

(** The two segments of the sixth scenario, found out of order: three
    gaps, the one between them of fifteen minutes. *)
Example timeline_two_segments :
  handleRecordingsTimeline "/recordings" (glob_of jan10_dir two_segments)
    (stat_of jan10_dir two_segments) "cam1" "2025-01-10"
  = Returned
      (Timeline "cam1" "2025-01-10"
         [ {| StartTime := "08:00:00"; EndTime := "08:30:00"; Filename := "08-00-00.ts" |};
           {| StartTime := "08:45:00"; EndTime := "09:15:00"; Filename := "08-45-00.ts" |} ]
         [ {| g_StartTime := "00:00:00"; g_EndTime := "08:00:00"; DurationMins := 480 |};
           {| g_StartTime := "08:30:00"; g_EndTime := "08:45:00"; DurationMins := 15 |};
           {| g_StartTime := "09:15:00"; g_EndTime := "23:59:59"; DurationMins := 884 |} ]
         61).
Proof. vm_compute. reflexivity. Qed.

(** The timeline theorem on those two segments. *)
Lemma timeline_gaps_witness :
  exists segs gaps mins,
    handleRecordingsTimeline "/recordings" (glob_of jan10_dir two_segments)
      (stat_of jan10_dir two_segments) "cam1" "2025-01-10"
    = Returned (Timeline "cam1" "2025-01-10" segs gaps mins)
    /\ StronglySorted starts_le segs
    /\ gaps = gaps_spec (map span_of segs).
Proof.
  assert (Hloop : exists parsed,
            timeline_loop (stat_of jan10_dir two_segments)
              (midnight_utc (day_number 2025 1 10))
              (map (fun n => Filepath.Join [jan10_dir; n]) two_segments)
            = Returned parsed)
    by (eexists; vm_compute; reflexivity).
  destruct Hloop as [parsed Hloop].
  destruct (timeline_gaps_as_specified "/recordings"
              (glob_of jan10_dir two_segments) (stat_of jan10_dir two_segments)
              "cam1" "2025-01-10" (day_number 2025 1 10)
              (map (fun n => Filepath.Join [jan10_dir; n]) two_segments) parsed)
    as [segs [gaps [mins [Hreply [_ [Hsorted [Hgaps _]]]]]]].
  - discriminate.
  - vm_compute. reflexivity.
  - vm_compute. reflexivity.
  - exact Hloop.
  - exists segs, gaps, mins. auto.
Defined.

(** The end-time theorem on a segment that starts at 23:45:00. *)
Lemma timeline_end_witness :
  exists segs gaps mins,
    handleRecordingsTimeline "/recordings" (glob_of jan10_dir ["23-45-00.ts"])
      (stat_of jan10_dir ["23-45-00.ts"]) "cam1" "2025-01-10"
    = Returned (Timeline "cam1" "2025-01-10" segs gaps mins)
    /\ Forall (fun seg =>
                 0 <= clock_of (StartTime seg) < 86400
                 /\ EndTime seg
                    = render_clock (clamped_end (clock_of (StartTime seg)) 1800)) segs.
Proof.
  assert (Hloop : exists parsed,
            timeline_loop (stat_of jan10_dir ["23-45-00.ts"])
              (midnight_utc (day_number 2025 1 10))
              (map (fun n => Filepath.Join [jan10_dir; n]) ["23-45-00.ts"])
            = Returned parsed)
    by (eexists; vm_compute; reflexivity).
  destruct Hloop as [parsed Hloop].
  destruct (timeline_segments_end_after_30_minutes "/recordings"
              (glob_of jan10_dir ["23-45-00.ts"]) (stat_of jan10_dir ["23-45-00.ts"])
              "cam1" "2025-01-10" (day_number 2025 1 10)
              (map (fun n => Filepath.Join [jan10_dir; n]) ["23-45-00.ts"]) parsed)
    as [segs [gaps [mins [Hreply [Hends _]]]]].
  - discriminate.
  - vm_compute. reflexivity.
  - vm_compute. reflexivity.
  - exact Hloop.
  - exists segs, gaps, mins. auto.
Defined.

Example timeline_clamps_end :
  handleRecordingsTimeline "/recordings" (glob_of jan10_dir ["23-45-00.ts"])
    (stat_of jan10_dir ["23-45-00.ts"]) "cam1" "2025-01-10"
  = Returned
      (Timeline "cam1" "2025-01-10"
         [ {| StartTime := "23:45:00"; EndTime := "23:59:59"; Filename := "23-45-00.ts" |} ]
         [ {| g_StartTime := "00:00:00"; g_EndTime := "23:45:00"; DurationMins := 1425 |} ]
         15).
Proof. vm_compute. reflexivity. Qed.

(** C8, counterexample.  With [storage.segment_duration] set to 600 the
    segment that starts at 10:00:00 is reported to end at 10:30:00, not at
    10:10:00. *)
Lemma timeline_ignores_configured_duration :
  ~ timeline_ends_as_configured 600 (glob_of jan10_dir ["10-00-00.ts"])
      (stat_of jan10_dir ["10-00-00.ts"]) "cam1" "2025-01-10".
Proof.
  intros H.
  assert (Hreply : exists segs gaps mins,
            handleRecordingsTimeline "/recordings" (glob_of jan10_dir ["10-00-00.ts"])
              (stat_of jan10_dir ["10-00-00.ts"]) "cam1" "2025-01-10"
            = Returned (Timeline "cam1" "2025-01-10" segs gaps mins)
            /\ segs = [ {| StartTime := "10:00:00"; EndTime := "10:30:00";
                           Filename := "10-00-00.ts" |} ])
    by (do 3 eexists; split; vm_compute; reflexivity).
  destruct Hreply as [segs [gaps [mins [Hreply Hsegs]]]].
  specialize (H segs gaps mins Hreply). subst segs.
  inversion H as [|? ? Hend _]. unfold ends_after_configured in Hend.
  vm_compute in Hend. discriminate Hend.
Qed.

(** The panic theorem on a partition that holds [a.ts]. *)
Lemma short_name_witness :
  handleRecordingsList "/recordings" (glob_of jan10_dir ["10-00-00.ts"; "a.ts"])
    (stat_of jan10_dir ["10-00-00.ts"; "a.ts"]) "cam1" "2025-01-10" = Panicked
  /\ handleRecordingsTimeline "/recordings" (glob_of jan10_dir ["10-00-00.ts"; "a.ts"])
       (stat_of jan10_dir ["10-00-00.ts"; "a.ts"]) "cam1" "2025-01-10" = Panicked.
Proof.
  destruct (short_name_panics "/recordings"
              (glob_of jan10_dir ["10-00-00.ts"; "a.ts"])
              (stat_of jan10_dir ["10-00-00.ts"; "a.ts"]) "cam1" "2025-01-10")
    as [_ H].
  apply (H (day_number 2025 1 10)
           (map (fun n => Filepath.Join [jan10_dir; n]) ["10-00-00.ts"; "a.ts"])
           (Filepath.Join [jan10_dir; "a.ts"])).
  - discriminate.
  - vm_compute. reflexivity.
  - vm_compute. reflexivity.
  - right. left. reflexivity.
  - unfold found. vm_compute. discriminate.
  - vm_compute. lia.
Defined.

End TimelineExamples.

(* ------------------------------------------------------------------ *)
(** ** The recording file routes *)

Section FileRoutes.
Import GoTime Dirent WebUI WebUISpec.

(** What the raw segment route serves has passed both of its checks. *)
Lemma playback_serves_checked (BasePath wd urlPath filePath : string) :
  handleRecordingPlayback BasePath wd urlPath = Returned (ServeFile filePath) ->
  exists camera date filename,
    filePath = Filepath.Join [BasePath; camera; "recordings"; date; filename]
    /\ Filepath.Ext filename = ".ts"
    /\ Filepath.HasPrefix (Filepath.Abs wd filePath)
         (Filepath.Abs wd (Filepath.Join [BasePath; camera; "recordings"])) = true.
Proof.
  unfold handleRecordingPlayback.
  destruct (GoString.slice_from urlPath _) as [trimmed|]; [|discriminate].
  destruct (first_slash trimmed 0) as [i|]; [|discriminate].
  destruct (String.eqb (substring 0 i trimmed) ""); [discriminate|].
  destruct (_ && _)%bool; [|discriminate].
  destruct (_ || _)%bool; [discriminate|].
  destruct (parse_date _); [|discriminate].
  destruct (String.eqb (Filepath.Ext _) ".ts") eqn:Eext; [|discriminate].
  cbn [negb].
  destruct (escapes BasePath wd _ _) eqn:Eesc; [discriminate|].
  intros H. injection H as <-.
  do 3 eexists. split; [reflexivity|]. split; [now apply String.eqb_eq|].
  unfold escapes in Eesc. now apply negb_false_iff in Eesc.
Qed.

(** The raw segment route refuses a file that is not a [.ts] file. *)
Example playback_refuses_notes :
  handleRecordingPlayback "/recordings" "/" "/recordings/cam1/2025-01-10/notes.txt"
  = Returned (Error "Invalid file type" StatusBadRequest).
Proof. vm_compute. reflexivity. Qed.

(** The raw segment route refuses a name that climbs out of the folder. *)
Example playback_refuses_climb :
  handleRecordingPlayback "/recordings" "/"
    "/recordings/cam1/2025-01-10/../../../../etc/passwd.ts"
  = Returned (Error "Forbidden" StatusForbidden).
Proof. vm_compute. reflexivity. Qed.

(** C3, where the code departs from it.  The playlist route answers with
    a manifest for an existing file that is not a [.ts] file, which the
    raw segment route refuses; and with [..] as the camera both checks
    of the playlist route pass for a file outside the storage root. *)
Theorem playlist_route_misses_checks :
  Filepath.Ext "notes.txt" <> ".ts"
  /\ handleRecordingPlaylist "/recordings" "/" (stat_of jan10_dir ["notes.txt"])
       "/api/recordings/playlist/cam1/2025-01-10/notes.txt"
     = Returned (Manifest "/recordings/cam1/2025-01-10/notes.txt")
  /\ Filepath.Join ["/data/nvr"; ".."; "recordings"; "2025-01-10"; "a.ts"]
     = "/data/recordings/2025-01-10/a.ts"
  /\ Filepath.HasPrefix "/data/recordings/2025-01-10/a.ts" "/data/nvr" = false
  /\ handleRecordingPlaylist "/data/nvr" "/"
       (stat_of "/data/recordings/2025-01-10" ["a.ts"])
       "/api/recordings/playlist/../2025-01-10/a.ts"
     = Returned (Manifest "/recordings/../2025-01-10/a.ts").
Proof.
  split; [discriminate|].
  repeat split; vm_compute; reflexivity.
Qed.

End FileRoutes.

(* ------------------------------------------------------------------ *)
(** ** Calendar and date strings *)

Section CalendarFacts.
Import GoTime.

(** The year of a day of the 400-year cycle, and the day within it. *)
Lemma cycle_year (doe : Z) :
  0 <= doe < 146097 ->
  0 <= year_in_cycle doe < 400
  /\ 0 <= doe - year_start (year_in_cycle doe) <= 365
  /\ (doe - year_start (year_in_cycle doe) = 365 ->
        (year_in_cycle doe + 1) mod 4 = 0
        /\ ((year_in_cycle doe + 1) mod 100 <> 0 \/ year_in_cycle doe + 1 = 400)).
Proof.
  intros Hd.
  destruct (Z.eq_dec doe 146096) as [->|Hne].
  { vm_compute. repeat split; try discriminate; auto. }
  destruct (locate_year (Z.to_nat 400) doe) as [y [Hy Hs]].
  { rewrite Z2Nat.id by lia. change (year_start 400) with 146096. lia. }
  rewrite Z2Nat.id in Hy by lia.
  rewrite (year_of doe y Hy Hs).
  pose proof (year_length y) as Hlen.
  split; [lia|]. split; [lia|].
  intros E. assert (Hl : year_start (y + 1) - year_start y = 366) by lia.
  clear - Hl Hy. unfold year_start in Hl.
  split; [Z.div_mod_to_equations; lia|].
  left. Z.div_mod_to_equations. lia.
Qed.

Lemma month_day_all :
  holds_from (fun doy =>
    let mp := (5 * doy + 2) / 153 in
    let d := doy - (153 * mp + 2) / 5 + 1 in
    let m := if mp <? 10 then mp + 3 else mp - 9 in
    (0 <=? mp) && (mp <=? 11) && (1 <=? d)
    && (d <=? (if m =? 2 then (if doy =? 365 then 29 else 28) else daysIn m 1))
    && ((153 * mp + 2) / 5 + d - 1 =? doy)
    && (Bool.eqb (m <=? 2) (306 <=? doy)))%bool 0 (Z.to_nat 366) = true.
Proof. vm_compute. reflexivity. Qed.

(** The month and the day of a day of a year that starts on 1 March. *)
Lemma month_day (doy : Z) :
  0 <= doy <= 365 ->
  let mp := (5 * doy + 2) / 153 in
  let d := doy - (153 * mp + 2) / 5 + 1 in
  let m := if mp <? 10 then mp + 3 else mp - 9 in
  0 <= mp <= 11 /\ 1 <= d
  /\ d <= (if m =? 2 then (if doy =? 365 then 29 else 28) else daysIn m 1)
  /\ (153 * mp + 2) / 5 + d - 1 = doy
  /\ ((m <=? 2) = (306 <=? doy)).
Proof.
  intros Hd. pose proof (holds_from_spec _ _ _ month_day_all doy) as H.
  rewrite Z2Nat.id in H by lia. specialize (H ltac:(lia)). cbv zeta in H |- *.
  repeat (apply andb_true_iff in H; destruct H as [H ?]).
  repeat match goal with
         | X : (_ <=? _) = true |- _ => apply Z.leb_le in X
         | X : (_ =? _) = true |- _ => apply Z.eqb_eq in X
         | X : Bool.eqb _ _ = true |- _ => apply Bool.eqb_prop in X
         end.
  repeat split; assumption.
Qed.

Lemma daysIn_other_year (m y y' : Z) : m <> 2 -> daysIn m y = daysIn m y'.
Proof. intros Hm. unfold daysIn. apply Z.eqb_neq in Hm. now rewrite Hm. Qed.


Lemma leap_in_cycle (yoe era : Z) :
  (yoe + 1) mod 4 = 0 ->
  (yoe + 1) mod 100 <> 0 \/ yoe + 1 = 400 ->
  is_leap (yoe + era * 400 + 1) = true.
Proof.
  intros H4 H100. unfold is_leap.
  apply andb_true_iff. split.
  - apply Z.eqb_eq. Z.div_mod_to_equations. lia.
  - apply orb_true_iff. destruct H100 as [H|H].
    + left. apply negb_true_iff, Z.eqb_neq. Z.div_mod_to_equations. lia.
    + right. apply Z.eqb_eq. Z.div_mod_to_equations. lia.
Qed.

(** The civil date of a day number is a date of the calendar, and it is
    the date of that day number. *)
Lemma civil_of_day_spec (n : Z) :
  exists y m d,
    civil_of_day n = (y, m, d)
    /\ day_number y m d = n
    /\ 1 <= m <= 12 /\ 1 <= d <= daysIn m y
    /\ y = year_in_cycle ((n + 306) mod 146097) + (n + 306) / 146097 * 400
           + (if m <=? 2 then 1 else 0)
    /\ ((m <=? 2) = (306 <=? (n + 306) mod 146097
                              - year_start (year_in_cycle ((n + 306) mod 146097)))).
Proof.
  unfold civil_of_day.
  set (z := n + 306). set (era := z / 146097).
  assert (Edoe : z - era * 146097 = z mod 146097)
    by (unfold era; rewrite Z.mod_eq by lia; lia).
  rewrite Edoe. set (doe := z mod 146097) in *.
  assert (Hdoe : 0 <= doe < 146097) by (apply Z.mod_pos_bound; lia).
  change ((doe - doe / 1460 + doe / 36524 - doe / 146096) / 365)
    with (year_in_cycle doe).
  destruct (cycle_year doe Hdoe) as [Hy [Hdoy Hleap]].
  set (yoe := year_in_cycle doe) in *.
  change (365 * yoe + yoe / 4 - yoe / 100) with (year_start yoe).
  set (doy := doe - year_start yoe) in *.
  destruct (month_day doy Hdoy) as [Hmp [Hd1 [Hd2 [Hinv Hm]]]].
  cbv zeta in Hd1, Hd2, Hinv, Hm.
  set (mp := (5 * doy + 2) / 153) in *.
  set (d := doy - (153 * mp + 2) / 5 + 1) in *.
  set (m := if mp <? 10 then mp + 3 else mp - 9) in *.
  cbv zeta.
  assert (Hmr : 1 <= m <= 12) by (unfold m; destruct (mp <? 10) eqn:E;
    [apply Z.ltb_lt in E|apply Z.ltb_ge in E]; lia).
  exists (yoe + era * 400 + (if m <=? 2 then 1 else 0)), m, d.
  split; [reflexivity|]. split; [|split; [exact Hmr|split; [|split; [reflexivity|exact Hm]]]].
  - unfold day_number.
    assert (Ey : (if m <=? 2 then yoe + era * 400 + (if m <=? 2 then 1 else 0) - 1
                  else yoe + era * 400 + (if m <=? 2 then 1 else 0)) = yoe + era * 400)
      by (destruct (m <=? 2); lia).
    rewrite Ey.
    assert (Eera : (yoe + era * 400) / 400 = era)
      by (symmetry; apply Z.div_unique with (r := yoe); lia).
    rewrite Eera.
    replace (yoe + era * 400 - era * 400) with yoe by lia.
    assert (Emp : (if 2 <? m then m - 3 else m + 9) = mp).
    { unfold m. destruct (mp <? 10) eqn:E.
      - apply Z.ltb_lt in E. assert (T : (2 <? mp + 3) = true) by (apply Z.ltb_lt; lia).
        rewrite T. lia.
      - apply Z.ltb_ge in E. assert (T : (2 <? mp - 9) = false) by (apply Z.ltb_ge; lia).
        rewrite T. lia. }
    rewrite Emp. cbv zeta. rewrite Hinv.
    unfold doy, year_start. unfold era in *. unfold doe in *.
    rewrite Z.mod_eq by lia. lia.
  - split; [exact Hd1|].
    destruct (m =? 2) eqn:E2.
    + apply Z.eqb_eq in E2. rewrite E2 in *. cbn [Z.leb Z.compare Pos.compare Pos.compare_cont].
      unfold daysIn. cbn [Z.eqb Pos.eqb].
      destruct (doy =? 365) eqn:E365.
      * apply Z.eqb_eq in E365. destruct (Hleap E365) as [H4 H100].
        rewrite (leap_in_cycle yoe era H4 H100). exact Hd2.
      * destruct (is_leap _); lia.
    + apply Z.eqb_neq in E2.
      rewrite (daysIn_other_year m _ 1 E2). exact Hd2.
Qed.


(** Dates of the years 1 to 9999, the ones the layout prints with four
    digits, are the day numbers from 0 to 3652058. *)
Lemma civil_year_range (n : Z) :
  0 <= n < 3652059 ->
  forall y m d, civil_of_day n = (y, m, d) -> 1 <= y <= 9999.
Proof.
  intros Hn y m d E.
  destruct (civil_of_day_spec n) as [y' [m' [d' [E' [_ [_ [_ [Hy Hm]]]]]]]].
  rewrite E in E'. injection E' as <- <- <-.
  assert (Hdoe : 0 <= (n + 306) mod 146097 < 146097) by (apply Z.mod_pos_bound; lia).
  destruct (cycle_year _ Hdoe) as [Hyoe [Hdoy _]].
  set (doe := (n + 306) mod 146097) in *.
  set (yoe := year_in_cycle doe) in *.
  set (era := (n + 306) / 146097) in *.
  assert (Hz : n + 306 = 146097 * era + doe)
    by (unfold era, doe; apply Z.div_mod; lia).
  assert (Hera : 0 <= era <= 24) by lia.
  destruct (m <=? 2) eqn:Em; symmetry in Hm.
  - apply Z.leb_le in Hm. split; [lia|].
    destruct (Z.eq_dec era 24) as [E24|]; [|lia].
    destruct (Z.eq_dec yoe 399) as [E399|]; [|lia].
    rewrite E399 in Hm. change (year_start 399) with 145731 in Hm. lia.
  - apply Z.leb_gt in Hm. split; [|lia].
    destruct (Z.eq_dec era 0) as [E0|]; [|lia].
    destruct (Z.eq_dec yoe 0) as [Ey0|]; [|lia].
    rewrite Ey0 in Hm. change (year_start 0) with 0 in Hm. lia.
Qed.

End CalendarFacts.

Section DigitFacts.

Lemma length_app (s1 s2 : string) :
  String.length (s1 ++ s2) = (String.length s1 + String.length s2)%nat.
Proof. induction s1 as [|c s1 IH]; simpl; [reflexivity|now rewrite IH]. Qed.

Lemma pad_digits_length : forall w n, String.length (GoString.pad_digits w n) = w.
Proof.
  induction w as [|w IH]; intros n; simpl; [reflexivity|].
  rewrite length_app, IH. simpl. lia.
Qed.

Lemma atoi_acc_app : forall s1 s2 acc,
  GoString.atoi_acc acc (s1 ++ s2)
  = match GoString.atoi_acc acc s1 with
    | Some a => GoString.atoi_acc a s2
    | None => None
    end.
Proof.
  induction s1 as [|c s1 IH]; intros s2 acc; simpl; [reflexivity|].
  destruct (GoString.is_digit c); [apply IH|reflexivity].
Qed.

Lemma digit_char_read (k : Z) :
  0 <= k <= 9 ->
  GoString.is_digit (GoString.digit_char k) = true
  /\ GoString.digit_val (GoString.digit_char k) = k.
Proof.
  intros Hk.
  assert (H : k = 0 \/ k = 1 \/ k = 2 \/ k = 3 \/ k = 4 \/ k = 5 \/ k = 6 \/ k = 7
              \/ k = 8 \/ k = 9) by lia.
  repeat (destruct H as [-> | H]; [split; reflexivity|]). subst. split; reflexivity.
Qed.

(** Reading the [w] low digits of [n] after [acc]. *)
Lemma atoi_acc_pad : forall w n acc,
  0 <= n ->
  GoString.atoi_acc acc (GoString.pad_digits w n)
  = Some (acc * 10 ^ Z.of_nat w + n mod 10 ^ Z.of_nat w).
Proof.
  induction w as [|w IH]; intros n acc Hn.
  - simpl. rewrite Z.mod_1_r. f_equal. lia.
  - cbn [GoString.pad_digits]. rewrite atoi_acc_app, IH by (apply Z.div_pos; lia).
    cbn [GoString.atoi_acc].
    destruct (digit_char_read (n mod 10)) as [Hd Hv];
      [pose proof (Z.mod_pos_bound n 10); lia|].
    rewrite Hd, Hv. f_equal.
    rewrite Nat2Z.inj_succ, Z.pow_succ_r by lia.
    rewrite (Z.rem_mul_r n 10 (10 ^ Z.of_nat w)) by lia.
    lia.
Qed.

(** A field of [w] digits reads back as its value. *)
Lemma fixed_num_pad (w : nat) (n : Z) :
  (0 < w)%nat -> 0 <= n < 10 ^ Z.of_nat w ->
  GoString.fixed_num w (GoString.pad_digits w n) = Some n.
Proof.
  intros Hw Hn. unfold GoString.fixed_num.
  rewrite pad_digits_length, Nat.eqb_refl.
  destruct (GoString.pad_digits w n) eqn:E.
  - pose proof (pad_digits_length w n) as L. rewrite E in L. simpl in L. lia.
  - rewrite <- E, atoi_acc_pad by lia. rewrite Z.mod_small by lia. f_equal.
Qed.

End DigitFacts.

Section DateStrings.
Import GoTime Storage.

Lemma date_fields (ys ms ds : string) :
  String.length ys = 4%nat -> String.length ms = 2%nat -> String.length ds = 2%nat ->
  parse_date (ys ++ "-" ++ ms ++ "-" ++ ds)
  = match GoString.fixed_num 4 ys, GoString.fixed_num 2 ms, GoString.fixed_num 2 ds with
    | Some y, Some m, Some d =>
        if ((1 <=? m) && (m <=? 12) && (1 <=? d) && (d <=? daysIn m y))%bool
        then Some (day_number y m d) else None
    | _, _, _ => None
    end
  /\ is_date_name (ys ++ "-" ++ ms ++ "-" ++ ds) = true.
Proof.
  destruct ys as [|a [|b [|c [|d [|? ?]]]]]; try discriminate.
  destruct ms as [|e [|f [|? ?]]]; try discriminate.
  destruct ds as [|g [|h [|? ?]]]; try discriminate.
  intros _ _ _. split; reflexivity.
Qed.

(** Parsing a printed date gives the day back. *)
Lemma parse_format_date (n : Z) :
  0 <= n < 3652059 ->
  parse_date (format_date n) = Some n /\ is_date_name (format_date n) = true.
Proof.
  intros Hn.
  destruct (civil_of_day_spec n) as [y [m [d [E [Hnum [Hm [Hd _]]]]]]].
  pose proof (civil_year_range n Hn y m d E) as Hy.
  unfold format_date. rewrite E.
  destruct (date_fields (GoString.pad_digits 4 y) (GoString.pad_digits 2 m)
              (GoString.pad_digits 2 d)) as [Hp Hname];
    try apply pad_digits_length.
  split; [|exact Hname].
  rewrite Hp.
  assert (Hd31 : d <= 31).
  { unfold daysIn in Hd.
    destruct (m =? 2); [destruct (is_leap y)|destruct (_ || _)%bool]; lia. }
  rewrite !fixed_num_pad by (simpl; lia).
  assert (T : ((1 <=? m) && (m <=? 12) && (1 <=? d) && (d <=? daysIn m y))%bool = true).
  { rewrite !andb_true_iff, !Z.leb_le. lia. }
  rewrite T, Hnum. reflexivity.
Qed.

(** A folder named by a printed date is a date directory for the cleaner,
    dated midnight UTC of that day. *)
Lemma dir_date_format (n : Z) :
  0 <= n < 3652059 -> dir_date (format_date n) = Some (midnight_utc n).
Proof.
  intros Hn. destruct (parse_format_date n Hn) as [Hp Hname].
  unfold dir_date. now rewrite Hname, Hp.
Qed.

End DateStrings.

(* ------------------------------------------------------------------ *)
(** ** Configuration *)

Section ConfigFacts.
Import Config.

(** The loop over the cameras ends without an error exactly when every
    enabled camera has a URL, and then it has counted the enabled ones. *)
Lemma count_enabled_spec : forall cams n,
  (forall k, count_enabled cams n = inr k ->
     Forall (fun cam => Enabled cam = true -> URL cam <> "") cams
     /\ k = n + Z.of_nat (List.length (filter Enabled cams)))
  /\ (Forall (fun cam => Enabled cam = true -> URL cam <> "") cams ->
      count_enabled cams n = inr (n + Z.of_nat (List.length (filter Enabled cams)))).
Proof.
  induction cams as [|cam cams IH]; intros n; simpl.
  - split.
    + intros k H. injection H as <-. split; [constructor|lia].
    + intros _. f_equal. lia.
  - destruct (Enabled cam) eqn:En.
    + destruct (String.eqb (URL cam) "") eqn:Eu.
      * split; [discriminate|]. intros H. inversion H as [|? ? Hc _]; subst.
        apply String.eqb_eq in Eu. now elim (Hc En).
      * apply String.eqb_neq in Eu. destruct (IH (n + 1)) as [IH1 IH2]. split.
        -- intros k H. destruct (IH1 k H) as [Hall ->].
           split; [constructor; auto|]. cbn [List.length]. lia.
        -- intros H. inversion H; subst. rewrite IH2 by assumption.
           f_equal. cbn [List.length]. lia.
    + destruct (IH n) as [IH1 IH2]. split.
      * intros k H. destruct (IH1 k H) as [Hall ->].
        split; [constructor; [congruence|assumption]|reflexivity].
      * intros H. inversion H; subst. now apply IH2.
Qed.

Lemma filter_nonempty_Exists {A : Type} (f : A -> bool) (l : list A) :
  filter f l <> [] <-> Exists (fun x => f x = true) l.
Proof.
  induction l as [|x l IH]; simpl.
  - split; [congruence|intros H; inversion H].
  - destruct (f x) eqn:E.
    + split; [intros _; now left|discriminate].
    + rewrite IH. split; [now right|].
      intros H. inversion H; subst; [congruence|assumption].
Qed.

(** X1.  [Validate] accepts a configuration exactly when the base path is
    not empty, the segment duration is at least 60 seconds, every enabled
    camera has a URL and at least one camera is enabled. *)
Theorem Validate_accepts (c : Config) :
  Validate c = None
  <-> Storage.BasePath (Storage c) <> ""
      /\ 60 <= Storage.SegmentDuration (Storage c)
      /\ Forall (fun cam => Enabled cam = true -> URL cam <> "") (Cameras c)
      /\ Exists (fun cam => Enabled cam = true) (Cameras c).
Proof.
  unfold Validate.
  destruct (count_enabled_spec (Cameras c) 0) as [Hk Hall].
  destruct (String.eqb _ "") eqn:Eb.
  { apply String.eqb_eq in Eb. split; [discriminate|]. intros [H _]. contradiction. }
  apply String.eqb_neq in Eb.
  destruct (_ <? 60) eqn:Es.
  { apply Z.ltb_lt in Es. split; [discriminate|]. intros [_ [H _]]. lia. }
  apply Z.ltb_ge in Es.
  destruct (count_enabled (Cameras c) 0) as [err|k] eqn:Ec.
  - split; [discriminate|]. intros [_ [_ [H _]]]. specialize (Hall H). congruence.
  - destruct (Hk k eq_refl) as [HF ->].
    destruct (_ =? 0) eqn:E0.
    + apply Z.eqb_eq in E0. split; [discriminate|]. intros [_ [_ [_ H]]].
      apply filter_nonempty_Exists in H.
      destruct (filter Enabled (Cameras c)); [congruence|simpl in E0; lia].
    + apply Z.eqb_neq in E0. split; [|reflexivity]. intros _.
      repeat split; try assumption.
      apply filter_nonempty_Exists. intros E. rewrite E in E0. simpl in E0. lia.
Qed.

Lemma start_recorders_filter : forall cams recorders,
  start_recorders cams recorders = recorders ++ filter Enabled cams.
Proof.
  induction cams as [|cam cams IH]; intros recorders; simpl.
  - now rewrite app_nil_r.
  - destruct (Enabled cam); simpl.
    + rewrite IH, <- app_assoc. reflexivity.
    + apply IH.
Qed.

(** X2.  With a configuration that [Validate] accepts, [main] starts at
    least one recorder, and every recorder it starts is for an enabled
    camera with a URL, in the order of the configuration. *)
Theorem main_starts_recorders (c : Config) :
  Validate c = None ->
  start_recorders (Cameras c) [] = filter Enabled (Cameras c)
  /\ start_recorders (Cameras c) [] <> []
  /\ Forall (fun cam => Enabled cam = true /\ URL cam <> "")
            (start_recorders (Cameras c) []).
Proof.
  intros H. rewrite start_recorders_filter. cbn [app].
  assert (Hcams : Forall (fun cam => Enabled cam = true -> URL cam <> "") (Cameras c)
                  /\ filter Enabled (Cameras c) <> []).
  { unfold Validate in H.
    destruct (String.eqb _ ""); [discriminate|].
    destruct (_ <? 60); [discriminate|].
    destruct (count_enabled_spec (Cameras c) 0) as [Hk _].
    destruct (count_enabled (Cameras c) 0) as [err|k]; [discriminate|].
    destruct (Hk k eq_refl) as [HF ->].
    destruct (_ =? 0) eqn:E0; [discriminate|]. apply Z.eqb_neq in E0.
    split; [exact HF|]. intros E. rewrite E in E0. cbn in E0. lia. }
  destruct Hcams as [Hurl Hne].
  split; [reflexivity|]. split; [exact Hne|].
  apply Forall_forall. intros cam Hin. apply filter_In in Hin.
  destruct Hin as [Hin En]. split; [exact En|].
  rewrite Forall_forall in Hurl. now apply Hurl.
Qed.

End ConfigFacts.

(* ------------------------------------------------------------------ *)
(** ** The recorder's loops *)

Section RetryFacts.
Import GoTime Config RecorderLoops.

Lemma retry_loop_bound (camera : CameraConfig) : forall script n,
  0 <= n <= MaxRetries camera ->
  failures (fst (retry_loop camera n script)) <= MaxRetries camera - n
  /\ (snd (retry_loop camera n script) = MaxRetriesReached ->
      failures (fst (retry_loop camera n script)) = MaxRetries camera - n).
Proof.
  induction script as [|p script IH]; intros n Hn; simpl.
  - unfold failures. simpl. split; [lia|discriminate].
  - destruct (done_at_start p).
    { unfold failures. simpl. split; [lia|discriminate]. }
    assert (H0 : (0 <=? MaxRetries camera) = true) by (apply Z.leb_le; lia).
    rewrite H0. cbn [andb].
    destruct (MaxRetries camera <=? n) eqn:E.
    { apply Z.leb_le in E. unfold failures. simpl. split; [lia|intros _; lia]. }
    apply Z.leb_gt in E.
    destruct (fails p).
    + destruct (done_in_wait p).
      * unfold failures. simpl. split; [lia|discriminate].
      * destruct (IH (n + 1) ltac:(lia)) as [H1 H2].
        destruct (retry_loop camera (n + 1) script) as [calls e].
        cbn [fst snd] in *. unfold failures in *. cbn [filter List.length].
        split; [lia|]. intros He. specialize (H2 He). lia.
    + destruct (IH n Hn) as [H1 H2].
      destruct (retry_loop camera n script) as [calls e].
      cbn [fst snd] in *. unfold failures in *. cbn [filter].
      split; [exact H1|exact H2].
Qed.

Lemma retry_loop_unbounded (camera : CameraConfig) : forall script n,
  MaxRetries camera < 0 -> snd (retry_loop camera n script) <> MaxRetriesReached.
Proof.
  induction script as [|p script IH]; intros n Hm; simpl; [discriminate|].
  destruct (done_at_start p); [discriminate|].
  assert (H0 : (0 <=? MaxRetries camera) = false) by (apply Z.leb_gt; lia).
  rewrite H0. cbn [andb].
  destruct (fails p).
  - destruct (done_in_wait p); [discriminate|].
    specialize (IH (n + 1) Hm). destruct (retry_loop camera (n + 1) script). exact IH.
  - specialize (IH n Hm). destruct (retry_loop camera n script). exact IH.
Qed.

(** X3.  The retry loop counts every failed run of [record] since it
    started and never resets the count: with [max_retries >= 0] at most
    that many runs fail before the loop gives up, exactly that many when
    it has given up, and none at all is started when [max_retries] is 0;
    with a negative [max_retries] the loop never gives up. *)
Theorem retries_are_counted_for_good (camera : CameraConfig) (script : list pass) :
  let r := startRecording camera script in
  (0 <= MaxRetries camera ->
     failures (fst r) <= MaxRetries camera
     /\ (snd r = MaxRetriesReached -> failures (fst r) = MaxRetries camera))
  /\ (MaxRetries camera = 0 -> fst r = [])
  /\ (MaxRetries camera < 0 -> snd r <> MaxRetriesReached).
Proof.
  cbv zeta. unfold startRecording. split; [|split].
  - intros Hm. destruct (retry_loop_bound camera script 0 ltac:(lia)) as [H1 H2].
    split; [lia|]. intros He. rewrite (H2 He). lia.
  - intros Hm. destruct script as [|p script]; simpl; [reflexivity|].
    destruct (done_at_start p); [reflexivity|]. rewrite Hm. reflexivity.
  - now apply retry_loop_unbounded.
Qed.

End RetryFacts.

Section NextDayFolder.
Import GoTime RecorderLoops.

Lemma local_day_at (tz : Z) (t : Time) (D c : Z) :
  t + tz * Second = D * Day + c -> 0 <= c < Day -> local_day tz t = D.
Proof.
  intros E Hc. unfold local_day. rewrite E.
  symmetry. apply Z.div_unique with (r := c); lia.
Qed.

Lemma local_clock (tz : Z) (t : Time) :
  exists c, t + tz * Second = local_day tz t * Day + c /\ 0 <= c < Day.
Proof.
  exists ((t + tz * Second) mod Day). unfold local_day. split.
  - rewrite (Z.mul_comm _ Day). apply Z.div_mod. discriminate.
  - apply Z.mod_pos_bound. reflexivity.
Qed.

(** The loop sleeps until the next 23:59:00 of the local clock, which is
    less than a day away. *)
Lemma wake_time (tz : Z) (now : Time) :
  exists Dw,
    now + sleepDuration tz now + tz * Second = Dw * Day + (Day - Minute)
    /\ 0 <= sleepDuration tz now < Day
    /\ (Dw = local_day tz now \/ Dw = local_day tz now + 1).
Proof.
  destruct (local_clock tz now) as [c [E Hc]].
  unfold sleepDuration, midnight_after, Add, Sub. cbv zeta.
  set (D := local_day tz now) in *.
  change Day with 86400000000000 in *. change Minute with 60000000000 in *.
  destruct (_ <? 0) eqn:Es.
  - apply Z.ltb_lt in Es. exists (D + 1). split; [lia|]. split; [lia|]. now right.
  - apply Z.ltb_ge in Es. exists D. split; [lia|]. split; [lia|]. now left.
Qed.

(** One round of the loop: the folder it makes is the one of the day
    after the wake-up, and the next round wakes up on that day. *)
Lemma next_round (tz : Z) (now : Time) (r : lateness) (Dw : Z) :
  now + sleepDuration tz now + tz * Second = Dw * Day + (Day - Minute) ->
  0 <= timer_late r < Minute -> 0 <= pause_late r < 23 * Hour ->
  let fired := now + sleepDuration tz now + timer_late r in
  let now' := fired + 2 * Minute + pause_late r in
  tomorrowStr tz fired = format_date (Dw + 1)
  /\ now' + sleepDuration tz now' + tz * Second = (Dw + 1) * Day + (Day - Minute).
Proof.
  intros Ew Hl Hp. cbv zeta. split.
  - unfold tomorrowStr, Add. f_equal.
    apply local_day_at with (c := Day - Minute + timer_late r).
    + change Day with 86400000000000 in *. change Hour with 3600000000000.
      change Minute with 60000000000 in *. lia.
    + change Day with 86400000000000 in *. change Minute with 60000000000 in *. lia.
  - set (now' := now + sleepDuration tz now + timer_late r + 2 * Minute + pause_late r).
    assert (Ed : local_day tz now' = Dw + 1).
    { apply local_day_at with (c := Minute + timer_late r + pause_late r).
      - unfold now'. change Day with 86400000000000 in *.
        change Minute with 60000000000 in *. lia.
      - change Day with 86400000000000. change Hour with 3600000000000 in *.
        change Minute with 60000000000 in *. lia. }
    unfold sleepDuration, midnight_after, Add, Sub. cbv zeta. rewrite Ed.
    assert (En : now' + tz * Second = (Dw + 1) * Day + (Minute + timer_late r + pause_late r)).
    { unfold now'. change Day with 86400000000000 in *.
      change Minute with 60000000000 in *. lia. }
    change Day with 86400000000000 in *. change Hour with 3600000000000 in *.
    change Minute with 60000000000 in *.
    destruct (_ <? 0) eqn:Es.
    + apply Z.ltb_lt in Es. lia.
    + lia.
Qed.

(** X4.  [createNextDayFolder] sleeps until the next 23:59:00 of the
    local clock, less than a day away, and when its timer is less than a
    minute late (and its pause less than 23 hours) it makes, round after
    round, the folders of the days that follow the first wake-up, one a
    day in order. *)
Theorem next_day_folders : forall (rounds : list lateness) (tz : Z) (now : Time),
  Forall (fun r => 0 <= timer_late r < Minute /\ 0 <= pause_late r < 23 * Hour) rounds ->
  let wake := now + sleepDuration tz now in
  0 <= sleepDuration tz now < Day
  /\ (wake + tz * Second) mod Day = 23 * Hour + 59 * Minute
  /\ createNextDayFolder tz now rounds
     = map (fun k => format_date (local_day tz wake + 1 + Z.of_nat k))
           (seq 0 (List.length rounds)).
Proof.
  intros rounds tz now Hall. cbv zeta.
  destruct (wake_time tz now) as [Dw [Ew [Hs _]]].
  assert (Ed : local_day tz (now + sleepDuration tz now) = Dw).
  { apply local_day_at with (c := Day - Minute); [exact Ew|].
    change Day with 86400000000000. change Minute with 60000000000. lia. }
  split; [exact Hs|]. split.
  { rewrite Ew. rewrite Z.add_comm, Z.mod_add by discriminate. reflexivity. }
  rewrite Ed. clear Ed Hs. revert now Dw Ew.
  induction Hall as [|r rounds [Hl Hp] _ IH]; intros now Dw Ew; [reflexivity|].
  cbn [createNextDayFolder List.length seq map].
  destruct (next_round tz now r Dw Ew Hl Hp) as [Ef En]. cbv zeta in Ef, En.
  rewrite Ef, (IH _ (Dw + 1) En). f_equal.
  - f_equal. lia.
  - rewrite <- seq_shift, map_map. apply map_ext. intros k. f_equal. lia.
Qed.

End NextDayFolder.

(* ------------------------------------------------------------------ *)
(** ** More on the cleaner *)

Section CleanupMore.
Import GoTime FS Storage StorageSpec.
Variable rm_ok : FS.path -> bool.
Variable cutoff : Time.





(** A date directory that is not before the cutoff is left, whether or
    not removals succeed. *)
Lemma cleanup_visit_keeps n : forall pre d,
  In d (collect_visit pre n) -> is_old cutoff d = false ->
  In (path d)
     (map path (flat_map (collect_visit pre) (fst (cleanup_visit rm_ok cutoff pre n)))).
Proof.
  induction n as [nm sz|nm ks IH] using node_forall_ind; intros pre d.
  - intros [].
  - cbn [collect_visit cleanup_visit].
    destruct (dir_date nm) as [dd|] eqn:Hd.
    + intros [<-|[]] Hold. unfold is_old in Hold. cbn [date] in Hold.
      rewrite Hold. cbn [fst flat_map collect_visit]. rewrite Hd. now left.
    + intros Hin Hold. cbn [fst flat_map collect_visit]. rewrite Hd, app_nil_r.
      apply in_flat_map in Hin. destruct Hin as [k [Hk Hin]].
      rewrite Forall_forall in IH. specialize (IH k Hk (pre ++ [nm]) d Hin Hold).
      apply in_map_iff in IH. destruct IH as [e [He Hin']].
      apply in_flat_map in Hin'. destruct Hin' as [x [Hx Hdx]].
      apply in_map_iff. exists e. split; [exact He|].
      apply in_flat_map. exists x. split; [|exact Hdx].
      apply in_flat_map. now exists k.
Qed.

End CleanupMore.

Section CleanupClaims.
Import GoTime FS Storage StorageSpec.



End CleanupClaims.

Section FolderSafety.
Import GoTime FS Storage StorageSpec.

Lemma cleanup_keeps (rm_ok : FS.path -> bool) (cutoff : Time) (tree : list node) d :
  In d (collect_dirs tree) -> is_old cutoff d = false ->
  In (path d) (partitions (remaining (cleanup_walk rm_ok cutoff tree))).
Proof.
  unfold collect_dirs, partitions, cleanup_walk. cbn [remaining].
  intros Hin Hold. apply in_flat_map in Hin. destruct Hin as [k [Hk Hd]].
  pose proof (cleanup_visit_keeps rm_ok cutoff k [] d Hd Hold) as H.
  apply in_map_iff in H. destruct H as [e [He Hin]].
  apply in_map_iff. exists e. split; [exact He|].
  apply in_flat_map in Hin. destruct Hin as [x [Hx Hex]].
  unfold collect_dirs. apply in_flat_map. exists x. split; [|exact Hex].
  apply in_flat_map. now exists k.
Qed.

(** The folder of the local day of [now], or of a later day, is not
    before the cutoff of a cleanup at [now]. *)
Lemma today_not_before_cutoff (tz : Z) (now : Time) (R D : Z) :
  -86400 <= tz ->
  2 <= R \/ (1 <= R /\ 0 <= tz) ->
  local_day tz now <= D ->
  Before (midnight_utc D) (AddDate_days now (- R)) = false.
Proof.
  intros Htz HR HD. unfold Before, midnight_utc, AddDate_days.
  apply Z.ltb_ge.
  assert (Hnow : now + tz * Second < (local_day tz now + 1) * Day).
  { unfold local_day. pose proof (Z.mul_succ_div_gt (now + tz * Second) Day Day_pos).
    lia. }
  change Day with 86400000000000 in *. change Second with 1000000000 in *.
  destruct HR as [HR|[HR H0]]; nia.
Qed.

(** What the emergency prune calls recent, for a folder of the local day
    of [now] or of a later day. *)
Lemma today_is_recent (tz : Z) (now : Time) (d : DirInfo) (D : Z) :
  -86400 <= tz -> date d = midnight_utc D -> local_day tz now <= D ->
  is_recent now d = true.
Proof.
  intros Htz Hd HD. unfold is_recent, After, AddDate_days. rewrite Hd.
  unfold midnight_utc. apply Z.ltb_lt.
  assert (Hnow : now + tz * Second < (local_day tz now + 1) * Day).
  { unfold local_day. pose proof (Z.mul_succ_div_gt (now + tz * Second) Day Day_pos).
    lia. }
  change Day with 86400000000000 in *. change Second with 1000000000 in *. nia.
Qed.

(** Whatever fails, the emergency prune deletes only directories that it
    saw as not recent, and the tree it leaves is the tree without them. *)
Lemma prune_loop_general (rm_ok : FS.path -> bool)
    (statfs : list node -> option Statfs_t) (now_at : nat -> Time) (total : Z) :
  forall dirs i st,
    let r := prune_loop rm_ok statfs now_at total i dirs st in
    exists del,
      p_deleted r = p_deleted st ++ del
      /\ p_tree r = remove_each del (p_tree st)
      /\ Forall (fun d => In d dirs /\ seen_not_recent now_at d) del.
Proof.
  induction dirs as [|dir rest IH]; intros i st; cbv zeta.
  - exists []. cbn. rewrite app_nil_r. repeat split. constructor.
  - cbn [prune_loop].
    assert (Hskip : forall st', p_deleted st' = p_deleted st -> p_tree st' = p_tree st ->
      exists del,
        p_deleted (prune_loop rm_ok statfs now_at total (S i) rest st')
        = p_deleted st ++ del
        /\ p_tree (prune_loop rm_ok statfs now_at total (S i) rest st')
           = remove_each del (p_tree st)
        /\ Forall (fun d => In d (dir :: rest) /\ seen_not_recent now_at d) del).
    { intros st' Hd Ht. destruct (IH (S i) st') as [del [H1 [H2 H3]]].
      exists del. rewrite H1, H2, Hd, Ht. repeat split.
      eapply Forall_impl; [|exact H3]. intros d [Hin Hn]. split; [now right|exact Hn]. }
    destruct (floor_reached total _).
    { exists []. cbn. rewrite app_nil_r. repeat split. constructor. }
    destruct (is_recent (now_at i) dir) eqn:Hr; [now apply Hskip|].
    destruct (rm_ok (path dir)); [|now apply Hskip].
    destruct (IH (S i) {| p_tree := RemoveAll (path dir) (p_tree st);
                          p_stat := match statfs (p_tree st) with
                                    | Some s => s
                                    | None => p_stat st
                                    end;
                          p_deleted := p_deleted st ++ [dir];
                          p_stopped := false |}) as [del [H1 [H2 H3]]].
    exists (dir :: del). rewrite H1, H2. cbn [p_deleted p_tree].
    split; [now rewrite <- app_assoc|]. split; [reflexivity|].
    constructor.
    + split; [now left|now exists i].
    + eapply Forall_impl; [|exact H3]. intros d [Hin Hn]. split; [now right|exact Hn].
Qed.


(** X5.  The folder that the recorder makes for a day is a date directory
    for the cleaner, dated midnight UTC of that day, and from that day on
    it is not deleted until the day is over: a cleanup pass leaves it when
    the retention horizon is at least two days (at least one day on a
    clock not west of UTC), and the emergency prune always leaves it,
    whatever removals or [Statfs] calls fail. *)
Theorem recording_folder_is_kept
    (rm_ok : FS.path -> bool) (statfs : list node -> option Statfs_t)
    (c : Cleaner) (tz : Z) (made : Time) (tree : list node) (d : DirInfo) :
  -86400 <= tz ->
  0 <= local_day tz made < 3652059 ->
  In d (collect_dirs tree) ->
  last (path d) "" = Recorder.today_str tz made ->
  date d = midnight_utc (local_day tz made)
  /\ (forall now,
        local_day tz now <= local_day tz made ->
        2 <= RetentionDays (config c) \/ (1 <= RetentionDays (config c) /\ 0 <= tz) ->
        In (path d) (partitions (remaining (cleanup rm_ok c now tree))))
  /\ (forall now_at r,
        (forall i, local_day tz (now_at i) <= local_day tz made) ->
        emergencyCleanup rm_ok statfs now_at tree = Some r ->
        kept (p_tree r) d).
Proof.
  intros Htz Hday Hin Hname.
  assert (Hdate : date d = midnight_utc (local_day tz made)).
  { pose proof (collect_dirs_date tree d Hin) as H.
    rewrite Hname in H. unfold Recorder.today_str in H.
    rewrite (dir_date_format _ Hday) in H. now injection H. }
  split; [exact Hdate|]. split.
  - intros now Hnow HR. unfold cleanup. apply cleanup_keeps; [exact Hin|].
    unfold is_old. rewrite Hdate. now apply (today_not_before_cutoff tz).
  - intros now_at r Hnow Hr. unfold emergencyCleanup in Hr.
    destruct (statfs tree) as [st0|]; [|discriminate]. injection Hr as <-.
    match goal with |- kept (p_tree (prune_loop _ _ _ ?t _ ?ds ?st)) _ =>
      destruct (prune_loop_general rm_ok statfs now_at t ds 0%nat st)
        as [del [_ [Htree Hdel]]] end.
    cbv zeta in Htree. rewrite Htree. cbn [p_tree].
    rewrite Forall_forall in Hdel.
    assert (Hsub : forall e, In e del -> In e (collect_dirs tree)).
    { intros e He. destruct (Hdel e He) as [Hs _].
      destruct (sort_correct date (collect_dirs tree)) as [Hperm _].
      apply Permutation_in with (l := ExchangeSort.sort dir_after (collect_dirs tree));
        [now symmetry|exact Hs]. }
    unfold kept. rewrite collect_remove_each.
    + apply filter_In. split; [exact Hin|].
      apply forallb_forall. intros e He.
      destruct (path_eqb (path d) (path e)) eqn:E; [|reflexivity].
      apply path_eqb_eq in E. exfalso.
      destruct (Hdel e He) as [_ [i Hi]].
      pose proof (collect_dirs_date tree e (Hsub e He)) as De.
      pose proof (collect_dirs_date tree d Hin) as Dd.
      rewrite <- E, Dd in De. injection De as De.
      rewrite (today_is_recent tz (now_at i) e (local_day tz made)) in Hi;
        [discriminate|exact Htz|congruence|apply Hnow].
    + apply Forall_forall. intros e He. eapply collect_dirs_shape. exact (Hsub e He).
Qed.

End FolderSafety.

Section AlertFacts.
Import GoTime FS Storage StorageSpec StorageRuns.
Variable rm_ok : FS.path -> bool.
Variable statfs : list node -> option Statfs_t.

Lemma alert_level_range (st : Statfs_t) : 0 <= alert_level st <= 3.
Proof.
  unfold alert_level, DiskAlertEmergency, DiskAlertCritical, DiskAlertWarning,
    DiskAlertNone.
  destruct (percent_ge st 95); [lia|]. destruct (percent_ge st 90); [lia|].
  destruct (percent_ge st 80); lia.
Qed.

(** What one call of the monitor does to the alert bookkeeping. *)
Lemma monitor_alert (c : Cleaner) (now : Time) (now_at : nat -> Time) (tree : list node) :
  let m := MonitorDiskUsage rm_ok statfs c now now_at tree in
  (m_alert m = None /\ m_cleaner m = c)
  \/ exists level,
       m_alert m = Some level
       /\ lastAlertLevel (m_cleaner m) = level
       /\ lastAlertTime (m_cleaner m) = now
       /\ 0 <= level <= 3
       /\ (lastAlertLevel c < level
           \/ (0 < level /\ 1 * Hour < now - lastAlertTime c)).
Proof.
  cbv zeta. unfold MonitorDiskUsage.
  destruct (statfs tree) as [st|]; [|left; split; reflexivity].
  pose proof (alert_level_range st) as Hr.
  set (level := alert_level st) in *.
  assert (Hcases :
    forall send : bool,
      send = ((lastAlertLevel c <? level)
              || ((DiskAlertNone <? level) && (1 * Hour <? Sub now (lastAlertTime c))))%bool ->
      ((if send then Some level else None) = None
       /\ (if send then {| config := config c; lastAlertLevel := level;
                           lastAlertTime := now |} else c) = c)
      \/ exists l,
           (if send then Some level else None) = Some l
           /\ lastAlertLevel (if send then {| config := config c; lastAlertLevel := level;
                                               lastAlertTime := now |} else c) = l
           /\ lastAlertTime (if send then {| config := config c; lastAlertLevel := level;
                                              lastAlertTime := now |} else c) = now
           /\ 0 <= l <= 3
           /\ (lastAlertLevel c < l \/ (0 < l /\ 1 * Hour < now - lastAlertTime c))).
  { intros [|] Hs; [|left; split; reflexivity].
    right. exists level. repeat split; try lia.
    symmetry in Hs. apply orb_true_iff in Hs. destruct Hs as [Hs|Hs].
    - left. now apply Z.ltb_lt.
    - right. apply andb_true_iff in Hs. destruct Hs as [H1 H2].
      apply Z.ltb_lt in H1, H2. unfold DiskAlertNone, Sub in *. lia. }
  specialize (Hcases _ eq_refl).
  destruct (level =? DiskAlertEmergency); [exact Hcases|].
  destruct (level =? DiskAlertCritical); exact Hcases.
Qed.

Lemma round_cleaner (c : Cleaner) now now_at now' tree :
  fst (round rm_ok statfs c now now_at now' tree)
  = m_cleaner (MonitorDiskUsage rm_ok statfs c now now_at tree).
Proof. unfold round. destruct (0 <? _); reflexivity. Qed.

Lemma in_order_earlier : forall readings a b,
  a <= b -> in_order b readings -> in_order a readings.
Proof.
  intros [|r readings] a b Hab; [trivial|]. cbn. intros [H1 H2]. split; [lia|exact H2].
Qed.

(** Every alert of a run is at least a warning, is not earlier than the
    last alert before the run, and escalates it when it comes within the
    hour; and the alerts of the run escalate one another. *)
Lemma alerts_escalate : forall readings c tree,
  0 <= lastAlertLevel c ->
  in_order (lastAlertTime c) readings ->
  StronglySorted escalates (alerts rm_ok statfs c tree readings)
  /\ Forall (fun a : Time * Z => lastAlertTime c <= fst a /\ 1 <= snd a <= 3
                      /\ escalates (lastAlertTime c, lastAlertLevel c) a)
            (alerts rm_ok statfs c tree readings).
Proof.
  induction readings as [|r readings IH]; intros c tree Hlevel Hord.
  - split; constructor.
  - cbn [alerts]. destruct Hord as [Hle Hrest].
    pose proof (round_cleaner c (at_monitor r) (at_escalation r) (at_cleanup r) tree) as Hc.
    destruct (round rm_ok statfs c (at_monitor r) (at_escalation r) (at_cleanup r) tree)
      as [c' tree'].
    cbn [fst] in Hc. subst c'.
    destruct (monitor_alert c (at_monitor r) (at_escalation r) tree)
      as [[Ha Hm]|[level [Ha [Hl [Ht [Hr Hsend]]]]]]; cbv zeta in *; rewrite Ha.
    + rewrite Hm. apply IH; [exact Hlevel|].
      now apply in_order_earlier with (b := at_monitor r).
    + assert (Hl1 : 1 <= level) by lia.
      destruct (IH (m_cleaner (MonitorDiskUsage rm_ok statfs c (at_monitor r)
                                 (at_escalation r) tree)) tree')
        as [IH1 IH2]; [lia|now rewrite Ht|].
      rewrite Hl, Ht in IH2. rewrite Forall_forall in IH2.
      split.
      * constructor; [exact IH1|]. apply Forall_forall. intros a Ha'.
        destruct (IH2 a Ha') as [_ [_ He]]. exact He.
      * constructor.
        -- cbn [fst snd]. split; [exact Hle|]. split; [lia|].
           unfold escalates. cbn [fst snd]. intros Hw. lia.
        -- apply Forall_forall. intros a Ha'.
           destruct (IH2 a Ha') as [Hta [Hla He]].
           split; [lia|]. split; [exact Hla|].
           unfold escalates in *. cbn [fst snd] in *. intros Hw.
           specialize (He ltac:(lia)). lia.
Qed.

Lemma rising_levels_are_few : forall (l : list (Time * Z)) lo,
  StronglySorted (fun a b => snd a < snd b) l ->
  Forall (fun a : Time * Z => lo <= snd a <= 3) l ->
  lo <= 4 ->
  Z.of_nat (List.length l) <= 4 - lo.
Proof.
  induction l as [|a l IH]; intros lo Hs Hr Hlo; [cbn [List.length Z.of_nat]; lia|].
  inversion Hs as [|? ? Hs' Ha]; subst. inversion Hr as [|? ? Hra Hr']; subst.
  assert (Hl : Z.of_nat (List.length l) <= 4 - (snd a + 1)).
  { apply IH; [exact Hs'| |lia].
    rewrite Forall_forall in Ha, Hr' |- *. intros b Hb.
    specialize (Ha b Hb). specialize (Hr' b Hb). lia. }
  cbn [List.length]. lia.
Qed.

Lemma StronglySorted_filter {A : Type} (R : A -> A -> Prop) (f : A -> bool) (l : list A) :
  StronglySorted R l -> StronglySorted R (filter f l).
Proof.
  induction 1 as [|a l Hs IH Ha]; simpl; [constructor|].
  destruct (f a); [|exact IH]. constructor; [exact IH|].
  rewrite Forall_forall in Ha |- *. intros b Hb. apply filter_In in Hb. now apply Ha.
Qed.

(** X8.  From a new cleaner, over rounds in the order of the clock: of
    two disk alerts no more than an hour apart the later one is of a
    higher level, every alert is a warning at least, and so no more than
    three alerts are sent within any hour. *)
Theorem alerts_are_throttled (cfg : StorageConfig) (tree : list node)
    (readings : list reading) :
  in_order 0 readings ->
  let sent := alerts rm_ok statfs (NewCleaner cfg) tree readings in
  StronglySorted escalates sent
  /\ Forall (fun a : Time * Z => DiskAlertWarning <= snd a <= DiskAlertEmergency) sent
  /\ forall t : Time,
       Z.of_nat (List.length
         (filter (fun a : Time * Z => (t <=? fst a) && (fst a <=? t + 1 * Hour))%bool sent))
       <= 3.
Proof.
  intros Hord. cbv zeta.
  destruct (alerts_escalate readings (NewCleaner cfg) tree) as [Hs Hf];
    [unfold NewCleaner, DiskAlertNone; cbn; lia|exact Hord|].
  split; [exact Hs|]. split.
  - eapply Forall_impl; [|exact Hf]. intros a [_ [H _]]. exact H.
  - intros t.
    set (w := filter (fun a : Time * Z => (t <=? fst a) && (fst a <=? t + 1 * Hour))%bool
                (alerts rm_ok statfs (NewCleaner cfg) tree readings)).
    assert (Hw : Z.of_nat (List.length w) <= 4 - 1); [|lia].
    apply rising_levels_are_few; [| |lia].
    + assert (Hin : forall a, In a w -> t <= fst a <= t + 1 * Hour).
      { intros a Ha. apply filter_In in Ha. destruct Ha as [_ Ha].
        apply andb_true_iff in Ha. destruct Ha as [H1 H2].
        apply Z.leb_le in H1, H2. lia. }
      pose proof (StronglySorted_filter escalates
                    (fun a : Time * Z => (t <=? fst a) && (fst a <=? t + 1 * Hour))%bool _ Hs)
        as Hsw.
      fold w in Hsw. clearbody w. clear - Hsw Hin.
      induction Hsw as [|a l Hl IH Ha]; constructor.
      * apply IH. intros b Hb. apply Hin. now right.
      * rewrite Forall_forall in Ha |- *. intros b Hb. apply Ha; [exact Hb|].
        pose proof (Hin a (or_introl eq_refl)). pose proof (Hin b (or_intror Hb)). lia.
    + apply Forall_forall. intros a Ha. apply filter_In in Ha. destruct Ha as [Ha _].
      rewrite Forall_forall in Hf. destruct (Hf a Ha) as [_ [H _]]. exact H.
Qed.

End AlertFacts.

(* ------------------------------------------------------------------ *)
(** ** More on the recovery manager *)

Section RecoveryMore.
Import GoTime Recovery RecoverySpec.
Variable cfg : RecoveryConfig.

Lemma count_nonneg st action window now : 0 <= countRecentAttempts st action window now.
Proof. unfold countRecentAttempts. lia. Qed.

(** X9.  With [MaxPowerCyclesPer30Min] at zero or below the manager
    never starts a recovery action, whatever the state and the clock:
    every check of a verified failure ends in the alert that asks for
    manual intervention, and the history of attempts never grows. *)
Theorem no_cap_no_recovery : forall (ticks : list tick) (st : CameraRecoveryState),
  MaxPowerCyclesPer30Min cfg <= 0 ->
  Forall (fun o => match o with
                   | Performed _ | Exhausted => False
                   | _ => True
                   end) (snd (run cfg st ticks))
  /\ (recoveryAttempts (fst (run cfg st ticks)) = recoveryAttempts st
      \/ recoveryAttempts (fst (run cfg st ticks)) = []).
Proof.
  induction ticks as [|t ticks IH]; intros st Hcap; cbn [run].
  - split; [constructor|now left].
  - assert (Hstep :
      match snd (checkCamera cfg st (lastRecording t) (clock t)) with
      | Performed _ | Exhausted => False
      | _ => True
      end
      /\ (recoveryAttempts (fst (checkCamera cfg st (lastRecording t) (clock t)))
          = recoveryAttempts st
          \/ recoveryAttempts (fst (checkCamera cfg st (lastRecording t) (clock t))) = [])).
    { unfold checkCamera.
      destruct (IsZero (lastRecording t)); [split; [exact I|now left]|].
      destruct (_ <? _).
      { destruct (negb _); cbn; split; auto. }
      destruct (IsZero (failureDetectedAt st)); [cbn; split; auto|].
      destruct (_ <? _); [cbn; split; auto|].
      rewrite cap_reached_alerts_only.
      - cbn. split; auto.
      - pose proof (count_nonneg st "power_cycle" (30 * Minute) (clock t 2%nat)). lia. }
    destruct (checkCamera cfg st (lastRecording t) (clock t)) as [st' o].
    cbn [fst snd] in Hstep. destruct Hstep as [Ho Hst].
    destruct (IH st' Hcap) as [IH1 IH2].
    destruct (run cfg st' ticks) as [final os]. cbn [fst snd] in *.
    split; [now constructor|].
    destruct IH2 as [E|E]; [|now right].
    rewrite E. exact Hst.
Qed.

(** What a check does to the detection stamp. *)
Lemma checkCamera_stamp st last clk :
  let r := checkCamera cfg st last clk in
  (failureDetectedAt (fst r) = failureDetectedAt st
   /\ snd r <> Detected)
  \/ (snd r = Recovered /\ failureDetectedAt (fst r) = zero)
  \/ (snd r = Detected /\ failureDetectedAt (fst r) = clk 1%nat).
Proof.
  cbv zeta. unfold checkCamera.
  destruct (IsZero last); [left; split; [reflexivity|discriminate]|].
  destruct (_ <? _).
  { destruct (negb _); cbn; [right; left; auto|left; split; [reflexivity|discriminate]]. }
  destruct (IsZero (failureDetectedAt st)); [right; right; cbn; auto|].
  destruct (_ <? _); [left; split; [reflexivity|discriminate]|].
  unfold recoverCamera, attempt.
  destruct (_ <=? _); [left; split; [reflexivity|discriminate]|].
  repeat (destruct (negb _); [left; split; [reflexivity|discriminate]|]).
  left; split; [reflexivity|discriminate].
Qed.

(** A check starts an action only for a recording that is stale, in a
    state with a detection stamp that is old enough. *)
Lemma checkCamera_performed st last clk a :
  snd (checkCamera cfg st last clk) = Performed a ->
  failureDetectedAt st <> zero
  /\ VerificationDelay cfg * Second <= clk 1%nat - failureDetectedAt st
  /\ StaleThreshold cfg * Second <= clk 0%nat - last.
Proof.
  unfold checkCamera.
  destruct (IsZero last); [discriminate|].
  destruct (_ <? _) eqn:Eage; [destruct (negb _); discriminate|].
  destruct (IsZero (failureDetectedAt st)) eqn:Ez; [discriminate|].
  destruct (Sub (clk 1%nat) _ <? _) eqn:Ev; [discriminate|].
  intros _. apply Z.ltb_ge in Eage, Ev. apply Z.eqb_neq in Ez.
  unfold Sub in *. repeat split; assumption.
Qed.

Lemma run_performed : forall (ticks : list tick) st k a,
  nth_error (snd (run cfg st ticks)) k = Some (Performed a) ->
  exists tk,
    nth_error ticks k = Some tk
    /\ StaleThreshold cfg * Second <= clock tk 0%nat - lastRecording tk
    /\ ((failureDetectedAt st <> zero
         /\ VerificationDelay cfg * Second <= clock tk 1%nat - failureDetectedAt st)
        \/ exists j tj,
             (j < k)%nat
             /\ nth_error (snd (run cfg st ticks)) j = Some Detected
             /\ nth_error ticks j = Some tj
             /\ VerificationDelay cfg * Second <= clock tk 1%nat - clock tj 1%nat).
Proof.
  induction ticks as [|t ticks IH]; intros st k a; cbn [run].
  - destruct k; discriminate.
  - pose proof (checkCamera_stamp st (lastRecording t) (clock t)) as Hs.
    pose proof (checkCamera_performed st (lastRecording t) (clock t)) as Hp.
    cbv zeta in Hs.
    destruct (checkCamera cfg st (lastRecording t) (clock t)) as [st' o].
    cbn [fst snd] in Hs, Hp. specialize (IH st').
    destruct (run cfg st' ticks) as [final os]. cbn [snd] in *.
    destruct k as [|k]; cbn [nth_error].
    + intros H. injection H as ->. destruct (Hp a eq_refl) as [H1 [H2 H3]].
      exists t. split; [reflexivity|]. split; [exact H3|]. left. now split.
    + intros H. destruct (IH k a H) as [tk [Ek [Hst [[Hz Hd]|[j [tj [Hj [Ej [Etj Hd]]]]]]]]];
        exists tk; (split; [exact Ek|]); (split; [exact Hst|]).
      * destruct Hs as [[E _]|[[_ E]|[Eo E]]].
        -- left. rewrite <- E. now split.
        -- now elim Hz.
        -- right. exists 0%nat, t. split; [lia|].
           split; [cbn; now rewrite Eo|]. split; [reflexivity|]. now rewrite <- E.
      * right. exists (S j), tj. split; [lia|]. now split.
Qed.

(** X10.  From the start of the process, every recovery action is started
    on a check that finds the recording stale, and only after an earlier
    check had detected the failure at least the verification delay
    before: no action is taken on the first stale observation. *)
Theorem recovery_waits_for_verification (ticks : list tick) (k : nat)
    (a : RecoveryAttempt) :
  nth_error (snd (run cfg initial ticks)) k = Some (Performed a) ->
  exists j tj tk,
    (j < k)%nat
    /\ nth_error (snd (run cfg initial ticks)) j = Some Detected
    /\ nth_error ticks j = Some tj
    /\ nth_error ticks k = Some tk
    /\ VerificationDelay cfg * Second <= clock tk 1%nat - clock tj 1%nat
    /\ StaleThreshold cfg * Second <= clock tk 0%nat - lastRecording tk.
Proof.
  intros H. destruct (run_performed ticks initial k a H)
    as [tk [Ek [Hst [[Hz _]|[j [tj [Hj [Ej [Etj Hd]]]]]]]]].
  - now elim Hz.
  - exists j, tj, tk. repeat split; assumption.
Qed.

End RecoveryMore.

Section ProbeAndCheck.
Import GoTime Dirent Recorder RecorderSpec Recovery.

Lemma latest_ts_no_segment (es : list DirEntry) :
  Forall (fun e => is_segment e = false) es -> latest_ts es = zero.
Proof.
  intros H. unfold latest_ts. generalize zero.
  induction H as [|e es He _ IH]; intros t; [reflexivity|].
  cbn [fold_left]. unfold newer at 2. unfold is_segment in He. rewrite He. apply IH.
Qed.

(** X11.  While today's folder can be read and holds no [.ts] file (as
    just after midnight), or while neither today's nor yesterday's folder
    can be read, a health check of the camera does nothing: it reports
    that there are no recordings and leaves the recovery state as it is,
    so no failure is detected and no recovery is started. *)
Theorem empty_folder_freezes_recovery
    (ReadDir : string -> option (list DirEntry)) (tz : Z) (cfg : RecoveryConfig)
    (r : Recorder.Recorder) (st : CameraRecoveryState) (now now' : Time)
    (clk : nat -> Time) :
  (exists es, ReadDir (recordDir r (today_str tz now)) = Some es
              /\ Forall (fun e => is_segment e = false) es)
  \/ (ReadDir (recordDir r (today_str tz now)) = None
      /\ ReadDir (recordDir r (yesterday_str tz now')) = None) ->
  GetLastRecordingTime ReadDir tz r now now' = zero
  /\ checkCamera cfg st (GetLastRecordingTime ReadDir tz r now now') clk
     = (st, NoRecordings).
Proof.
  intros H.
  assert (E : GetLastRecordingTime ReadDir tz r now now' = zero).
  { unfold GetLastRecordingTime. destruct H as [[es [Hr Hes]]|[H1 H2]].
    - rewrite Hr. now apply latest_ts_no_segment.
    - now rewrite H1, H2. }
  split; [exact E|]. rewrite E. reflexivity.
Qed.

End ProbeAndCheck.

(* ------------------------------------------------------------------ *)
(** ** The recordings API *)

Section PlaylistPath.
Import WebUI WebAPI.

Lemma parts_loop_spec : forall rest i len parts current,
  (i + String.length rest = len)%nat -> rest <> "" ->
  parts_loop rest i len parts current
  = parts ++ filter (fun e => negb (String.eqb e ""))
                    (GoString.split_on "/" current rest).
Proof.
  induction rest as [|ch rest IH]; intros i len parts current Hlen Hne;
    [now elim Hne|].
  cbn [parts_loop GoString.split_on]. cbn [String.length] in Hlen.
  destruct rest as [|ch' rest]; cbn [String.length] in Hlen.
  - (* the last byte *)
    assert (Ei : Nat.eqb i (len - 1) = true) by (apply Nat.eqb_eq; lia).
    rewrite Ei. cbn [andb GoString.split_on].
    destruct (Ascii.eqb ch "/").
    + destruct (String.eqb current "") eqn:Ec; cbn [negb parts_loop filter String.eqb];
        rewrite Ec; cbn [negb]; [now rewrite app_nil_r|reflexivity].
    + assert (En : String.eqb (current ++ String ch "") "" = false)
        by (destruct current; reflexivity).
      cbn [filter]. rewrite En. reflexivity.
  - assert (Ei : Nat.eqb i (len - 1) = false)
      by (apply Nat.eqb_neq; lia).
    rewrite Ei. cbn [andb].
    destruct (Ascii.eqb ch "/").
    + destruct (String.eqb current "") eqn:Ec; cbn [negb filter]; rewrite Ec; cbn [negb].
      * apply String.eqb_eq in Ec. subst current.
        apply IH; [cbn [String.length]; lia|discriminate].
      * rewrite (IH (S i) len (parts ++ [current]) "")
          by (try (cbn [String.length]; lia); discriminate).
        now rewrite <- app_assoc.
    + apply IH; [cbn [String.length]; lia|discriminate].
Qed.

(** X13.  The loop of the playlist route cuts an ASCII path into its
    non-empty elements between slashes: doubled, leading and trailing
    slashes are ignored, and the route answers 400 unless exactly three
    elements are left. *)
Theorem playlist_path_elements (BasePath wd : string)
    (Stat : string -> option Dirent.FileInfo) (urlPath trimmed : string) :
  playlist_parts trimmed
  = filter (fun e => negb (String.eqb e "")) (GoString.split_on "/" "" trimmed)
  /\ (GoString.slice_from urlPath (String.length "/api/recordings/playlist/")
      = Some trimmed ->
      List.length (playlist_parts trimmed) <> 3%nat ->
      handleRecordingPlaylist BasePath wd Stat urlPath
      = Returned (Error "Invalid URL format" StatusBadRequest)).
Proof.
  assert (E : playlist_parts trimmed
              = filter (fun e => negb (String.eqb e "")) (GoString.split_on "/" "" trimmed)).
  { unfold playlist_parts. destruct trimmed as [|ch rest]; [reflexivity|].
    rewrite parts_loop_spec by (try reflexivity; discriminate). reflexivity. }
  split; [exact E|].
  intros Hs Hn. unfold handleRecordingPlaylist. rewrite Hs. rewrite E in Hn.
  destruct (filter _ _) as [|a [|b [|c [|d l]]]]; try reflexivity.
  now elim Hn.
Qed.

End PlaylistPath.

Section Router.
Import GoTime Dirent WebUI WebAPI.
Variable BasePath : string.
Variable wd : string.
Variable Glob : string -> option (list string).
Variable Stat : string -> option FileInfo.
Variable ReadDir : string -> option (list DirEntry).

Lemma prefix_length : forall p s, prefix p s = true -> (String.length p <= String.length s)%nat.
Proof.
  induction p as [|c p IH]; intros [|d s] H; simpl in *; try lia; try discriminate.
  destruct (ascii_dec c d); [|discriminate]. specialize (IH s H). lia.
Qed.

Lemma slice_from_prefix (s p : string) :
  GoString.HasPrefix s p = true ->
  exists rest, GoString.slice_from s (String.length p) = Some rest.
Proof.
  intros H. apply prefix_length in H. unfold GoString.slice_from, GoString.slice.
  apply Nat.leb_le in H. rewrite H, Nat.leb_refl. eexists. reflexivity.
Qed.

(** X12.  The recordings API sends a path that starts with
    [/api/recordings/playlist/] to the playlist route, whose cut of the
    path then cannot panic; and the raw segment route does not panic on a
    path that starts with [/recordings/].  A path under none of the four
    prefixes is answered 404. *)
Theorem file_routes_do_not_panic (path camera date : string) :
  (GoString.HasPrefix path "/api/recordings/playlist/" = true ->
     exists r, handleRecordingPlaylist BasePath wd Stat path = Returned r
               /\ handleRecordingsAPI BasePath wd Glob Stat ReadDir path camera date
                  = Returned (Reply r))
  /\ (GoString.HasPrefix path "/recordings/" = true ->
        exists r, handleRecordingPlayback BasePath wd path = Returned r)
  /\ (GoString.HasPrefix path "/api/recordings/playlist/" = false ->
      GoString.HasPrefix path "/api/recordings/timeline" = false ->
      GoString.HasPrefix path "/api/recordings/list" = false ->
      GoString.HasPrefix path "/api/recordings/dates" = false ->
      handleRecordingsAPI BasePath wd Glob Stat ReadDir path camera date
      = Returned (Reply (Error "Not found" StatusNotFound))).
Proof.
  split; [|split].
  - intros H. unfold handleRecordingsAPI. rewrite H.
    destruct (slice_from_prefix path _ H) as [rest Hr].
    unfold handleRecordingPlaylist. rewrite Hr.
    destruct (filter _ _) as [|a [|b [|c [|d l]]]];
      try (eexists; split; reflexivity).
    destruct (escapes _ _ _ _); [eexists; split; reflexivity|].
    destruct (Stat _); eexists; split; reflexivity.
  - intros H. destruct (slice_from_prefix path _ H) as [rest Hr].
    unfold handleRecordingPlayback. rewrite Hr.
    destruct (first_slash rest 0); [|eexists; reflexivity].
    destruct (String.eqb _ ""); [eexists; reflexivity|].
    destruct (_ && _)%bool; [|eexists; reflexivity].
    destruct (_ || _)%bool; [eexists; reflexivity|].
    destruct (parse_date _); [|eexists; reflexivity].
    destruct (negb _); [eexists; reflexivity|].
    destruct (escapes _ _ _ _); eexists; reflexivity.
  - intros H1 H2 H3 H4. unfold handleRecordingsAPI. now rewrite H1, H2, H3, H4.
Qed.

Lemma dates_loop_spec : forall entries dates,
  dates_loop entries dates
  = dates ++ map Name
      (filter (fun e => (IsDir e && Nat.eqb (String.length (Name e)) 10
                         && match parse_date (Name e) with Some _ => true | None => false end)%bool)
              entries).
Proof.
  induction entries as [|e entries IH]; intros dates; cbn [dates_loop filter map].
  - now rewrite app_nil_r.
  - destruct (IsDir e && Nat.eqb (String.length (Name e)) 10)%bool; cbn [andb].
    + destruct (parse_date (Name e)); cbn [map].
      * rewrite IH, <- app_assoc. reflexivity.
      * apply IH.
    + apply IH.
Qed.

Lemma parse_date_shape (s : string) (n : Z) :
  parse_date s = Some n -> String.length s = 10%nat /\ Storage.is_date_name s = true.
Proof.
  unfold parse_date, Storage.is_date_name.
  destruct (GoString.slice s 0 4); [|discriminate].
  destruct (GoString.at_ s 4) as [c1|]; [|discriminate].
  destruct (GoString.slice s 5 7); [|discriminate].
  destruct (GoString.at_ s 7) as [c2|]; [|discriminate].
  destruct (GoString.slice s 8 10); [|discriminate].
  destruct (Nat.eqb (String.length s) 10) eqn:El; [|discriminate].
  destruct (Ascii.eqb c1 "-"); [|discriminate].
  destruct (Ascii.eqb c2 "-"); [|discriminate].
  intros _. apply Nat.eqb_eq in El. split; [exact El|reflexivity].
Qed.

(** X14.  The dates route lists, in the order of the directory, exactly
    the names of the folders of the camera that the cleaner treats as
    date directories; and every date it lists is accepted as the [date]
    of the list and the timeline routes. *)
Theorem dates_are_the_date_directories (camera : string) (entries : list DirEntry) :
  camera <> "" ->
  ReadDir (Filepath.Join [BasePath; camera; "recordings"]) = Some entries ->
  exists dates,
    handleRecordingDates BasePath ReadDir camera = Dates camera dates
    /\ dates = map Name
         (filter (fun e => (IsDir e
                            && match Storage.dir_date (Name e) with
                               | Some _ => true | None => false end)%bool) entries)
    /\ Forall (fun d => exists day, parse_date d = Some day) dates.
Proof.
  intros Hc Hr. unfold handleRecordingDates.
  apply String.eqb_neq in Hc. rewrite Hc, Hr.
  eexists. split; [reflexivity|].
  rewrite dates_loop_spec. cbn [app].
  assert (Hsame : forall e : DirEntry,
    (IsDir e && Nat.eqb (String.length (Name e)) 10
     && match parse_date (Name e) with Some _ => true | None => false end)%bool
    = (IsDir e && match Storage.dir_date (Name e) with
                  | Some _ => true | None => false end)%bool).
  { intros e. unfold Storage.dir_date.
    destruct (parse_date (Name e)) as [n|] eqn:Ep.
    - destruct (parse_date_shape _ _ Ep) as [El En].
      rewrite En, El. cbn. now rewrite andb_true_r.
    - destruct (Storage.is_date_name (Name e)); now rewrite !andb_false_r. }
  split.
  - f_equal. apply filter_ext. exact Hsame.
  - apply Forall_forall. intros d Hd. apply in_map_iff in Hd.
    destruct Hd as [e [<- He]]. apply filter_In in He. destruct He as [_ He].
    destruct (parse_date (Name e)) as [n|]; [now exists n|].
    now rewrite andb_false_r in He.
Qed.


Lemma days_loop_spec : forall entries days,
  days_loop entries days
  = days + Z.of_nat (List.length
      (filter (fun e => (IsDir e && Nat.eqb (String.length (Name e)) 10)%bool) entries)).
Proof.
  induction entries as [|e entries IH]; intros days; cbn [days_loop filter].
  - cbn. lia.
  - destruct (IsDir e && Nat.eqb (String.length (Name e)) 10)%bool.
    + rewrite IH. cbn [List.length]. lia.
    + apply IH.
Qed.

Lemma filter_and_length {A : Type} (f g : A -> bool) (l : list A) :
  (List.length (filter (fun x => f x && g x)%bool l) <= List.length (filter f l))%nat
  /\ (List.length (filter (fun x => f x && g x)%bool l) = List.length (filter f l)
      <-> Forall (fun x => f x = true -> g x = true) l).
Proof.
  induction l as [|x l [IH1 IH2]]; cbn [filter].
  - split; [lia|]. split; [constructor|reflexivity].
  - destruct (f x) eqn:Ef; cbn [andb].
    + destruct (g x) eqn:Eg; cbn [List.length].
      * split; [lia|]. rewrite Nat.succ_inj_wd, IH2. split.
        -- intros H. constructor; [auto|exact H].
        -- intros H. now inversion H.
      * split; [lia|]. split; [lia|].
        intros H. inversion H as [|? ? Hx _]; subst. specialize (Hx Ef). congruence.
    + split; [exact IH1|]. rewrite IH2. split.
      * intros H. constructor; [congruence|exact H].
      * intros H. now inversion H.
Qed.

(** X15.  The [days_stored] of the storage report counts every folder of
    the camera with a name of ten bytes, and the dates route lists only
    those of them that parse as dates: the count is never less than the
    number of dates listed, and it is more as soon as one such folder is
    not a date. *)
Theorem days_stored_counts_more (camera : string) (entries : list DirEntry) :
  camera <> "" ->
  ReadDir (Filepath.Join [BasePath; camera; "recordings"]) = Some entries ->
  exists dates,
    handleRecordingDates BasePath ReadDir camera = Dates camera dates
    /\ Z.of_nat (List.length dates) <= days_stored BasePath ReadDir camera
    /\ (Z.of_nat (List.length dates) = days_stored BasePath ReadDir camera
        <-> Forall (fun e => IsDir e = true -> String.length (Name e) = 10%nat ->
                             parse_date (Name e) <> None) entries).
Proof.
  intros Hc Hr. unfold handleRecordingDates, days_stored.
  apply String.eqb_neq in Hc. rewrite Hc, Hr. cbv zeta.
  eexists. split; [reflexivity|].
  rewrite dates_loop_spec, days_loop_spec. cbn [app]. rewrite length_map.
  destruct (filter_and_length
              (fun e => (IsDir e && Nat.eqb (String.length (Name e)) 10)%bool)
              (fun e => match parse_date (Name e) with Some _ => true | None => false end)
              entries) as [Hle Heq].
  split; [lia|].
  rewrite Z.add_0_l, Nat2Z.inj_iff, Heq.
  split; intros H; apply Forall_forall; intros e He; rewrite Forall_forall in H;
    specialize (H e He).
  - intros Hd Hl Hp. rewrite Hd, Hl, Hp in H. cbn in H. specialize (H eq_refl). discriminate.
  - intros Hb. apply andb_true_iff in Hb. destruct Hb as [Hd Hl].
    apply Nat.eqb_eq in Hl. specialize (H Hd Hl).
    destruct (parse_date (Name e)); [reflexivity|now elim H].
Qed.

End Router.

Section ListFacts.
Import GoTime Dirent WebUI WebUISpec.
Variable BasePath : string.
Variable Glob : string -> option (list string).
Variable Stat : string -> option FileInfo.

Lemma list_entry_fields camera date file info rec :
  list_entry camera date file info = Returned rec ->
  r_Filename rec = Filepath.Base file
  /\ r_Size rec = Size info
  /\ r_Duration rec = 1800
  /\ r_URL rec = ("/recordings/" ++ camera ++ "/" ++ date ++ "/" ++ Filepath.Base file)%string
  /\ r_PlaylistURL rec
     = ("/api/recordings/playlist/" ++ camera ++ "/" ++ date ++ "/"
          ++ Filepath.Base file)%string.
Proof.
  unfold list_entry.
  destruct (GoString.slice (Filepath.Base file) 0 8) as [timeStr|]; [|discriminate].
  destruct (GoString.slice timeStr 0 2); [|discriminate].
  destruct (GoString.slice timeStr 3 5); [|discriminate].
  destruct (GoString.slice timeStr 6 8); [|discriminate].
  intros H. injection H as <-. cbn. repeat split.
Qed.

Lemma list_loop_spec camera date : forall files recs,
  list_loop Stat camera date files = Returned recs ->
  Forall2 (fun file rec =>
             exists info,
               Stat file = Some info
               /\ r_Filename rec = Filepath.Base file
               /\ r_Size rec = Size info
               /\ r_Duration rec = 1800
               /\ r_URL rec = ("/recordings/" ++ camera ++ "/" ++ date ++ "/"
                                 ++ Filepath.Base file)%string
               /\ r_PlaylistURL rec
                  = ("/api/recordings/playlist/" ++ camera ++ "/" ++ date ++ "/"
                       ++ Filepath.Base file)%string)
          (filter (fun file => match Stat file with Some _ => true | None => false end) files)
          recs.
Proof.
  induction files as [|file files IH]; intros recs; cbn [list_loop filter].
  - intros H. injection H as <-. constructor.
  - destruct (Stat file) as [info|] eqn:Es; [|apply IH].
    destruct (list_entry camera date file info) as [|rec] eqn:Ee; [discriminate|].
    destruct (list_loop Stat camera date files) as [|recs'] eqn:El; [discriminate|].
    intros H. injection H as <-. constructor; [|now apply IH].
    exists info. split; [exact Es|]. now apply list_entry_fields.
Qed.

(** X16.  When the list route answers with recordings, they are those of
    the request's camera and date: one for each file of the pattern that
    [os.Stat] finds, in the order of [Glob], named by the base name of the
    file, with the size [os.Stat] reports, a duration of 1800 seconds and
    the two URLs built from camera, date and name.  Files on which
    [os.Stat] fails are left out. *)
Theorem list_follows_the_files (camera date c d : string) (recs : list Recording) :
  handleRecordingsList BasePath Glob Stat camera date
  = Returned (RecordingsList c d recs) ->
  c = camera /\ d = date
  /\ exists files,
       Glob (ts_pattern BasePath camera date) = Some files
       /\ Forall2 (fun file rec =>
             exists info,
               Stat file = Some info
               /\ r_Filename rec = Filepath.Base file
               /\ r_Size rec = Size info
               /\ r_Duration rec = 1800
               /\ r_URL rec = ("/recordings/" ++ camera ++ "/" ++ date ++ "/"
                                 ++ Filepath.Base file)%string
               /\ r_PlaylistURL rec
                  = ("/api/recordings/playlist/" ++ camera ++ "/" ++ date ++ "/"
                       ++ Filepath.Base file)%string)
          (filter (fun file => match Stat file with Some _ => true | None => false end) files)
          recs.
Proof.
  unfold handleRecordingsList.
  destruct (_ || _)%bool; [discriminate|].
  destruct (parse_date date); [|discriminate].
  fold (ts_pattern BasePath camera date).
  destruct (Glob (ts_pattern BasePath camera date)) as [files|]; [|discriminate].
  destruct (list_loop Stat camera date files) as [|recs'] eqn:El; [discriminate|].
  intros H. injection H as <- <- <-.
  split; [reflexivity|]. split; [reflexivity|].
  exists files. split; [reflexivity|]. now apply list_loop_spec.
Qed.


End ListFacts.

Section Coverage.
Import GoTime Dirent WebUI WebUISpec ExchangeSort.
Variable BasePath : string.
Variable Glob : string -> option (list string).
Variable Stat : string -> option FileInfo.

Lemma fold_left_minutes : forall (gaps : list Gap) (a : Z),
  fold_left (fun acc g => acc + DurationMins g) gaps a
  = a + fold_right Z.add 0 (map DurationMins gaps).
Proof.
  induction gaps as [|g gaps IH]; intros a; cbn [fold_left map fold_right]; [lia|].
  rewrite IH. lia.
Qed.

Lemma last_default {A : Type} : forall (l : list A) (x d d' : A),
  last (x :: l) d = last (x :: l) d'.
Proof.
  induction l as [|y l IH]; intros x d d'; [reflexivity|].
  change (last (y :: l) d = last (y :: l) d'). apply IH.
Qed.

Lemma minutes_of_period (p : Z * Z) :
  fst p <= snd p ->
  0 <= (snd p - fst p) / 60 /\ 60 * ((snd p - fst p) / 60) <= snd p - fst p.
Proof. intros H. Z.div_mod_to_equations. lia. Qed.

(** The minutes of the gaps after the first start add up to no more than
    what is left of the day from that start on. *)
Lemma later_gaps_bound : forall (rest : list (Z * Z)) (first : Z * Z),
  Forall (fun p => 0 <= fst p <= snd p /\ snd p <= day_end) (first :: rest) ->
  StronglySorted (fun a b => fst a <= fst b) (first :: rest) ->
  let ps := filter longer_than_two_minutes
              (between (first :: rest)
                 ++ [(snd (last (first :: rest) first), day_end)]) in
  let total := fold_right Z.add 0 (map (fun p => (snd p - fst p) / 60) ps) in
  0 <= total /\ 60 * total <= day_end - fst first.
Proof.
  induction rest as [|second rest IH]; intros first Hok Hsorted; cbv zeta.
  - inversion Hok as [|? ? [H1 H2] _]; subst.
    cbn [between app last filter].
    destruct (minutes_of_period (snd first, day_end)) as [Ha Hb]; [cbn; lia|].
    cbn [fst snd] in Ha, Hb.
    destruct (longer_than_two_minutes _); cbn [map fold_right fst snd]; lia.
  - inversion Hok as [|? ? [H1 H2] Hok']; subst.
    inversion Hsorted as [|? ? Hs' Hle]; subst.
    inversion Hle as [|? ? Hfs _]; subst.
    specialize (IH second Hok' Hs'). cbv zeta in IH.
    change (between (first :: second :: rest))
      with ((snd first, fst second) :: between (second :: rest)).
    change (last (first :: second :: rest) first) with (last (second :: rest) first).
    rewrite (last_default rest second first second).
    cbn [app filter].
    inversion Hok' as [|? ? [H3 H4] _]; subst.
    destruct (longer_than_two_minutes (snd first, fst second)) eqn:El.
    + unfold longer_than_two_minutes in El. cbn [fst snd] in El. apply Z.ltb_lt in El.
      destruct (minutes_of_period (snd first, fst second)) as [Ha Hb]; [cbn; lia|].
      cbn [fst snd] in Ha, Hb. cbn [map fold_right fst snd]. lia.
    + lia.
Qed.

(** The minutes of all gaps of a day with at least one segment. *)
Lemma gap_minutes_bound (first : Z * Z) (rest : list (Z * Z)) :
  Forall (fun p => 0 <= fst p <= snd p /\ snd p <= day_end) (first :: rest) ->
  StronglySorted (fun a b => fst a <= fst b) (first :: rest) ->
  0 <= fold_right Z.add 0 (map DurationMins (gaps_spec (first :: rest))) <= 1439.
Proof.
  intros Hok Hsorted.
  destruct (later_gaps_bound rest first Hok Hsorted) as [Ha Hb]. cbv zeta in Ha, Hb.
  unfold gaps_spec, candidate_periods. cbn [filter].
  inversion Hok as [|? ? [H1 H2] _]; subst.
  rewrite map_map. unfold gap_of at 1. cbn [DurationMins].
  unfold day_end in *.
  destruct (longer_than_two_minutes (0, fst first)).
  - change (map (fun x => DurationMins (gap_of x))) with
      (map (fun p : Z * Z => (snd p - fst p) / 60)).
    cbn [map fold_right fst snd].
    destruct (minutes_of_period (0, fst first)) as [Hc Hd]; [cbn; lia|].
    cbn [fst snd] in Hc, Hd. lia.
  - change (map (fun x => DurationMins (gap_of x))) with
      (map (fun p : Z * Z => (snd p - fst p) / 60)). lia.
Qed.

Lemma span_in_day (seg : Segment) :
  well_formed seg -> ends_after_configured 1800 seg ->
  0 <= fst (span_of seg) <= snd (span_of seg) /\ snd (span_of seg) <= day_end.
Proof.
  intros [a [b [Ha [Hb [Hs He]]]]] Hend. unfold ends_after_configured in Hend.
  unfold span_of. cbn [fst snd]. rewrite Hend, Hs, clock_of_render by exact Ha.
  rewrite clock_of_render by (apply clamped_end_range; lia).
  unfold clamped_end, day_end. destruct (86400 <=? a + 1800) eqn:E; [lia|].
  apply Z.leb_gt in E. lia.
Qed.

(** X19.  The coverage of a timeline is never out of range: with at least
    one segment the recorded minutes are between 1 and 1440 (the minutes
    of the gaps add up to 1439 at most), and with none they are 0. *)
Theorem coverage_is_within_the_day camera date day files parsed :
  camera <> "" ->
  parse_date date = Some day ->
  Glob (ts_pattern BasePath camera date) = Some files ->
  timeline_loop Stat (midnight_utc day) files = Returned parsed ->
  exists segs gaps mins,
    handleRecordingsTimeline BasePath Glob Stat camera date
    = Returned (Timeline camera date segs gaps mins)
    /\ 0 <= mins <= 24 * 60
    /\ (parsed <> [] -> 1 <= mins)
    /\ (parsed = [] -> mins = 0).
Proof.
  intros Hcam Hdate Hglob Hloop.
  rewrite (timeline_reply BasePath Glob Stat camera date day files parsed
             Hcam Hdate Hglob Hloop).
  cbv zeta. do 3 eexists. split; [reflexivity|].
  destruct (timeline_loop_inv Stat day files parsed Hloop) as [starts [-> [_ Hat]]].
  destruct (sorted_segments starts Hat) as [Hperm [Hsorted [Hwf Hend]]].
  cbv zeta in Hperm, Hsorted, Hwf, Hend.
  set (segs := sort starts_later (map segment_of starts)) in *.
  rewrite (detect_gaps_spec _ segs Hwf).
  destruct segs as [|first rest] eqn:Es.
  - cbn. split; [lia|]. split; [|reflexivity].
    intros Hne. apply Permutation_sym, Permutation_nil in Hperm. contradiction.
  - unfold recorded_minutes. rewrite fold_left_minutes.
    assert (Hb : 0 <= fold_right Z.add 0
                   (map DurationMins (gaps_spec (map span_of (first :: rest)))) <= 1439).
    { cbn [map]. apply gap_minutes_bound.
      - change (span_of first :: map span_of rest) with (map span_of (first :: rest)).
        apply Forall_forall. intros p Hp. apply in_map_iff in Hp.
        destruct Hp as [seg [<- Hseg]]. rewrite Forall_forall in Hwf, Hend.
        apply span_in_day; [now apply Hwf|now apply Hend].
      - change (span_of first :: map span_of rest) with (map span_of (first :: rest)).
        clear - Hsorted. induction Hsorted as [|a l Hl IH Ha]; cbn [map]; constructor.
        + exact IH.
        + rewrite Forall_forall in Ha |- *. intros p Hp. apply in_map_iff in Hp.
          destruct Hp as [seg [<- Hseg]]. exact (Ha seg Hseg). }
    split; [lia|]. split; [lia|].
    intros Hnil. rewrite Hnil in Hperm. apply Permutation_nil in Hperm. discriminate.
Qed.

End Coverage.

Section StringCuts.






End StringCuts.

Section UrlRoundTrip.
Import GoTime Dirent WebUI WebUISpec WebAPI.
Variable BasePath : string.
Variable wd : string.
Variable Stat : string -> option FileInfo.















End UrlRoundTrip.

(* ------------------------------------------------------------------ *)
(** ** Sessions *)

Section SessionFacts.
Import GoTime Auth AuthSpec.

Lemma put_same (m : sessions_map) id s : put m id s id = Some s.
Proof. unfold put. now rewrite String.eqb_refl. Qed.

Lemma put_other (m : sessions_map) id s k : k <> id -> put m id s k = m k.
Proof. intros H. unfold put. apply String.eqb_neq in H. now rewrite H. Qed.

Lemma valid_until (sm : SessionManager) id s t :
  sessions sm id = Some s -> (ValidateSession sm id t = true <-> t <= ExpiresAt s).
Proof.
  intros H. unfold ValidateSession, After. rewrite H.
  destruct (ExpiresAt s <? t) eqn:E.
  - apply Z.ltb_lt in E. split; [discriminate|lia].
  - apply Z.ltb_ge in E. split; [intros _; exact E|reflexivity].
Qed.

(** X20.  A session created for [id] is valid at an instant exactly when
    that instant is not after the creation plus the timeout; creating it
    changes no other session; and once it is destroyed it is never valid. *)
Theorem session_lifetime (sm : SessionManager) (id user : string) (now now' : Time) :
  let sm' := fst (CreateSession sm (Some id) user now now') in
  (forall t, ValidateSession sm' id t = true <-> t <= now' + timeout sm)
  /\ (forall k t, k <> id -> ValidateSession sm' k t = ValidateSession sm k t)
  /\ (forall t, ValidateSession (DestroySession sm' id) id t = false)
  /\ (forall k t, k <> id ->
        ValidateSession (DestroySession sm' id) k t = ValidateSession sm k t).
Proof.
  cbv zeta. cbn [CreateSession fst]. repeat split.
  - intros H. eapply valid_until in H; [|cbn; apply put_same]. exact H.
  - intros H. eapply valid_until; [cbn; apply put_same|exact H].
  - intros k t Hk. unfold ValidateSession. cbn. now rewrite put_other.
  - intros t. unfold ValidateSession, DestroySession, delete. cbn.
    now rewrite String.eqb_refl.
  - intros k t Hk. unfold ValidateSession, DestroySession, delete. cbn.
    apply String.eqb_neq in Hk. rewrite Hk. unfold put. now rewrite Hk.
Qed.

Lemma middleware_passes (sm : SessionManager) id s now now' :
  sessions sm id = Some s -> now <= ExpiresAt s ->
  exists s',
    AuthMiddleware sm (Some id) now now'
    = (with_sessions sm (put (sessions sm) id s'), Next)
    /\ ExpiresAt s' = now' + timeout sm.
Proof.
  intros Hs Hle. unfold AuthMiddleware.
  assert (Hv : ValidateSession sm id now = true) by (now apply (valid_until sm id s)).
  rewrite Hv. cbn [negb]. unfold RefreshSession. rewrite Hs.
  eexists. split; [reflexivity|]. reflexivity.
Qed.

(** X21.  Requests that carry the cookie of a session and arrive no later
    than the expiry left by the one before all pass the middleware: each
    one moves the expiry to its own instant plus the timeout. *)
Theorem session_slides : forall (reqs : list request) (sm : SessionManager) id s,
  sessions sm id = Some s ->
  in_time id (timeout sm) (ExpiresAt s) reqs ->
  Forall (fun p => p = Next) (snd (serve sm reqs))
  /\ List.length (snd (serve sm reqs)) = List.length reqs.
Proof.
  induction reqs as [|r reqs IH]; intros sm id s Hs Hin; simpl.
  - split; [constructor|reflexivity].
  - destruct Hin as [Hc [Hle Hrest]]. rewrite Hc.
    destruct (middleware_passes sm id s (at_validate r) (at_refresh r) Hs Hle)
      as [s' [-> He]].
    set (sm' := with_sessions sm (put (sessions sm) id s')).
    destruct (IH sm' id s') as [HF HL].
    + unfold sm'. cbn. apply put_same.
    + rewrite He. exact Hrest.
    + destruct (serve sm' reqs) as [final ps]. cbn [snd] in *.
      split; [now constructor|]. cbn [List.length]. now rewrite HL.
Qed.


Lemma cleanup_pruned (sm : SessionManager) (now : Time) :
  pruned now sm (cleanupExpiredSessions sm now).
Proof.
  split; [reflexivity|]. intros id. unfold cleanupExpiredSessions. cbn.
  destruct (sessions sm id) as [s|] eqn:E; [|now left].
  unfold After. destruct (ExpiresAt s <? now) eqn:Ex; [|now left].
  apply Z.ltb_lt in Ex. right. split; [reflexivity|]. now exists s.
Qed.

Lemma pruned_middleware (now : Time) (sm sm' : SessionManager) c t t' :
  pruned now sm sm' -> now <= t ->
  snd (AuthMiddleware sm' c t t') = snd (AuthMiddleware sm c t t')
  /\ pruned now (fst (AuthMiddleware sm c t t')) (fst (AuthMiddleware sm' c t t')).
Proof.
  intros [Ht Hp] Hle. unfold AuthMiddleware.
  destruct c as [id|]; [|split; [reflexivity|now split]].
  unfold ValidateSession.
  destruct (Hp id) as [E|[E [s [Es Hx]]]].
  - rewrite E. destruct (sessions sm id) as [s|] eqn:Es;
      [|split; [reflexivity|now split]].
    destruct (After t (ExpiresAt s)); cbn [negb];
      [split; [reflexivity|now split]|].
    split; [reflexivity|]. cbn [fst]. unfold RefreshSession. rewrite E, Es, Ht.
    split; [exact Ht|]. intros k. cbn. unfold put.
    destruct (String.eqb k id); [now left|apply Hp].
  - rewrite E, Es. unfold After.
    assert (Hx' : (ExpiresAt s <? t) = true) by (apply Z.ltb_lt; lia).
    rewrite Hx'. cbn [negb]. split; [reflexivity|now split].
Qed.

(** X22.  Deleting the expired sessions is not seen by any later request:
    from the instant of the deletion on, the middleware gives the same
    answers whether or not the deletion has run. *)
Theorem cleanup_is_unobservable (reqs : list request) (sm : SessionManager)
    (now : Time) :
  Forall (fun r => now <= at_validate r) reqs ->
  snd (serve (cleanupExpiredSessions sm now) reqs) = snd (serve sm reqs).
Proof.
  intros Hall. pose proof (cleanup_pruned sm now) as Hp.
  revert Hp. generalize (cleanupExpiredSessions sm now) as sm'. revert sm.
  induction Hall as [|r reqs Hr _ IH]; intros sm sm' Hp; simpl; [reflexivity|].
  destruct (pruned_middleware now sm sm' (cookie r) (at_validate r) (at_refresh r)
              Hp Hr) as [Hsnd Hfst].
  destruct (AuthMiddleware sm' (cookie r) (at_validate r) (at_refresh r)) as [a p].
  destruct (AuthMiddleware sm (cookie r) (at_validate r) (at_refresh r)) as [b q].
  cbn [fst snd] in *. subst q.
  specialize (IH b a Hfst).
  destruct (serve a reqs) as [fa pa]. destruct (serve b reqs) as [fb pb].
  cbn [snd] in *. now rewrite IH.
Qed.

End SessionFacts.

Section LoginFacts.
Import GoTime Auth AuthSpec.
Variable CompareHashAndPassword : string -> string -> bool.

(** X23.  A login is answered with a session cookie only when the user name
    is the configured one and the password check passes; the cookie then
    passes the middleware up to the timeout after the login, and no longer
    once the user has logged out.  A refused login leaves the sessions as
    they were. *)
Theorem login_opens_a_session (sm : SessionManager) (user password : string)
    (remember : bool) (sid : option string) (now now' : Time) :
  let r := handleLogin CompareHashAndPassword sm user password remember sid now now' in
  (forall id maxAge, snd r = LoggedIn id maxAge ->
     user = username sm
     /\ CompareHashAndPassword (passwordHash sm) password = true
     /\ sid = Some id
     /\ (forall t t', snd (AuthMiddleware (fst r) (Some id) t t') = Next
                      <-> t <= now' + timeout sm)
     /\ (forall t t', snd (AuthMiddleware (handleLogout (fst r) (Some id)) (Some id) t t')
                      = RedirectToLogin))
  /\ (snd r = Unauthorized -> fst r = sm).
Proof.
  cbv zeta. unfold handleLogin, Authenticate.
  destruct (String.eqb user (username sm)) eqn:Eu; cbn [negb].
  - apply String.eqb_eq in Eu.
    destruct (CompareHashAndPassword (passwordHash sm) password) eqn:Ep; cbn [negb].
    + destruct sid as [id0|]; cbn [CreateSession fst snd].
      * split; [|discriminate]. intros id maxAge H. injection H as <- _.
        split; [exact Eu|]. split; [reflexivity|]. split; [reflexivity|].
        split.
        -- intros t t'. unfold AuthMiddleware.
           pose proof (valid_until
                         (with_sessions sm
                            (put (sessions sm) id0
                               {| Username := user; CreatedAt := now;
                                  ExpiresAt := Add now' (timeout sm) |}))
                         id0 _ t (put_same _ _ _)) as Hv.
           cbn [ExpiresAt] in Hv. unfold Add in Hv. rewrite <- Hv.
           destruct (ValidateSession _ id0 t); cbn [negb snd]; split; congruence.
        -- intros t t'. unfold AuthMiddleware, handleLogout, ValidateSession,
             DestroySession, delete. cbn. now rewrite String.eqb_refl.
      * split; [discriminate|discriminate].
    + split; [discriminate|reflexivity].
  - split; [discriminate|reflexivity].
Qed.

End LoginFacts.

(* ------------------------------------------------------------------ *)
(** ** Examples of the properties above *)

Section MoreExamples.
Import GoTime Dirent Scenarios.

Example validate_two_cameras : Config.Validate ConfigSpec.two_cameras = None.
Proof. reflexivity. Qed.

(** After two failures the loop gives up, the successful run between
    them notwithstanding. *)
Example retry_two_failures :
  RecorderLoops.startRecording two_retries [failing; succeeding; failing; succeeding; failing]
  = ([true; false; true], RecorderLoops.MaxRetriesReached).
Proof. reflexivity. Qed.

(** At 15:00 the loop sleeps 8 h 59 min; started half a minute before
    midnight it sleeps until 23:59:00 of the next day. *)
Example sleep_from_3pm :
  RecorderLoops.sleepDuration 0 StorageSpec.jan10_3pm = 8 * Hour + 59 * Minute.
Proof. reflexivity. Qed.

Example sleep_from_last_minute :
  RecorderLoops.sleepDuration 0 StorageSpec.jan10_before_midnight
  = 23 * Hour + 59 * Minute + 30 * Second.
Proof. reflexivity. Qed.

(** With a horizon of one day on a clock west of UTC the folder of the
    current day is deleted. *)
Example one_day_west_of_utc :
  local_day (-28800) jan10_8pm_pacific = day_number 2025 1 10
  /\ StorageSpec.partitions
       (Storage.remaining
          (Storage.cleanup StorageSpec.always_ok (StorageSpec.cleaner_with 1)
             jan10_8pm_pacific StorageSpec.six_days)) = [].
Proof. split; vm_compute; reflexivity. Qed.

Example playlist_path_with_extra_slashes :
  WebAPI.playlist_parts "//cam1//2025-01-10/a.ts/" = ["cam1"; "2025-01-10"; "a.ts"].
Proof. reflexivity. Qed.

(** The recorders of the two-camera configuration. *)
Lemma main_starts_recorders_witness :
  Config.start_recorders (Config.Cameras ConfigSpec.two_cameras) []
  = [ConfigSpec.front_door].
Proof.
  destruct (main_starts_recorders ConfigSpec.two_cameras) as [H _].
  - reflexivity.
  - rewrite H. reflexivity.
Defined.

(** Three requests, each within the hour after the one before. *)
Lemma session_slides_witness :
  Forall (fun p => p = Auth.Next) (snd (Auth.serve logged_in three_requests))
  /\ List.length (snd (Auth.serve logged_in three_requests)) = 3%nat.
Proof.
  apply (session_slides three_requests logged_in "s1" noon_session).
  - reflexivity.
  - cbn [AuthSpec.in_time three_requests]. repeat split; try reflexivity;
      apply Z.leb_le; vm_compute; reflexivity.
Defined.

(** Cleaning the sessions at 13:10 changes no later answer. *)
Lemma cleanup_is_unobservable_witness :
  snd (Auth.serve (Auth.cleanupExpiredSessions two_sessions (AuthSpec.minutes_after_noon 70))
         later_requests)
  = snd (Auth.serve two_sessions later_requests).
Proof.
  apply cleanup_is_unobservable.
  repeat constructor; apply Z.leb_le; vm_compute; reflexivity.
Defined.

(** From 15:00 on 2025-01-10 the loop makes the folders of the next two
    days. *)
Lemma next_day_folders_witness :
  RecorderLoops.createNextDayFolder 0 StorageSpec.jan10_3pm [a_second_late; a_second_late]
  = ["2025-01-11"; "2025-01-12"].
Proof.
  destruct (next_day_folders [a_second_late; a_second_late] 0 StorageSpec.jan10_3pm)
    as [_ [_ H]].
  - repeat constructor; vm_compute; congruence.
  - rewrite H. vm_compute. reflexivity.
Defined.

(** At 15:00 on 2025-01-10 with a horizon of two days the folder of the
    day is left. *)
Lemma recording_folder_is_kept_witness :
  In ["cam1"; "recordings"; "2025-01-10"]
     (StorageSpec.partitions
        (Storage.remaining
           (Storage.cleanup StorageSpec.always_ok (StorageSpec.cleaner_with 2)
              StorageSpec.jan10_3pm StorageSpec.six_days))).
Proof.
  destruct (recording_folder_is_kept StorageSpec.always_ok StorageSpec.volume_100GiB
              (StorageSpec.cleaner_with 2) 0 StorageSpec.jan10_3pm
              StorageSpec.six_days jan10_folder) as [_ [H _]].
  - lia.
  - vm_compute. split; congruence.
  - vm_compute. tauto.
  - vm_compute. reflexivity.
  - apply (H StorageSpec.jan10_3pm).
    + lia.
    + left. vm_compute. congruence.
Defined.

(** Three rounds at 92%: one alert. *)
Lemma alerts_are_throttled_witness :
  Z.of_nat (List.length
    (filter (fun a : Time * Z =>
               (RecoverySpec.noon <=? fst a) && (fst a <=? RecoverySpec.noon + 1 * Hour))%bool
       (StorageRuns.alerts StorageSpec.always_ok StorageSpec.volume_92_percent
          (Storage.NewCleaner retention_7_days) StorageSpec.six_days three_rounds)))
  <= 3.
Proof.
  destruct (alerts_are_throttled StorageSpec.always_ok StorageSpec.volume_92_percent
              retention_7_days StorageSpec.six_days three_rounds) as [_ [_ H]].
  - cbn [StorageRuns.in_order three_rounds]. repeat split;
      apply Z.leb_le; vm_compute; reflexivity.
  - apply H.
Defined.

(** With a cap of zero the stale camera of the five checks is never
    recovered. *)
Lemma no_cap_no_recovery_witness :
  Forall (fun o => match o with
                   | Recovery.Performed _ | Recovery.Exhausted => False
                   | _ => True
                   end)
         (snd (Recovery.run (RecoverySpec.defaults 0) Recovery.initial
                 (RecoverySpec.minutely 5 0 (-700)))).
Proof.
  destruct (no_cap_no_recovery (RecoverySpec.defaults 0)
              (RecoverySpec.minutely 5 0 (-700)) Recovery.initial) as [H _].
  - vm_compute. congruence.
  - exact H.
Defined.

(** The first action of the five checks, at 12:02:00, comes two minutes
    after the detection at noon. *)
Lemma recovery_waits_for_verification_witness :
  exists j tj tk,
    (j < 2)%nat
    /\ nth_error (snd (Recovery.run (RecoverySpec.defaults 2) Recovery.initial
                         (RecoverySpec.minutely 5 0 (-700)))) j
       = Some Recovery.Detected
    /\ nth_error (RecoverySpec.minutely 5 0 (-700)) j = Some tj
    /\ nth_error (RecoverySpec.minutely 5 0 (-700)) 2 = Some tk
    /\ 120 * Second <= Recovery.clock tk 1%nat - Recovery.clock tj 1%nat.
Proof.
  destruct (recovery_waits_for_verification (RecoverySpec.defaults 2)
              (RecoverySpec.minutely 5 0 (-700)) 2
              {| Recovery.Timestamp := RecoverySpec.noon + 120 * Second;
                 Recovery.Action := "goroutine_restart"; Recovery.Success := false |})
    as [j [tj [tk [H1 [H2 [H3 [H4 [H5 _]]]]]]]].
  - vm_compute. reflexivity.
  - exists j, tj, tk. repeat split; assumption.
Defined.

(** Five seconds after midnight, with the folder of the new day empty. *)
Lemma empty_folder_freezes_recovery_witness :
  Recovery.checkCamera (RecoverySpec.defaults 2) Recovery.initial
    (Recorder.GetLastRecordingTime RecorderSpec.after_midnight 0 RecorderSpec.cam1
       RecorderSpec.jan11_just_after_midnight RecorderSpec.jan11_just_after_midnight)
    (fun _ => RecorderSpec.jan11_just_after_midnight)
  = (Recovery.initial, Recovery.NoRecordings).
Proof.
  destruct (empty_folder_freezes_recovery RecorderSpec.after_midnight 0
              (RecoverySpec.defaults 2) RecorderSpec.cam1 Recovery.initial
              RecorderSpec.jan11_just_after_midnight
              RecorderSpec.jan11_just_after_midnight
              (fun _ => RecorderSpec.jan11_just_after_midnight)) as [_ H].
  - left. exists []. split; [vm_compute; reflexivity|constructor].
  - exact H.
Defined.

(** The dates of the five entries of the folder of the camera. *)
Lemma dates_are_the_date_directories_witness :
  WebAPI.handleRecordingDates "/recordings" cam1_folders "cam1"
  = WebAPI.Dates "cam1" ["2025-01-09"; "2025-01-10"].
Proof.
  destruct (dates_are_the_date_directories "/recordings" cam1_folders "cam1"
              [ {| Name := "2025-01-09"; IsDir := true; Info := None |};
                {| Name := "thumbnails"; IsDir := true; Info := None |};
                {| Name := "2025-13-01"; IsDir := true; Info := None |};
                {| Name := "2025-01-11"; IsDir := false; Info := None |};
                {| Name := "2025-01-10"; IsDir := true; Info := None |} ])
    as [dates [H1 [H2 _]]].
  - discriminate.
  - vm_compute. reflexivity.
  - rewrite H1, H2. vm_compute. reflexivity.
Defined.

(** The folder of the camera holds four folders with names of ten
    bytes, two of them dates. *)
Lemma days_stored_counts_more_witness :
  WebAPI.days_stored "/recordings" cam1_folders "cam1" = 4
  /\ exists dates,
       WebAPI.handleRecordingDates "/recordings" cam1_folders "cam1"
       = WebAPI.Dates "cam1" dates
       /\ Z.of_nat (List.length dates) <= 4.
Proof.
  split; [vm_compute; reflexivity|].
  destruct (days_stored_counts_more "/recordings" cam1_folders "cam1"
              [ {| Name := "2025-01-09"; IsDir := true; Info := None |};
                {| Name := "thumbnails"; IsDir := true; Info := None |};
                {| Name := "2025-13-01"; IsDir := true; Info := None |};
                {| Name := "2025-01-11"; IsDir := false; Info := None |};
                {| Name := "2025-01-10"; IsDir := true; Info := None |} ])
    as [dates [H1 [H2 _]]].
  - discriminate.
  - vm_compute. reflexivity.
  - exists dates. split; [exact H1|]. exact H2.
Defined.

(** The list of the two segments of 2025-01-10. *)
Lemma list_follows_the_files_witness :
  exists files,
    WebUISpec.glob_of WebUISpec.jan10_dir WebUISpec.two_segments
      (WebUISpec.ts_pattern "/recordings" "cam1" "2025-01-10") = Some files
    /\ map WebUI.r_Filename two_recordings = ["08-45-00.ts"; "08-00-00.ts"]
    /\ List.length files = 2%nat.
Proof.
  destruct (list_follows_the_files "/recordings"
              (WebUISpec.glob_of WebUISpec.jan10_dir WebUISpec.two_segments)
              (WebUISpec.stat_of WebUISpec.jan10_dir WebUISpec.two_segments)
              "cam1" "2025-01-10" "cam1" "2025-01-10" two_recordings)
    as [_ [_ [files [Hg _]]]].
  - vm_compute. reflexivity.
  - exists files. split; [exact Hg|]. split; [vm_compute; reflexivity|].
    vm_compute in Hg. injection Hg as <-. reflexivity.
Defined.


(** The coverage of the day of the two segments. *)
Lemma coverage_witness :
  exists segs gaps mins,
    WebUI.handleRecordingsTimeline "/recordings"
      (WebUISpec.glob_of WebUISpec.jan10_dir WebUISpec.two_segments)
      (WebUISpec.stat_of WebUISpec.jan10_dir WebUISpec.two_segments) "cam1" "2025-01-10"
    = WebUI.Returned (WebUI.Timeline "cam1" "2025-01-10" segs gaps mins)
    /\ 1 <= mins <= 24 * 60.
Proof.
  assert (Hloop : exists parsed,
            WebUI.timeline_loop (WebUISpec.stat_of WebUISpec.jan10_dir WebUISpec.two_segments)
              (midnight_utc (day_number 2025 1 10))
              (map (fun n => Filepath.Join [WebUISpec.jan10_dir; n]) WebUISpec.two_segments)
            = WebUI.Returned parsed /\ parsed <> [])
    by (eexists; split; [vm_compute; reflexivity|discriminate]).
  destruct Hloop as [parsed [Hloop Hne]].
  destruct (coverage_is_within_the_day "/recordings"
              (WebUISpec.glob_of WebUISpec.jan10_dir WebUISpec.two_segments)
              (WebUISpec.stat_of WebUISpec.jan10_dir WebUISpec.two_segments)
              "cam1" "2025-01-10" (day_number 2025 1 10)
              (map (fun n => Filepath.Join [WebUISpec.jan10_dir; n]) WebUISpec.two_segments)
              parsed)
    as [segs [gaps [mins [Hreply [Hr [H1 _]]]]]].
  - discriminate.
  - vm_compute. reflexivity.
  - vm_compute. reflexivity.
  - exact Hloop.
  - exists segs, gaps, mins. split; [exact Hreply|]. specialize (H1 Hne). lia.
Defined.


End MoreExamples.
